(** * RT-Thread kernel: thread core and inter-thread synchronization

    A shallow embedding of [src/thread.c] and [src/ipc.c] of RT-Thread.

    Conventions of the embedding.
    - A thread pointer is an index into the table of thread objects
      ([threads]); dereferencing a pointer that names no thread
      object is undefined behaviour of the C program and is [None] here, as is
      every other undefined behaviour (NULL dereference, array access out of
      range, [%] by zero) and every failed [RT_ASSERT].
    - The intrusive list node [tlist] of a thread is linked in at most one
      [rt_list_t]; a list is the sequence of the threads whose nodes are
      linked in it, head first.
    - Code between [rt_hw_interrupt_disable] and [rt_hw_interrupt_enable]
      runs atomically on the single core; a blocking call is cut at its
      [rt_schedule()]: the part before it and the part the thread runs when it
      is scheduled in again are two functions.
    - An [rt_schedule()] that ends a call which does not block only asks for
      a context switch and changes nothing of the state kept here; the switch
      itself is [switch_to].
    - The observability hooks ([RT_USING_HOOK]) and the debug output
      ([IPC_DEBUG], [THREAD_DEBUG]) do not touch kernel state and are left
      out. *)

From Stdlib Require Import ZArith Lia.
From stdpp Require Import base option list.

Local Open Scope Z_scope.

(** ** Declarations of rtdef.h *)

(** Modelled from the spec: [rtdef.h] is not among the sources.  Error codes
    are "returned as negative integers: OK, ERROR, TIMEOUT, FULL, EMPTY". *)
Definition RT_EOK : Z := 0.
Definition RT_ERROR : Z := 1.
Definition RT_ETIMEOUT : Z := 2.
Definition RT_EFULL : Z := 3.

(** Modelled from the spec: the wait-queue ordering flag of a
    synchronization object, [flag ∈ {FIFO, PRIO}]. *)
Definition RT_IPC_FLAG_FIFO : Z := 0.
Definition RT_IPC_FLAG_PRIO : Z := 1.

(** Modelled from the spec: the wait modes AND / OR / CLEAR of an event
    receiver, one bit each of [event_info]. *)
Definition RT_EVENT_FLAG_AND : Z := 1.
Definition RT_EVENT_FLAG_OR : Z := 2.
Definition RT_EVENT_FLAG_CLEAR : Z := 4.

(** Modelled from the spec: [rt_base_t] and [rt_ubase_t] are the signed and
    unsigned machine word, 32 bits wide (semaphore "value: i32", event
    "set: u32"); [rt_uint8_t] is a byte.  Arithmetic on them wraps. *)
Definition wrap_u32 (x : Z) : Z := x mod 2 ^ 32.
Definition wrap_s32 (x : Z) : Z := (x + 2 ^ 31) mod 2 ^ 32 - 2 ^ 31.
Definition wrap_u8 (x : Z) : Z := x mod 2 ^ 8.

(** The values of a 32-bit unsigned and of a 32-bit signed word. *)
Definition is_u32 (x : Z) : Prop := 0 <= x < 2 ^ 32.
Definition is_s32 (x : Z) : Prop := - 2 ^ 31 <= x < 2 ^ 31.

(** C truth value of an integer expression. *)
Definition c_true (x : Z) : bool := negb (x =? 0).

(** ** Thread objects (thread.c) *)

Definition tid := nat.

Inductive thread_stat : Set :=
  | RT_THREAD_INIT
  | RT_THREAD_READY
  | RT_THREAD_SUSPEND
  | RT_THREAD_CLOSE.

Definition thread_stat_eqb (a b : thread_stat) : bool :=
  match a, b with
  | RT_THREAD_INIT, RT_THREAD_INIT
  | RT_THREAD_READY, RT_THREAD_READY
  | RT_THREAD_SUSPEND, RT_THREAD_SUSPEND
  | RT_THREAD_CLOSE, RT_THREAD_CLOSE => true
  | _, _ => false
  end.

(** Modelled from the spec: the embedded one-shot timer of a thread (timer.c
    is not among the sources).  [timer_activated] is the flag
    [RT_TIMER_FLAG_ACTIVATED], set while the timer is linked in the system
    timer list; [timer_init_tick] is the programmed timeout. *)
Record rt_timer : Set := mk_timer {
  timer_activated : bool;
  timer_init_tick : Z
}.

Record rt_thread : Set := mk_thread {
  init_priority : Z;
  current_priority : Z;
  number : Z;
  number_mask : Z;
  high_mask : Z;
  stat : thread_stat;
  error : Z;
  event_set : Z;
  event_info : Z;
  thread_timer : rt_timer
}.

Definition set_stat (s : thread_stat) (t : rt_thread) : rt_thread :=
  mk_thread (init_priority t) (current_priority t) (number t) (number_mask t)
    (high_mask t) s (error t) (event_set t) (event_info t) (thread_timer t).

Definition set_error (e : Z) (t : rt_thread) : rt_thread :=
  mk_thread (init_priority t) (current_priority t) (number t) (number_mask t)
    (high_mask t) (stat t) e (event_set t) (event_info t) (thread_timer t).

Definition set_event (set info : Z) (t : rt_thread) : rt_thread :=
  mk_thread (init_priority t) (current_priority t) (number t) (number_mask t)
    (high_mask t) (stat t) (error t) set info (thread_timer t).

Definition set_thread_timer (tm : rt_timer) (t : rt_thread) : rt_thread :=
  mk_thread (init_priority t) (current_priority t) (number t) (number_mask t)
    (high_mask t) (stat t) (error t) (event_set t) (event_info t) tm.

(** The kernel state shared by all calls: the thread objects, the running
    thread, and the scheduler's ready table. *)
Record kernel : Set := mk_kernel {
  threads : list rt_thread;
  rt_current_thread : tid;
  rt_thread_priority_table : list tid;
  rt_thread_defunct : list tid
}.

Definition set_threads (ts : list rt_thread) (k : kernel) : kernel :=
  mk_kernel ts (rt_current_thread k) (rt_thread_priority_table k)
    (rt_thread_defunct k).

Definition set_ready (r : list tid) (k : kernel) : kernel :=
  mk_kernel (threads k) (rt_current_thread k) r (rt_thread_defunct k).

Definition set_defunct (d : list tid) (k : kernel) : kernel :=
  mk_kernel (threads k) (rt_current_thread k) (rt_thread_priority_table k) d.

(** [*thread], and the update of the object [thread] points to. *)
Definition deref (k : kernel) (thread : tid) : option rt_thread :=
  threads k !! thread.

Definition store (thread : tid) (t : rt_thread) (k : kernel) : kernel :=
  set_threads (<[thread := t]> (threads k)) k.

(** ** List primitives (kservice.h) *)

(** Modelled from the spec: kservice.h is not among the sources.
    [rt_list_insert_before l n] links node [n] in front of node [l]; the
    position [l] is either an element of the list or, with [None], the list
    head itself, in front of which is the tail of the list ("FIFO: append
    to tail").  [rt_list_remove] unlinks a node from the list it is in. *)
Definition rt_list_insert_before (l : list tid) (pos : option nat) (n : tid)
  : list tid :=
  match pos with
  | None => l ++ [n]
  | Some i => take i l ++ n :: drop i l
  end.

Definition tid_eqb (a b : tid) : bool := Nat.eqb a b.

Fixpoint rt_list_remove (n : tid) (l : list tid) : list tid :=
  match l with
  | [] => []
  | x :: l' => if tid_eqb x n then rt_list_remove n l' else x :: rt_list_remove n l'
  end.

(** ** Scheduler interface (scheduler.c) *)

(** Modelled from the spec: scheduler.c is not among the sources.
    [insert_ready(t)] links the thread at the tail of the ready queue of its
    priority and makes it READY ("stat == READY iff the node is in the ready
    table"); [remove_ready(t)] unlinks it.  The ready table is kept as one
    sequence in insertion order; the queue of one priority is the
    subsequence of the threads of that priority. *)
Definition rt_schedule_insert_thread (thread : tid) (k : kernel) : option kernel :=
  t ← deref k thread;
  Some (set_ready (rt_list_insert_before (rt_thread_priority_table k) None thread)
          (store thread (set_stat RT_THREAD_READY t) k)).

Definition rt_schedule_remove_thread (thread : tid) (k : kernel) : option kernel :=
  _ ← deref k thread;
  Some (set_ready (rt_list_remove thread (rt_thread_priority_table k)) k).

(** Modelled from the spec: the context switch of [rt_schedule()], which
    makes the thread it picked the running one ("self() returns the current
    running thread, process-wide state maintained by scheduler"). *)
Definition switch_to (thread : tid) (k : kernel) : kernel :=
  mk_kernel (threads k) thread (rt_thread_priority_table k) (rt_thread_defunct k).

(** ** Thread operations (thread.c) *)

Definition rt_thread_self (k : kernel) : tid := rt_current_thread k.

Section ThreadControl.

(** The configuration constant of rtconfig.h, which is not among the
    sources: it selects the layout of the ready bitmap. *)
Variable RT_THREAD_PRIORITY_MAX : Z.

(** "calculate priority attribute": the [#if RT_THREAD_PRIORITY_MAX > 32]
    block of [rt_thread_startup] and [rt_thread_control]. *)
Definition set_priority (p : Z) (t : rt_thread) : rt_thread :=
  if 32 <? RT_THREAD_PRIORITY_MAX then
    let num := Z.shiftr p 3 in
    mk_thread (init_priority t) p
      num (wrap_u32 (Z.shiftl 1 num)) (wrap_u8 (Z.shiftl 1 (Z.land p 7)))
      (stat t) (error t) (event_set t) (event_info t) (thread_timer t)
  else
    mk_thread (init_priority t) p
      (number t) (wrap_u32 (Z.shiftl 1 p)) (high_mask t)
      (stat t) (error t) (event_set t) (event_info t) (thread_timer t).

(** [rt_thread_suspend]: returns the state and the error code. *)
Definition rt_thread_suspend (thread : tid) (k : kernel) : option (kernel * Z) :=
  t ← deref k thread;
  if negb (thread_stat_eqb (stat t) RT_THREAD_READY) then Some (k, - RT_ERROR)
  else
    k' ← rt_schedule_remove_thread thread (store thread (set_stat RT_THREAD_SUSPEND t) k);
    Some (k', RT_EOK).

(** [rt_thread_resume].  [wl] is the suspend list the node of the thread is
    linked in (any list when the node is linked in none). *)
Definition rt_thread_resume (thread : tid) (wl : list tid) (k : kernel)
  : option (kernel * list tid * Z) :=
  t ← deref k thread;
  if negb (thread_stat_eqb (stat t) RT_THREAD_SUSPEND) then Some (k, wl, - RT_ERROR)
  else
    let wl' := rt_list_remove thread wl in
    let tm := mk_timer false (timer_init_tick (thread_timer t)) in
    k' ← rt_schedule_insert_thread thread (store thread (set_thread_timer tm t) k);
    Some (k', wl', RT_EOK).

(** [rt_thread_timeout], the expiry callback of the thread timer. *)
Definition rt_thread_timeout (thread : tid) (wl : list tid) (k : kernel)
  : option (kernel * list tid) :=
  t ← deref k thread;
  if negb (thread_stat_eqb (stat t) RT_THREAD_SUSPEND) then None
  else
    k' ← rt_schedule_insert_thread thread
           (store thread (set_error (- RT_ETIMEOUT) t) k);
    Some (k', rt_list_remove thread wl).

(** [rt_thread_startup]. *)
Definition rt_thread_startup (thread : tid) (k : kernel) : option (kernel * Z) :=
  t ← deref k thread;
  if negb (thread_stat_eqb (stat t) RT_THREAD_INIT) then None
  else
    let t1 := set_stat RT_THREAD_SUSPEND (set_priority (init_priority t) t) in
    '(k', _, _) ← rt_thread_resume thread [] (store thread t1 k);
    Some (k', RT_EOK).

(** Modelled from the spec: [rt_timer_detach] of the timer interface stops
    the timer. *)
Definition rt_timer_detach (tm : rt_timer) : rt_timer :=
  mk_timer false (timer_init_tick tm).

(** [rt_thread_delete] ([RT_USING_HEAP]). *)
Definition rt_thread_delete (thread : tid) (k : kernel) : option (kernel * Z) :=
  k1 ← rt_schedule_remove_thread thread k;
  t ← deref k1 thread;
  let t1 := set_stat RT_THREAD_CLOSE (set_thread_timer (rt_timer_detach (thread_timer t)) t) in
  let k2 := store thread t1 k1 in
  Some (set_defunct (thread :: rt_thread_defunct k2) k2, RT_EOK).

Inductive thread_ctrl : Set :=
  | RT_THREAD_CTRL_STARTUP
  | RT_THREAD_CTRL_CLOSE
  | RT_THREAD_CTRL_CHANGE_PRIORITY
  | RT_THREAD_CTRL_OTHER.

(** [rt_thread_control]; [arg] is the byte [*(rt_uint8_t* )arg]. *)
Definition rt_thread_control (thread : tid) (cmd : thread_ctrl) (arg : Z) (k : kernel)
  : option (kernel * Z) :=
  match cmd with
  | RT_THREAD_CTRL_CHANGE_PRIORITY =>
      t ← deref k thread;
      if thread_stat_eqb (stat t) RT_THREAD_READY then
        k1 ← rt_schedule_remove_thread thread k;
        t1 ← deref k1 thread;
        k2 ← rt_schedule_insert_thread thread (store thread (set_priority arg t1) k1);
        Some (k2, - RT_EOK)
      else
        Some (store thread (set_priority arg t) k, - RT_EOK)
  | RT_THREAD_CTRL_STARTUP => rt_thread_startup thread k
  | RT_THREAD_CTRL_CLOSE => rt_thread_delete thread k
  | RT_THREAD_CTRL_OTHER => Some (k, - RT_EOK)
  end.

End ThreadControl.

(** ** Timer interface (timer.c) *)

(** Modelled from the spec: [timer_control(t, SET_TIME, &ticks)] programs
    the timeout of the one-shot timer and [timer_start(t)] arms it. *)
Definition rt_timer_control_set_time (ticks : Z) (tm : rt_timer) : rt_timer :=
  mk_timer (timer_activated tm) ticks.

Definition rt_timer_start (tm : rt_timer) : rt_timer :=
  mk_timer true (timer_init_tick tm).

(** "reset the timeout of thread timer and start it": the two calls every
    blocking operation makes under [if (time > 0)]. *)
Definition start_thread_timer (thread : tid) (time : Z) (k : kernel) : option kernel :=
  if 0 <? time then
    t ← deref k thread;
    Some (store thread
            (set_thread_timer
               (rt_timer_start (rt_timer_control_set_time time (thread_timer t))) t) k)
  else Some k.

(** Modelled from the spec: expiry of an armed one-shot timer.  The timer
    leaves the timer list and its callback, [rt_thread_timeout] with the
    thread as parameter, runs on the suspend list [wl] the thread waits in.
    A timer that is not armed does not expire. *)
Definition rt_timer_expire (thread : tid) (wl : list tid) (k : kernel)
  : option (kernel * list tid) :=
  t ← deref k thread;
  if timer_activated (thread_timer t) then
    rt_thread_timeout thread wl
      (store thread (set_thread_timer (mk_timer false (timer_init_tick (thread_timer t))) t) k)
  else None.

(** ** IPC objects (ipc.c) *)

(** How a call of a blocking operation leaves the kernel: it returned an
    error code, or it reached [rt_schedule()] and waits to be scheduled in
    again. *)
Inductive call_status : Set :=
  | Returned (err : Z)
  | Scheduled.

Record rt_ipc_object : Set := mk_ipc {
  flag : Z;
  suspend_thread : list tid;
  suspend_thread_count : Z
}.

Definition rt_ipc_object_init (ipc : rt_ipc_object) : rt_ipc_object :=
  mk_ipc (flag ipc) [] 0.

(** The search loop of the PRIO case of [rt_ipc_object_suspend]: the
    position of the first queued thread of numerically greater priority, or
    [None] when [n] arrives back at the list head. *)
Fixpoint find_position (k : kernel) (prio : Z) (l : list tid) (i : nat)
  : option (option nat) :=
  match l with
  | [] => Some None
  | s :: l' =>
      sthread ← deref k s;
      if prio <? current_priority sthread then Some (Some i)
      else find_position k prio l' (S i)
  end.

(** [rt_ipc_object_suspend].  The result of [rt_thread_suspend] is dropped,
    as in the source; after the search loop of the PRIO case the node is
    linked in front of [&(ipc->suspend_thread)], the list head, not in front
    of [n]. *)
Definition rt_ipc_object_suspend (ipc : rt_ipc_object) (thread : tid) (k : kernel)
  : option (kernel * rt_ipc_object) :=
  '(k1, _) ← rt_thread_suspend thread k;
  let count := wrap_u32 (suspend_thread_count ipc + 1) in
  if flag ipc =? RT_IPC_FLAG_FIFO then
    Some (k1, mk_ipc (flag ipc)
                (rt_list_insert_before (suspend_thread ipc) None thread) count)
  else if flag ipc =? RT_IPC_FLAG_PRIO then
    t ← deref k1 thread;
    n ← find_position k1 (current_priority t) (suspend_thread ipc) 0;
    Some (k1, mk_ipc (flag ipc)
                (rt_list_insert_before (suspend_thread ipc) None thread) count)
  else
    Some (k1, mk_ipc (flag ipc) (suspend_thread ipc) count).

(** [rt_ipc_object_resume]: the thread at [suspend_thread.next] is resumed.
    On an empty list that node is the list head, which is no thread. *)
Definition rt_ipc_object_resume (ipc : rt_ipc_object) (k : kernel)
  : option (kernel * rt_ipc_object) :=
  match suspend_thread ipc with
  | [] => None
  | thread :: _ =>
      '(k1, wl, _) ← rt_thread_resume thread (suspend_thread ipc) k;
      Some (k1, mk_ipc (flag ipc) wl (wrap_u32 (suspend_thread_count ipc - 1)))
  end.

(** [rt_ipc_object_decrease]. *)
Definition rt_ipc_object_decrease (ipc : rt_ipc_object) : rt_ipc_object :=
  mk_ipc (flag ipc) (suspend_thread ipc) (wrap_u32 (suspend_thread_count ipc - 1)).

(** *** Semaphore *)

Record rt_semaphore : Set := mk_sem {
  sem_parent : rt_ipc_object;
  sem_value : Z
}.

Definition rt_sem_init (value flag : Z) : rt_semaphore :=
  mk_sem (mk_ipc (wrap_u8 flag) [] 0) (wrap_s32 value).

(** [rt_sem_take] up to its return or its [rt_schedule()]. *)
Definition rt_sem_take (sem : rt_semaphore) (time : Z) (k : kernel)
  : option (kernel * rt_semaphore * call_status) :=
  if 0 <? sem_value sem then
    Some (k, mk_sem (sem_parent sem) (wrap_s32 (sem_value sem - 1)), Returned RT_EOK)
  else if time =? 0 then
    Some (k, sem, Returned (- RT_ETIMEOUT))
  else
    let thread := rt_thread_self k in
    t ← deref k thread;
    let k1 := store thread (set_error RT_EOK t) k in
    '(k2, ipc) ← rt_ipc_object_suspend (sem_parent sem) thread k1;
    k3 ← start_thread_timer thread time k2;
    Some (k3, mk_sem ipc (wrap_s32 (sem_value sem - 1)), Scheduled).

(** [rt_sem_take] from the return of [rt_schedule()] on; [thread] is the
    local variable of the suspended call. *)
Definition rt_sem_take_resumed (sem : rt_semaphore) (thread : tid) (k : kernel)
  : option (kernel * rt_semaphore * Z) :=
  t ← deref k thread;
  if negb (error t =? RT_EOK) then
    Some (k, mk_sem (rt_ipc_object_decrease (sem_parent sem)) (sem_value sem), error t)
  else Some (k, sem, RT_EOK).

Definition rt_sem_trytake (sem : rt_semaphore) (k : kernel)
  : option (kernel * rt_semaphore * call_status) :=
  rt_sem_take sem 0 k.

(** [rt_sem_release]. *)
Definition rt_sem_release (sem : rt_semaphore) (k : kernel)
  : option (kernel * rt_semaphore * Z) :=
  let value := wrap_s32 (sem_value sem + 1) in
  if (value <=? 0) && (0 <? suspend_thread_count (sem_parent sem)) then
    '(k1, ipc) ← rt_ipc_object_resume (sem_parent sem) k;
    Some (k1, mk_sem ipc value, RT_EOK)
  else Some (k, mk_sem (sem_parent sem) value, RT_EOK).

(** Expiry of the timer of a thread that waits on the semaphore. *)
Definition rt_sem_wait_timeout (sem : rt_semaphore) (thread : tid) (k : kernel)
  : option (kernel * rt_semaphore) :=
  '(k', wl) ← rt_timer_expire thread (suspend_thread (sem_parent sem)) k;
  Some (k', mk_sem (mk_ipc (flag (sem_parent sem)) wl
                      (suspend_thread_count (sem_parent sem))) (sem_value sem)).

(** *** Mutex *)

Record rt_mutex : Set := mk_mutex {
  mutex_parent : rt_ipc_object;
  mutex_value : Z;
  owner : option tid;
  original_priority : Z;
  hold : Z
}.

Definition rt_mutex_init (flag : Z) : rt_mutex :=
  mk_mutex (mk_ipc (wrap_u8 flag) [] 0) 1 None 255 0.

Definition owner_is (mutex : rt_mutex) (thread : tid) : bool :=
  match owner mutex with
  | Some o => tid_eqb o thread
  | None => false
  end.

Section Mutex.

Variable RT_THREAD_PRIORITY_MAX : Z.

(** [rt_mutex_take] up to its return or its [rt_schedule()]. *)
Definition rt_mutex_take (mutex : rt_mutex) (time : Z) (k : kernel)
  : option (kernel * rt_mutex * call_status) :=
  let thread := rt_thread_self k in
  t ← deref k thread;
  let k0 := store thread (set_error RT_EOK t) k in
  if owner_is mutex thread then
    Some (k0, mk_mutex (mutex_parent mutex) (mutex_value mutex) (owner mutex)
                (original_priority mutex) (wrap_s32 (hold mutex + 1)),
          Returned RT_EOK)
  else if 0 <? mutex_value mutex then
    t0 ← deref k0 thread;
    Some (k0, mk_mutex (mutex_parent mutex) (wrap_s32 (mutex_value mutex - 1))
                (Some thread) (current_priority t0) (wrap_s32 (hold mutex + 1)),
          Returned RT_EOK)
  else if time =? 0 then
    t0 ← deref k0 thread;
    Some (store thread (set_error (- RT_ETIMEOUT) t0) k0, mutex,
          Returned (- RT_ETIMEOUT))
  else
    let value := wrap_s32 (mutex_value mutex - 1) in
    t0 ← deref k0 thread;
    o ← owner mutex;
    to ← deref k0 o;
    k1 ← (if current_priority t0 <? current_priority to then
            fst <$> rt_thread_control RT_THREAD_PRIORITY_MAX o
                      RT_THREAD_CTRL_CHANGE_PRIORITY (current_priority t0) k0
          else Some k0);
    '(k2, ipc) ← rt_ipc_object_suspend (mutex_parent mutex) thread k1;
    k3 ← start_thread_timer thread time k2;
    Some (k3, mk_mutex ipc value (owner mutex) (original_priority mutex) (hold mutex),
          Scheduled).

(** [rt_mutex_take] from the return of [rt_schedule()] on. *)
Definition rt_mutex_take_resumed (mutex : rt_mutex) (thread : tid) (k : kernel)
  : option (kernel * rt_mutex * Z) :=
  t ← deref k thread;
  if negb (error t =? RT_EOK) then
    Some (k, mk_mutex (rt_ipc_object_decrease (mutex_parent mutex)) (mutex_value mutex)
               (owner mutex) (original_priority mutex) (hold mutex),
          error t)
  else
    Some (store thread (set_error RT_EOK t) k,
          mk_mutex (mutex_parent mutex) (mutex_value mutex) (Some thread)
            (original_priority mutex) (wrap_s32 (hold mutex + 1)),
          RT_EOK).

(** [rt_mutex_release]. *)
Definition rt_mutex_release (mutex : rt_mutex) (k : kernel)
  : option (kernel * rt_mutex * Z) :=
  let thread := rt_thread_self k in
  if negb (owner_is mutex thread) then
    t ← deref k thread;
    Some (store thread (set_error (- RT_ERROR) t) k, mutex, - RT_ERROR)
  else
    let hold' := wrap_s32 (hold mutex - 1) in
    if hold' =? 0 then
      o ← owner mutex;
      to ← deref k o;
      k1 ← (if negb (init_priority to =? current_priority to) then
              fst <$> rt_thread_control RT_THREAD_PRIORITY_MAX o
                        RT_THREAD_CTRL_CHANGE_PRIORITY (init_priority to) k
            else Some k);
      '(k2, ipc) ← (if (mutex_value mutex <=? 0)
                        && (0 <? suspend_thread_count (mutex_parent mutex))
                    then rt_ipc_object_resume (mutex_parent mutex) k1
                    else Some (k1, mutex_parent mutex));
      Some (k2, mk_mutex ipc (wrap_s32 (mutex_value mutex + 1)) (owner mutex)
                  (original_priority mutex) hold',
            RT_EOK)
    else
      Some (k, mk_mutex (mutex_parent mutex) (mutex_value mutex) (owner mutex)
                 (original_priority mutex) hold',
            RT_EOK).

(** [n] calls of [rt_mutex_take] in a row by the running thread, every one
    returning [RT_EOK]; [None] as soon as a call does anything else. *)
Fixpoint mutex_take_n (n : nat) (mutex : rt_mutex) (time : Z) (k : kernel)
  : option (kernel * rt_mutex) :=
  match n with
  | O => Some (k, mutex)
  | S n' =>
      '(k1, mutex1, st) ← rt_mutex_take mutex time k;
      match st with
      | Returned err => if err =? RT_EOK then mutex_take_n n' mutex1 time k1 else None
      | Scheduled => None
      end
  end.

(** [n] calls of [rt_mutex_release] in a row by the running thread, every
    one returning [RT_EOK]. *)
Fixpoint mutex_release_n (n : nat) (mutex : rt_mutex) (k : kernel)
  : option (kernel * rt_mutex) :=
  match n with
  | O => Some (k, mutex)
  | S n' =>
      '(k1, mutex1, err) ← rt_mutex_release mutex k;
      if err =? RT_EOK then mutex_release_n n' mutex1 k1 else None
  end.

End Mutex.

(** *** Event *)

Record rt_event : Set := mk_event {
  event_parent : rt_ipc_object;
  set : Z
}.

Definition rt_event_init (flag : Z) : rt_event :=
  mk_event (mk_ipc (wrap_u8 flag) [] 0) 0.

(** The test [rt_event_send] makes on one suspended thread:
    [status == RT_EOK]. *)
Definition event_status (info eset cur : Z) : bool :=
  if c_true (Z.land info RT_EVENT_FLAG_AND) then Z.land eset cur =? eset
  else if c_true (Z.land info RT_EVENT_FLAG_OR) then c_true (Z.land eset cur)
  else false.

(** One turn of the [while] loop of [rt_event_send], at node [n] of
    [thread]. *)
Definition event_send_step (thread : tid) (st : kernel * rt_event)
  : option (kernel * rt_event) :=
  let '(k, event) := st in
  t ← deref k thread;
  if event_status (event_info t) (event_set t) (set event) then
    '(k1, wl, _) ← rt_thread_resume thread (suspend_thread (event_parent event)) k;
    t1 ← deref k1 thread;
    let count := wrap_u32 (suspend_thread_count (event_parent event) - 1) in
    let set' :=
      if c_true (Z.land (event_info t1) RT_EVENT_FLAG_CLEAR)
      then Z.land (set event) (wrap_u32 (Z.lnot (event_set t1)))
      else set event in
    Some (k1, mk_event (mk_ipc (flag (event_parent event)) wl count) set')
  else Some (k, event).

(** The [while] loop: [n] runs over the nodes that were linked in the
    suspend list when the loop started ([n = n->next] is taken before the
    thread at [n] is resumed and unlinked). *)
Fixpoint event_send_loop (ns : list tid) (st : kernel * rt_event)
  : option (kernel * rt_event) :=
  match ns with
  | [] => Some st
  | thread :: ns' => st' ← event_send_step thread st; event_send_loop ns' st'
  end.

(** [rt_event_send]. *)
Definition rt_event_send (event : rt_event) (set_ : Z) (k : kernel)
  : option (kernel * rt_event * Z) :=
  if set_ =? 0 then Some (k, event, - RT_ERROR)
  else
    let event1 := mk_event (event_parent event) (Z.lor (set event) set_) in
    '(k', event') ←
      (if 0 <? suspend_thread_count (event_parent event1)
       then event_send_loop (suspend_thread (event_parent event1)) (k, event1)
       else Some (k, event1));
    Some (k', event', RT_EOK).

(** *** Mailbox *)

Record rt_mailbox : Set := mk_mb {
  mb_parent : rt_ipc_object;
  msg_pool : list Z;
  size : Z;
  entry : Z;
  in_offset : Z;
  out_offset : Z
}.

Definition rt_mb_init (msgpool : list Z) (size flag : Z) : rt_mailbox :=
  mk_mb (mk_ipc (wrap_u8 flag) [] 0) msgpool (wrap_u32 size) 0 0 0.

(** [msg_pool[i] = v] and [msg_pool[i]]; out of the buffer they are
    undefined. *)
Definition pool_write (pool : list Z) (i v : Z) : option (list Z) :=
  if (0 <=? i) && (i <? Z.of_nat (length pool))
  then Some (<[Z.to_nat i := v]> pool) else None.

Definition pool_read (pool : list Z) (i : Z) : option Z :=
  if 0 <=? i then pool !! Z.to_nat i else None.

(** [x %= size] on unsigned words. *)
Definition c_umod (x size : Z) : option Z :=
  if size =? 0 then None else Some (x mod size).

(** [x / y] on unsigned words. *)
Definition c_udiv (x y : Z) : option Z :=
  if y =? 0 then None else Some (x / y).

(** [rt_mb_send]. *)
Definition rt_mb_send (mb : rt_mailbox) (value : Z) (k : kernel)
  : option (kernel * rt_mailbox * Z) :=
  if entry mb =? size mb then Some (k, mb, - RT_EFULL)
  else
    pool ← pool_write (msg_pool mb) (in_offset mb) (wrap_u32 value);
    in_off ← c_umod (wrap_u32 (in_offset mb + 1)) (size mb);
    let entry' := wrap_u32 (entry mb + 1) in
    '(k1, ipc) ← (if 0 <? suspend_thread_count (mb_parent mb)
                  then rt_ipc_object_resume (mb_parent mb) k
                  else Some (k, mb_parent mb));
    Some (k1, mk_mb ipc pool (size mb) entry' in_off (out_offset mb), RT_EOK).

(** The tail of [rt_mb_recv], from "fill ptr" on: the mail read into
    [*value], and the mailbox. *)
Definition mb_fetch (mb : rt_mailbox) : option (rt_mailbox * Z) :=
  value ← pool_read (msg_pool mb) (out_offset mb);
  out_off ← c_umod (wrap_u32 (out_offset mb + 1)) (size mb);
  Some (mk_mb (mb_parent mb) (msg_pool mb) (size mb) (wrap_u32 (entry mb - 1))
          (in_offset mb) out_off, value).

(** [rt_mb_recv] up to its return or its [rt_schedule()]; a received mail
    comes with [Returned RT_EOK]. *)
Definition rt_mb_recv (mb : rt_mailbox) (timeout : Z) (k : kernel)
  : option (kernel * rt_mailbox * call_status * option Z) :=
  if entry mb =? 0 then
    let thread := rt_thread_self k in
    t ← deref k thread;
    let k0 := store thread (set_error RT_EOK t) k in
    if timeout =? 0 then
      t0 ← deref k0 thread;
      Some (store thread (set_error (- RT_ETIMEOUT) t0) k0, mb,
            Returned (- RT_ETIMEOUT), None)
    else
      '(k1, ipc) ← rt_ipc_object_suspend (mb_parent mb) thread k0;
      k2 ← start_thread_timer thread timeout k1;
      Some (k2, mk_mb ipc (msg_pool mb) (size mb) (entry mb) (in_offset mb)
                  (out_offset mb), Scheduled, None)
  else
    '(mb', value) ← mb_fetch mb;
    Some (k, mb', Returned RT_EOK, Some value).

(** [rt_mb_recv] from the return of [rt_schedule()] on. *)
Definition rt_mb_recv_resumed (mb : rt_mailbox) (thread : tid) (k : kernel)
  : option (kernel * rt_mailbox * Z * option Z) :=
  t ← deref k thread;
  if negb (error t =? RT_EOK) then
    Some (k, mk_mb (rt_ipc_object_decrease (mb_parent mb)) (msg_pool mb) (size mb)
               (entry mb) (in_offset mb) (out_offset mb), error t, None)
  else
    '(mb', value) ← mb_fetch mb;
    Some (k, mb', RT_EOK, Some value).

(** The scenario "Mailbox FULL" of the specification: three sends, one
    receive and one more send on a mailbox; the error codes of the five
    calls, in their order, and the mail received. *)
Definition mb_full_scenario (mb : rt_mailbox) (v1 v2 v3 v4 timeout : Z) (k : kernel)
  : option (list Z * option Z) :=
  '(k1, mb1, e1) ← rt_mb_send mb v1 k;
  '(k2, mb2, e2) ← rt_mb_send mb1 v2 k1;
  '(k3, mb3, e3) ← rt_mb_send mb2 v3 k2;
  '(k4, mb4, st, mail) ← rt_mb_recv mb3 timeout k3;
  match st with
  | Returned e4 =>
      '(k5, mb5, e5) ← rt_mb_send mb4 v4 k4;
      Some ([e1; e2; e3; e4; e5], mail)
  | Scheduled => None
  end.

(** *** Message queue *)

(** A message cell: the header [struct rt_mq_message] and the [msg_size]
    bytes behind it ([msg + 1]).  A cell pointer is the index of the cell in
    the pool, [msg_pool + index * (msg_size + sizeof(struct rt_mq_message))];
    [None] is [RT_NULL]. *)
Record rt_mq_message : Set := mk_msg {
  next : option nat;
  payload : list Z
}.

Record rt_messagequeue : Set := mk_mq {
  mq_parent : rt_ipc_object;
  mq_pool : list rt_mq_message;
  msg_size : Z;
  max_msgs : Z;
  msg_queue_head : option nat;
  msg_queue_tail : option nat;
  msg_queue_free : option nat;
  mq_entry : Z
}.

(** Modelled from the spec: [RT_ALIGN] and [RT_ALIGN_SIZE] of rtdef.h and
    rtconfig.h are not among the sources; "msg_size rounded up to
    alignment", the alignment being the 4-byte word, which is also the size
    of the cell header. *)
Definition RT_ALIGN_SIZE : Z := 4.
Definition RT_ALIGN (size align : Z) : Z :=
  Z.land (size + align - 1) (wrap_u32 (Z.lnot (align - 1))).
Definition sizeof_rt_mq_message : Z := 4.

(** Modelled from the spec: [rt_memcpy dst src n] of kservice.c copies the
    first [n] bytes of [src] over those of [dst]; reading or writing past
    either buffer is undefined. *)
Definition rt_memcpy (dst src : list Z) (n : Z) : option (list Z) :=
  if (0 <=? n) && (n <=? Z.of_nat (length src)) && (n <=? Z.of_nat (length dst))
  then Some (take (Z.to_nat n) src ++ drop (Z.to_nat n) dst)
  else None.

Definition set_next (p : option nat) (msg : nat) (pool : list rt_mq_message)
  : option (list rt_mq_message) :=
  m ← pool !! msg;
  Some (<[msg := mk_msg p (payload m)]> pool).

Definition ptr_eqb (a b : option nat) : bool :=
  match a, b with
  | Some x, Some y => Nat.eqb x y
  | None, None => true
  | _, _ => false
  end.

(** The loop of [rt_mq_init] that threads the cells [temp], ...,
    [max_msgs - 1] onto the free list. *)
Fixpoint mq_init_free (todo : nat) (temp : nat) (pool : list rt_mq_message)
  (free : option nat) : option (list rt_mq_message * option nat) :=
  match todo with
  | O => Some (pool, free)
  | S todo' =>
      pool' ← set_next free temp pool;
      mq_init_free todo' (S temp) pool' (Some temp)
  end.

(** [rt_mq_init]; [msgpool] is the caller's buffer, seen as cells. *)
Definition rt_mq_init (msgpool : list rt_mq_message) (msg_size pool_size flag : Z)
  : option rt_messagequeue :=
  let msg_size' := wrap_u32 (RT_ALIGN (wrap_u32 msg_size) RT_ALIGN_SIZE) in
  max ← c_udiv (wrap_u32 pool_size) (wrap_u32 (msg_size' + sizeof_rt_mq_message));
  '(pool, free) ← mq_init_free (Z.to_nat max) 0 msgpool None;
  Some (mk_mq (mk_ipc (wrap_u8 flag) [] 0) pool msg_size' max None None free 0).

(** "resume suspended thread": the end of [rt_mq_send], [rt_mq_urgent]. *)
Definition mq_wake (ipc : rt_ipc_object) (k : kernel) : option (kernel * rt_ipc_object) :=
  if 0 <? suspend_thread_count ipc then rt_ipc_object_resume ipc k
  else Some (k, ipc).

(** [rt_mq_send]. *)
Definition rt_mq_send (mq : rt_messagequeue) (buffer : list Z) (size : Z) (k : kernel)
  : option (kernel * rt_messagequeue * Z) :=
  if msg_size mq <? size then Some (k, mq, - RT_ERROR)
  else
    match msg_queue_free mq with
    | None => Some (k, mq, - RT_EFULL)
    | Some msg =>
        m ← mq_pool mq !! msg;
        let free := next m in
        data ← rt_memcpy (payload m) buffer size;
        let pool1 := <[msg := mk_msg (next m) data]> (mq_pool mq) in
        pool2 ← match msg_queue_tail mq with
                | Some tail => set_next (Some msg) tail pool1
                | None => Some pool1
                end;
        pool3 ← set_next None msg pool2;
        let head := match msg_queue_head mq with
                    | None => Some msg
                    | Some h => Some h
                    end in
        '(k1, ipc) ← mq_wake (mq_parent mq) k;
        Some (k1, mk_mq ipc pool3 (msg_size mq) (max_msgs mq) head (Some msg) free
                    (wrap_u32 (mq_entry mq + 1)),
              RT_EOK)
    end.

(** [rt_mq_urgent]. *)
Definition rt_mq_urgent (mq : rt_messagequeue) (buffer : list Z) (size : Z) (k : kernel)
  : option (kernel * rt_messagequeue * Z) :=
  if msg_size mq <? size then Some (k, mq, - RT_ERROR)
  else
    match msg_queue_free mq with
    | None => Some (k, mq, - RT_EFULL)
    | Some msg =>
        m ← mq_pool mq !! msg;
        let free := next m in
        data ← rt_memcpy (payload m) buffer size;
        let pool1 := <[msg := mk_msg (msg_queue_head mq) data]> (mq_pool mq) in
        let tail := match msg_queue_tail mq with
                    | None => Some msg
                    | Some t => Some t
                    end in
        '(k1, ipc) ← mq_wake (mq_parent mq) k;
        Some (k1, mk_mq ipc pool1 (msg_size mq) (max_msgs mq) (Some msg) tail free
                    (wrap_u32 (mq_entry mq + 1)),
              RT_EOK)
    end.

(** The tail of [rt_mq_recv], from "get message from queue" on: the queue
    and the caller's buffer after the copy. *)
Definition mq_fetch (mq : rt_messagequeue) (buffer : list Z) (size : Z)
  : option (rt_messagequeue * list Z) :=
  msg ← msg_queue_head mq;
  m ← mq_pool mq !! msg;
  let head := next m in
  let tail := if ptr_eqb (msg_queue_tail mq) (Some msg) then None
              else msg_queue_tail mq in
  buffer' ← rt_memcpy buffer (payload m)
              (if msg_size mq <? size then msg_size mq else size);
  pool ← set_next (msg_queue_free mq) msg (mq_pool mq);
  Some (mk_mq (mq_parent mq) pool (msg_size mq) (max_msgs mq) head tail (Some msg)
          (wrap_u32 (mq_entry mq - 1)), buffer').

(** [rt_mq_recv] up to its return or its [rt_schedule()]. *)
Definition rt_mq_recv (mq : rt_messagequeue) (buffer : list Z) (size timeout : Z)
  (k : kernel) : option (kernel * rt_messagequeue * call_status * list Z) :=
  if mq_entry mq =? 0 then
    let thread := rt_thread_self k in
    t ← deref k thread;
    let k0 := store thread (set_error RT_EOK t) k in
    if timeout =? 0 then
      t0 ← deref k0 thread;
      Some (store thread (set_error (- RT_ETIMEOUT) t0) k0, mq,
            Returned (- RT_ETIMEOUT), buffer)
    else
      '(k1, ipc) ← rt_ipc_object_suspend (mq_parent mq) thread k0;
      k2 ← start_thread_timer thread timeout k1;
      Some (k2, mk_mq ipc (mq_pool mq) (msg_size mq) (max_msgs mq) (msg_queue_head mq)
                  (msg_queue_tail mq) (msg_queue_free mq) (mq_entry mq),
            Scheduled, buffer)
  else
    '(mq', buffer') ← mq_fetch mq buffer size;
    Some (k, mq', Returned RT_EOK, buffer').

(** [rt_mq_recv] from the return of [rt_schedule()] on. *)
Definition rt_mq_recv_resumed (mq : rt_messagequeue) (buffer : list Z) (size : Z)
  (thread : tid) (k : kernel) : option (kernel * rt_messagequeue * Z * list Z) :=
  t ← deref k thread;
  if negb (error t =? RT_EOK) then
    Some (k, mk_mq (rt_ipc_object_decrease (mq_parent mq)) (mq_pool mq) (msg_size mq)
               (max_msgs mq) (msg_queue_head mq) (msg_queue_tail mq)
               (msg_queue_free mq) (mq_entry mq),
          error t, buffer)
  else
    '(mq', buffer') ← mq_fetch mq buffer size;
    Some (k, mq', RT_EOK, buffer').

(** ** Further thread operations (thread.c) *)

(** Modelled from the spec: [timer_init(t, name, callback, arg, ticks,
    flag)] of the timer interface sets up a stopped timer with the timeout
    [ticks]. *)
Definition rt_timer_init (time : Z) : rt_timer := mk_timer false time.

(** [rt_list_insert_after l n] of kservice.h links node [n] behind node
    [l]; the calls of the sources pass the list head for [l], behind which
    is the front of the list. *)
Definition rt_list_insert_after (l : list tid) (n : tid) : list tid := n :: l.

Section ThreadLifecycle.

Variable RT_THREAD_PRIORITY_MAX : Z.

(** [_rt_thread_init], on the fields of the thread object kept here;
    [thread] points to the memory of the object, whose node is linked in no
    list.  The fields the function does not write keep what the memory
    holds. *)
Definition _rt_thread_init (thread : tid) (priority : Z) (k : kernel)
  : option (kernel * Z) :=
  t ← deref k thread;
  if negb (priority <? RT_THREAD_PRIORITY_MAX) then None
  else
    Some (store thread
            (mk_thread priority priority (number t) (number_mask t) (high_mask t)
               RT_THREAD_INIT RT_EOK (event_set t) (event_info t) (rt_timer_init 0))
            k,
          RT_EOK).

(** [rt_thread_init]; the object registry is not kept here. *)
Definition rt_thread_init (thread : tid) (priority : Z) (k : kernel)
  : option (kernel * Z) :=
  _rt_thread_init thread priority k.

End ThreadLifecycle.

(** [rt_thread_detach]. *)
Definition rt_thread_detach (thread : tid) (k : kernel) : option (kernel * Z) :=
  k1 ← rt_schedule_remove_thread thread k;
  t ← deref k1 thread;
  Some (store thread (set_thread_timer (rt_timer_detach (thread_timer t)) t) k1, RT_EOK).

(** [rt_thread_exit] up to its [rt_schedule()], from which the thread does
    not come back; [is_systemobject] is the answer of the object registry
    to [rt_object_is_systemobject]. *)
Definition rt_thread_exit (is_systemobject : bool) (k : kernel) : option kernel :=
  let thread := rt_current_thread k in
  k1 ← rt_schedule_remove_thread thread k;
  t ← deref k1 thread;
  let t1 := set_thread_timer (rt_timer_detach (thread_timer t))
              (set_stat RT_THREAD_CLOSE t) in
  let k2 := store thread t1 k1 in
  if is_systemobject then Some k2
  else Some (set_defunct (rt_list_insert_after (rt_thread_defunct k2) thread) k2).

(** The ready queue [rt_thread_priority_table[p]]: the threads of the
    ready table whose priority is [p]. *)
Definition same_priority (k : kernel) (p : Z) (i : tid) : bool :=
  match deref k i with
  | Some t => current_priority t =? p
  | None => false
  end.

Definition ready_queue (k : kernel) (p : Z) : list tid :=
  filter (fun i => Is_true (same_priority k p i)) (rt_thread_priority_table k).

(** [rt_thread_yield].  The node of a READY thread is linked in the ready
    queue of its priority, where [tlist.next == tlist.prev] (both the queue
    head) exactly when the thread is alone in the queue. *)
Definition rt_thread_yield (k : kernel) : option (kernel * Z) :=
  let thread := rt_current_thread k in
  t ← deref k thread;
  if thread_stat_eqb (stat t) RT_THREAD_READY
     && negb (bool_decide (ready_queue k (current_priority t) = [thread]))
  then
    Some (set_ready
            (rt_list_insert_before (rt_list_remove thread (rt_thread_priority_table k))
               None thread) k,
          RT_EOK)
  else Some (k, RT_EOK).

(** [rt_thread_sleep] up to its [rt_schedule()]; the result of
    [rt_thread_suspend] is dropped and the timer is started in every
    case. *)
Definition rt_thread_sleep (tick : Z) (k : kernel) : option (kernel * call_status) :=
  let thread := rt_current_thread k in
  '(k1, _) ← rt_thread_suspend thread k;
  t ← deref k1 thread;
  Some (store thread
          (set_thread_timer
             (rt_timer_start (rt_timer_control_set_time tick (thread_timer t))) t) k1,
        Scheduled).

(** [rt_thread_sleep] from the return of [rt_schedule()] on. *)
Definition rt_thread_sleep_resumed (k : kernel) : kernel * Z := (k, RT_EOK).

Definition rt_thread_delay (tick : Z) (k : kernel) : option (kernel * call_status) :=
  rt_thread_sleep tick k.

(** ** Further IPC operations (ipc.c) *)

(** [rt_ipc_object_resume_all].  The [while] loop runs as long as the
    suspend list is not empty; [fuel] bounds the number of its turns, and
    the result is [None] when the loop has not ended within them, as it is
    for undefined behaviour. *)
Fixpoint rt_ipc_object_resume_all (fuel : nat) (ipc : rt_ipc_object) (k : kernel)
  {struct fuel} : option (kernel * rt_ipc_object) :=
  match suspend_thread ipc with
  | [] => Some (k, ipc)
  | thread :: _ =>
      match fuel with
      | O => None
      | S fuel' =>
          t ← deref k thread;
          '(k1, wl, _) ← rt_thread_resume thread (suspend_thread ipc)
                           (store thread (set_error (- RT_ERROR) t) k);
          rt_ipc_object_resume_all fuel'
            (mk_ipc (flag ipc) wl (wrap_u32 (suspend_thread_count ipc - 1))) k1
      end
  end.

(** [rt_sem_detach], [rt_mutex_detach], [rt_event_detach], [rt_mb_detach]
    and [rt_mq_detach]; the object registry is not kept here. *)
Definition rt_sem_detach (fuel : nat) (sem : rt_semaphore) (k : kernel)
  : option (kernel * rt_semaphore * Z) :=
  '(k', ipc) ← rt_ipc_object_resume_all fuel (sem_parent sem) k;
  Some (k', mk_sem ipc (sem_value sem), RT_EOK).

Definition rt_mutex_detach (fuel : nat) (mutex : rt_mutex) (k : kernel)
  : option (kernel * rt_mutex * Z) :=
  '(k', ipc) ← rt_ipc_object_resume_all fuel (mutex_parent mutex) k;
  Some (k', mk_mutex ipc (mutex_value mutex) (owner mutex) (original_priority mutex)
              (hold mutex), RT_EOK).

Definition rt_event_detach (fuel : nat) (event : rt_event) (k : kernel)
  : option (kernel * rt_event * Z) :=
  '(k', ipc) ← rt_ipc_object_resume_all fuel (event_parent event) k;
  Some (k', mk_event ipc (set event), RT_EOK).

Definition rt_mb_detach (fuel : nat) (mb : rt_mailbox) (k : kernel)
  : option (kernel * rt_mailbox * Z) :=
  '(k', ipc) ← rt_ipc_object_resume_all fuel (mb_parent mb) k;
  Some (k', mk_mb ipc (msg_pool mb) (size mb) (entry mb) (in_offset mb) (out_offset mb),
        RT_EOK).

Definition rt_mq_detach (fuel : nat) (mq : rt_messagequeue) (k : kernel)
  : option (kernel * rt_messagequeue * Z) :=
  '(k', ipc) ← rt_ipc_object_resume_all fuel (mq_parent mq) k;
  Some (k', mk_mq ipc (mq_pool mq) (msg_size mq) (max_msgs mq) (msg_queue_head mq)
              (msg_queue_tail mq) (msg_queue_free mq) (mq_entry mq), RT_EOK).

(** *** Event: receiving *)

(** "check event set" of [rt_event_recv]: [status == RT_EOK]. *)
Definition event_recv_status (option_ set_ cur : Z) : bool :=
  if c_true (Z.land option_ RT_EVENT_FLAG_AND) then Z.land cur set_ =? set_
  else if c_true (Z.land option_ RT_EVENT_FLAG_OR) then c_true (Z.land cur set_)
  else false.

(** [rt_event_recv] up to its return or its [rt_schedule()]; the last
    component is the word written to [*recved], if one is. *)
Definition rt_event_recv (event : rt_event) (set_ option_ timeout : Z) (k : kernel)
  : option (kernel * rt_event * call_status * option Z) :=
  if set_ =? 0 then Some (k, event, Returned (- RT_ERROR), None)
  else
    let thread := rt_thread_self k in
    t ← deref k thread;
    let k0 := store thread (set_error RT_EOK t) k in
    if event_recv_status option_ set_ (set event) then
      let recved := set event in
      let set' := if c_true (Z.land option_ RT_EVENT_FLAG_CLEAR)
                  then Z.land (set event) (wrap_u32 (Z.lnot set_))
                  else set event in
      t0 ← deref k0 thread;
      Some (k0, mk_event (event_parent event) set', Returned (error t0), Some recved)
    else if timeout =? 0 then
      t0 ← deref k0 thread;
      let k1 := store thread (set_error (- RT_ETIMEOUT) t0) k0 in
      t1 ← deref k1 thread;
      Some (k1, event, Returned (error t1), None)
    else
      t0 ← deref k0 thread;
      let k1 := store thread (set_event set_ option_ t0) k0 in
      '(k2, ipc) ← rt_ipc_object_suspend (event_parent event) thread k1;
      k3 ← start_thread_timer thread timeout k2;
      Some (k3, mk_event ipc (set event), Scheduled, None).

(** [rt_event_recv] from the return of [rt_schedule()] on. *)
Definition rt_event_recv_resumed (event : rt_event) (thread : tid) (k : kernel)
  : option (kernel * rt_event * Z * option Z) :=
  t ← deref k thread;
  if negb (error t =? RT_EOK) then
    Some (k, mk_event (rt_ipc_object_decrease (event_parent event)) (set event),
          error t, None)
  else Some (k, event, error t, Some (set event)).

(** *** Fast event ([RT_USING_FASTEVENT]) *)

(** Modelled from the spec: the compact event flags have "wait_list[32] —
    one per bit"; [RT_EVENT_LENGTH] of rtdef.h is the number of bits. *)
Definition RT_EVENT_LENGTH : Z := 32.

(** [fast_flag] is [parent.flag] and [fast_set] is [set]. *)
Record rt_fast_event : Set := mk_fast_event {
  fast_flag : Z;
  fast_set : Z;
  thread_list : list (list tid)
}.

Definition rt_fast_event_init (flag : Z) : rt_fast_event :=
  mk_fast_event (wrap_u8 flag) 0 (replicate 32 []).

(** One turn of the [while] loop of [rt_fast_event_send], at the node of
    [thread]. *)
Definition fast_event_send_step (bit : nat) (offset : Z) (thread : tid)
  (st : kernel * rt_fast_event) : option (kernel * rt_fast_event) :=
  let '(k, event) := st in
  t ← deref k thread;
  let set' := if c_true (Z.land (event_info t) RT_EVENT_FLAG_CLEAR)
              then Z.land (fast_set event) (wrap_u32 (Z.lnot offset))
              else fast_set event in
  wl ← thread_list event !! bit;
  '(k1, wl', _) ← rt_thread_resume thread wl k;
  Some (k1, mk_fast_event (fast_flag event) set' (<[bit := wl']> (thread_list event))).

(** The [while] loop: [n] runs over the nodes that were linked in
    [thread_list[bit]] when the loop started. *)
Fixpoint fast_event_send_loop (bit : nat) (offset : Z) (ns : list tid)
  (st : kernel * rt_fast_event) : option (kernel * rt_fast_event) :=
  match ns with
  | [] => Some st
  | thread :: ns' =>
      st' ← fast_event_send_step bit offset thread st;
      fast_event_send_loop bit offset ns' st'
  end.

(** [rt_fast_event_send]; [offset = 1 << bit] is a 32-bit word. *)
Definition rt_fast_event_send (event : rt_fast_event) (bit : Z) (k : kernel)
  : option (kernel * rt_fast_event * Z) :=
  if negb (bit <? RT_EVENT_LENGTH) then None
  else
    let offset := wrap_u32 (Z.shiftl 1 bit) in
    let event1 := mk_fast_event (fast_flag event) (Z.lor (fast_set event) offset)
                    (thread_list event) in
    ns ← thread_list event1 !! Z.to_nat bit;
    '(k', event') ← fast_event_send_loop (Z.to_nat bit) offset ns (k, event1);
    Some (k', event', RT_EOK).

(** [rt_fast_event_recv].  The function has no [rt_schedule()]: in the
    waiting case it returns [thread->error] right after it has suspended
    and queued the thread. *)
Definition rt_fast_event_recv (event : rt_fast_event) (bit option_ timeout : Z)
  (k : kernel) : option (kernel * rt_fast_event * Z) :=
  if negb (bit <? RT_EVENT_LENGTH) then None
  else
    let offset := wrap_u32 (Z.shiftl 1 bit) in
    let thread := rt_thread_self k in
    t ← deref k thread;
    let k0 := store thread (set_error RT_EOK t) k in
    if c_true (Z.land (fast_set event) offset) then
      let set' := if c_true (Z.land option_ RT_EVENT_FLAG_CLEAR)
                  then Z.land (fast_set event) (wrap_u32 (Z.lnot offset))
                  else fast_set event in
      Some (k0, mk_fast_event (fast_flag event) set' (thread_list event), RT_EOK)
    else
      '(k3, event') ←
        (if timeout =? 0 then
           t0 ← deref k0 thread;
           Some (store thread (set_error (- RT_ETIMEOUT) t0) k0, event)
         else
           '(k1, _) ← rt_thread_suspend thread k0;
           t1 ← deref k1 thread;
           let k2 := store thread (set_event (event_set t1) option_ t1) k1 in
           wl ← thread_list event !! Z.to_nat bit;
           wl' ← (if fast_flag event =? RT_IPC_FLAG_FIFO then
                    Some (rt_list_insert_after wl thread)
                  else if fast_flag event =? RT_IPC_FLAG_PRIO then
                    t2 ← deref k2 thread;
                    n ← find_position k2 (current_priority t2) wl 0;
                    Some (rt_list_insert_before wl None thread)
                  else Some wl);
           k3 ← start_thread_timer thread timeout k2;
           Some (k3, mk_fast_event (fast_flag event) (fast_set event)
                       (<[Z.to_nat bit := wl']> (thread_list event))));
      t3 ← deref k3 thread;
      Some (k3, event', error t3).

(** ** States of the scenarios *)

(** A thread object with the given priorities and state, no error, no
    pending event, timer stopped. *)
Definition thread_at (init cur : Z) (s : thread_stat) : rt_thread :=
  mk_thread init cur 0 0 0 s RT_EOK 0 0 (mk_timer false 0).

(** Thread 0 (priority 10) already waits on a PRIO object; thread 1
    (priority 5) runs. *)
Definition prio_kernel : kernel :=
  mk_kernel [thread_at 10 10 RT_THREAD_SUSPEND; thread_at 5 5 RT_THREAD_READY]
    1%nat [1%nat] [].

(** One thread of priority 20, running. *)
Definition solo_kernel : kernel :=
  mk_kernel [thread_at 20 20 RT_THREAD_READY] 0%nat [0%nat] [].

(** Thread 0 (priority 20) and thread 1 (priority 5), both ready; thread
    0 runs. *)
Definition low_high_kernel : kernel :=
  mk_kernel [thread_at 20 20 RT_THREAD_READY; thread_at 5 5 RT_THREAD_READY]
    0%nat [0%nat; 1%nat] [].

(** The mutex thread 0 holds once. *)
Definition held_mutex : rt_mutex :=
  mk_mutex (mk_ipc RT_IPC_FLAG_PRIO [] 0) 0 (Some 0%nat) 20 1.

(** The kernel and the mutex when thread 1 waits for the mutex thread 0
    holds with the inherited priority 5, and thread 0 runs. *)
Definition boosted_kernel : kernel :=
  mk_kernel [thread_at 20 5 RT_THREAD_READY; thread_at 5 5 RT_THREAD_SUSPEND]
    0%nat [0%nat] [].

Definition contended_mutex : rt_mutex :=
  mk_mutex (mk_ipc RT_IPC_FLAG_PRIO [1%nat] 1) (-1) (Some 0%nat) 20 1.

(** Thread 0 waits for the events 0b0011 with AND and CLEAR; thread 1
    runs.  The event object holds the event 0b0001. *)
Definition event_kernel : kernel :=
  mk_kernel
    [mk_thread 10 10 0 0 0 RT_THREAD_SUSPEND RT_EOK 3
       (Z.lor RT_EVENT_FLAG_AND RT_EVENT_FLAG_CLEAR) (mk_timer false 0);
     thread_at 20 20 RT_THREAD_READY]
    1%nat [1%nat] [].

Definition event_0001 : rt_event := mk_event (mk_ipc RT_IPC_FLAG_FIFO [0%nat] 1) 1.

(** A message queue of two cells of four bytes; cell 1 holds the one live
    message, cell 0 is free. *)
Definition mq_one_live : rt_messagequeue :=
  mk_mq (mk_ipc RT_IPC_FLAG_FIFO [] 0)
    [mk_msg None [0; 0; 0; 0]; mk_msg None [1; 2; 3; 4]]
    4 2 (Some 1%nat) (Some 1%nat) (Some 0%nat) 1.

(** A caller's buffer of two cells of four bytes for [rt_mq_init], and a
    receive buffer of four bytes. *)
Definition two_cells : list rt_mq_message :=
  [mk_msg None [0; 0; 0; 0]; mk_msg None [0; 0; 0; 0]].

Definition four_bytes : list Z := [0; 0; 0; 0].

Definition prio_ipc : rt_ipc_object := mk_ipc RT_IPC_FLAG_PRIO [0%nat] 1.

(** ** Predicates of the specification *)

(** What the scheduler and wait-queue operations leave alone in a thread
    object: its priorities and its event request. *)
Definition sched_only (t t' : rt_thread) : Prop :=
  init_priority t' = init_priority t /\
  current_priority t' = current_priority t /\
  event_set t' = event_set t /\
  event_info t' = event_info t.

Definition kernel_frame (k k' : kernel) : Prop :=
  rt_current_thread k' = rt_current_thread k /\
  Forall2 sched_only (threads k) (threads k').

(** Every node of the suspend list is the node of a thread object. *)
Definition waiters_valid (k : kernel) (ipc : rt_ipc_object) : Prop :=
  Forall (fun w => is_Some (deref k w)) (suspend_thread ipc).

(** A wake-up finds a thread to resume: a positive count comes with a
    linked node. *)
Definition wait_queue_ok (k : kernel) (ipc : rt_ipc_object) : Prop :=
  waiters_valid k ipc /\
  (0 < suspend_thread_count ipc -> suspend_thread ipc <> []).

(** *** The event scan in the words of the specification *)

(** A waiter is in AND mode when its [event_info] carries AND, in OR mode
    when it carries OR and not AND. *)
Definition and_mode (info : Z) : Prop := Z.land info RT_EVENT_FLAG_AND <> 0.
Definition or_mode (info : Z) : Prop :=
  Z.land info RT_EVENT_FLAG_AND = 0 /\ Z.land info RT_EVENT_FLAG_OR <> 0.

(** "satisfied = (AND mode: (waiter.event_set & ev.set) == waiter.event_set)
    or (OR mode: (waiter.event_set & ev.set) != 0)". *)
Definition satisfied (info eset cur : Z) : Prop :=
  (and_mode info /\ Z.land eset cur = eset) \/
  (or_mode info /\ Z.land eset cur <> 0).

(** "if its event_info carries CLEAR, clear waiter.event_set bits from
    ev.set". *)
Definition cleared (info eset cur : Z) : Z :=
  if decide (Z.land info RT_EVENT_FLAG_CLEAR = 0) then cur else Z.ldiff cur eset.

(** [event_scan k cur ws woken kept cur']: the walk over the waiters [ws]
    with the event set [cur] wakes the waiters [woken], leaves the waiters
    [kept] suspended, and ends with the event set [cur']. *)
Inductive event_scan (k : kernel) : Z -> list tid -> list tid -> list tid -> Z -> Prop :=
  | scan_end cur : event_scan k cur [] [] [] cur
  | scan_wake cur w t ws woken kept cur' :
      deref k w = Some t ->
      satisfied (event_info t) (event_set t) cur ->
      event_scan k (cleared (event_info t) (event_set t) cur) ws woken kept cur' ->
      event_scan k cur (w :: ws) (w :: woken) kept cur'
  | scan_keep cur w t ws woken kept cur' :
      deref k w = Some t ->
      ~ satisfied (event_info t) (event_set t) cur ->
      event_scan k cur ws woken kept cur' ->
      event_scan k cur (w :: ws) woken (w :: kept) cur'.

(** Every thread of the list is a suspended thread object. *)
Definition all_suspended (k : kernel) (ws : list tid) : Prop :=
  Forall (fun w => exists t, deref k w = Some t /\ stat t = RT_THREAD_SUSPEND) ws.

(** The invariant of the specification on a wait queue:
    "wait_count == length(wait_list); every enqueued thread has
    state == SUSPEND"; a node is linked once. *)
Definition wait_queue_inv (k : kernel) (ipc : rt_ipc_object) : Prop :=
  suspend_thread_count ipc = Z.of_nat (length (suspend_thread ipc)) /\
  is_u32 (suspend_thread_count ipc) /\
  NoDup (suspend_thread ipc) /\
  all_suspended k (suspend_thread ipc).

(** The invariant of the specification on a mailbox: "0 <= entry <= size;
    in_off, out_off in [0, size)", the pool holding [size] mails. *)
Definition mb_inv (mb : rt_mailbox) : Prop :=
  is_u32 (size mb) /\
  length (msg_pool mb) = Z.to_nat (size mb) /\
  0 <= entry mb <= size mb /\
  0 <= in_offset mb /\ (0 < size mb -> in_offset mb < size mb) /\
  0 <= out_offset mb /\ (0 < size mb -> out_offset mb < size mb).

(** *** The invariant of the message queue *)

(** [lseg pool p l r]: the [next] pointers lead from [p] through the cells
    [l], in this order, to [r]. *)
Fixpoint lseg (pool : list rt_mq_message) (p : option nat) (l : list nat)
  (r : option nat) : Prop :=
  match l with
  | [] => p = r
  | a :: l' => p = Some a /\ exists m, pool !! a = Some m /\ lseg pool (next m) l' r
  end.

(** A list that ends at [RT_NULL]. *)
Definition linked (pool : list rt_mq_message) (p : option nat) (l : list nat) : Prop :=
  lseg pool p l None.

(** [mq_lists mq fl q]: [fl] is the free list and [q] the FIFO of live
    messages of [mq], [msg_queue_tail] pointing at the last live message. *)
Definition mq_lists (mq : rt_messagequeue) (fl q : list nat) : Prop :=
  linked (mq_pool mq) (msg_queue_free mq) fl /\
  linked (mq_pool mq) (msg_queue_head mq) q /\
  msg_queue_tail mq = last q.

(** The invariant: the cells [0 .. max_msgs - 1] are, each once, the cells
    of the free list and of the FIFO together; [entry] counts the FIFO; a
    cell holds [msg_size] bytes. *)
Definition mq_inv (mq : rt_messagequeue) : Prop :=
  exists fl q,
    mq_lists mq fl q /\
    fl ++ q ≡ₚ seq 0 (Z.to_nat (max_msgs mq)) /\
    mq_entry mq = Z.of_nat (length q) /\
    is_u32 (max_msgs mq) /\
    Forall (fun m => Z.of_nat (length (payload m)) = msg_size mq) (mq_pool mq).

(** ** Further predicates *)

(** The invariant of the specification on the ready table: "stat == READY
    iff the node is in the ready table"; a node is linked once. *)
Definition ready_inv (k : kernel) : Prop :=
  NoDup (rt_thread_priority_table k) /\
  forall i, i ∈ rt_thread_priority_table k <->
            exists t, deref k i = Some t /\ stat t = RT_THREAD_READY.

(** The invariant as a test on a given state. *)
Definition ready_check (k : kernel) : bool :=
  bool_decide (NoDup (rt_thread_priority_table k)) &&
  forallb (fun i => (i <? length (threads k))%nat) (rt_thread_priority_table k) &&
  forallb (fun i => match deref k i with
                    | Some t => Bool.eqb (thread_stat_eqb (stat t) RT_THREAD_READY)
                                  (bool_decide (i ∈ rt_thread_priority_table k))
                    | None => true
                    end) (seq 0 (length (threads k))).

(** The mails of a mailbox, oldest first: the [entry] words of the ring
    from [out_offset] on. *)
Definition mb_mails (mb : rt_mailbox) : list Z :=
  (fun i => nth (Z.to_nat ((out_offset mb + Z.of_nat i) mod size mb)) (msg_pool mb) 0)
    <$> seq 0 (Z.to_nat (entry mb)).

(** The mailbox invariant with the relation of the two offsets. *)
Definition mb_ring (mb : rt_mailbox) : Prop :=
  mb_inv mb /\ in_offset mb = (out_offset mb + entry mb) mod size mb.

(** The bytes of the cells [q], in this order. *)
Definition mq_payloads (pool : list rt_mq_message) (q : list nat) : list (list Z) :=
  (fun c => match pool !! c with
            | Some m => payload m
            | None => []
            end) <$> q.

(** [mq_fifo mq ms]: the message queue satisfies its invariant and holds
    the messages [ms], oldest first. *)
Definition mq_fifo (mq : rt_messagequeue) (ms : list (list Z)) : Prop :=
  exists fl q,
    mq_lists mq fl q /\
    fl ++ q ≡ₚ seq 0 (Z.to_nat (max_msgs mq)) /\
    mq_entry mq = Z.of_nat (length q) /\
    is_u32 (max_msgs mq) /\
    Forall (fun m => Z.of_nat (length (payload m)) = msg_size mq) (mq_pool mq) /\
    ms = mq_payloads (mq_pool mq) q.

(** * Properties *)

(** ** Machine words *)

Lemma wrap_u32_id x : is_u32 x -> wrap_u32 x = x.
Proof. unfold is_u32, wrap_u32. intros H. apply Z.mod_small. lia. Qed.

Lemma wrap_s32_id x : is_s32 x -> wrap_s32 x = x.
Proof.
  unfold is_s32, wrap_s32. intros H.
  rewrite Z.mod_small by lia. lia.
Qed.

Lemma wrap_u32_range x : is_u32 (wrap_u32 x).
Proof. unfold is_u32, wrap_u32. apply Z.mod_pos_bound. lia. Qed.

Lemma wrap_u32_succ_pred x : is_u32 x -> wrap_u32 (wrap_u32 (x + 1) - 1) = x.
Proof.
  unfold is_u32, wrap_u32. intros H.
  rewrite Zminus_mod_idemp_l. replace (x + 1 - 1) with x by lia.
  apply Z.mod_small. lia.
Qed.

(** ** C1: the PRIO wait queue *)

(** In every state, blocking on a PRIO object links the thread at the tail
    of the suspend list, exactly as on a FIFO object: the position the
    search loop found is not used. *)
Lemma rt_ipc_object_suspend_prio_appends ipc thread k k' ipc' :
  flag ipc = RT_IPC_FLAG_PRIO ->
  rt_ipc_object_suspend ipc thread k = Some (k', ipc') ->
  suspend_thread ipc' = suspend_thread ipc ++ [thread].
Proof.
  intros Hf H. unfold rt_ipc_object_suspend in H. rewrite Hf in H.
  simplify_option_eq. destruct (rt_thread_suspend thread k) as [[k1 e]|] eqn:E; [|done].
  simpl in H. simplify_option_eq. reflexivity.
Qed.

(** C1 (failing input).  A thread of priority 10 waits on a PRIO object and
    a thread of priority 5 blocks on it.  The search loop of
    [rt_ipc_object_suspend] stops at position 0, in front of the waiter of
    priority 10, yet the new thread is linked behind it: the queue is
    [10, 5], not ordered by priority, and the single wake-up resumes the
    thread of priority 10 while the thread of priority 5 keeps waiting. *)
Theorem rt_ipc_object_suspend_prio_not_ordered :
  exists k' ipc' k'' ipc'' t0 t1,
    rt_ipc_object_suspend prio_ipc 1%nat prio_kernel = Some (k', ipc') /\
    find_position k' 5 (suspend_thread prio_ipc) 0 = Some (Some 0%nat) /\
    suspend_thread ipc' = [0%nat; 1%nat] /\
    deref k' 0%nat = Some t0 /\ current_priority t0 = 10 /\
    deref k' 1%nat = Some t1 /\ current_priority t1 = 5 /\
    rt_ipc_object_resume ipc' k' = Some (k'', ipc'') /\
    (stat <$> deref k'' 0%nat) = Some RT_THREAD_READY /\
    (stat <$> deref k'' 1%nat) = Some RT_THREAD_SUSPEND /\
    suspend_thread ipc'' = [1%nat].
Proof.
  do 6 eexists. repeat split; try (vm_compute; reflexivity).
Qed.

(** ** The table of thread objects *)

Lemma deref_set_ready r k i : deref (set_ready r k) i = deref k i.
Proof. reflexivity. Qed.

Lemma deref_store_eq k i t :
  is_Some (deref k i) -> deref (store i t k) i = Some t.
Proof.
  unfold deref, store. simpl. intros H.
  apply list_lookup_insert_eq. by apply lookup_lt_is_Some.
Qed.

Lemma deref_store_ne k i j t : i <> j -> deref (store i t k) j = deref k j.
Proof. unfold deref, store. simpl. intros H. by apply list_lookup_insert_ne. Qed.

Lemma deref_store_is_Some k i j t :
  is_Some (deref k j) -> is_Some (deref (store i t k) j).
Proof.
  unfold deref, store. simpl. rewrite !lookup_lt_is_Some, length_insert. done.
Qed.

(** A thread object stays a thread object under stores and changes of the
    ready table. *)
Ltac deref_is_Some :=
  repeat first [rewrite deref_set_ready | apply deref_store_is_Some]; eauto.

Lemma rt_list_remove_not_in n l : n ∉ rt_list_remove n l.
Proof.
  induction l as [|x l IH]; simpl.
  - apply not_elem_of_nil.
  - unfold tid_eqb. destruct (Nat.eqb_spec x n) as [->|Hne]; [done|].
    rewrite elem_of_cons. intros [->|H]; [done|by apply IH].
Qed.

Lemma rt_list_remove_id n l : n ∉ l -> rt_list_remove n l = l.
Proof.
  induction l as [|x l IH]; simpl; [done|].
  rewrite not_elem_of_cons. intros [Hne Hl]. unfold tid_eqb.
  destruct (Nat.eqb_spec x n) as [->|_]; [done|]. by rewrite IH.
Qed.

Lemma rt_list_remove_head n l : n ∉ l -> rt_list_remove n (n :: l) = l.
Proof.
  intros H. simpl. unfold tid_eqb. rewrite Nat.eqb_refl. by apply rt_list_remove_id.
Qed.

Lemma sched_only_refl t : sched_only t t.
Proof. by repeat split. Qed.

Lemma sched_only_trans t1 t2 t3 :
  sched_only t1 t2 -> sched_only t2 t3 -> sched_only t1 t3.
Proof. unfold sched_only. intros (?&?&?&?) (?&?&?&?). repeat split; congruence. Qed.

Lemma sched_only_all l : Forall2 sched_only l l.
Proof. apply Forall_Forall2_diag, Forall_forall. intros. apply sched_only_refl. Qed.

Lemma kernel_frame_refl k : kernel_frame k k.
Proof. split; [done|]. apply sched_only_all. Qed.

Lemma kernel_frame_trans k1 k2 k3 :
  kernel_frame k1 k2 -> kernel_frame k2 k3 -> kernel_frame k1 k3.
Proof.
  intros [H1 F1] [H2 F2]. split; [congruence|].
  eapply Forall2_trans; [|exact F1|exact F2].
  intros. eapply sched_only_trans; eauto.
Qed.

Lemma kernel_frame_store k i t t' :
  deref k i = Some t -> sched_only t t' -> kernel_frame k (store i t' k).
Proof.
  intros Hd Hs. split; [done|]. unfold store. simpl.
  rewrite <- (list_insert_id (threads k) i t) at 1 by exact Hd.
  apply Forall2_insert; [|done]. apply sched_only_all.
Qed.

Lemma kernel_frame_set_ready k r : kernel_frame k (set_ready r k).
Proof. split; [done|]. apply sched_only_all. Qed.

Lemma kernel_frame_deref k k' i t :
  kernel_frame k k' -> deref k i = Some t ->
  exists t', deref k' i = Some t' /\ sched_only t t'.
Proof.
  intros [_ F] Hd. unfold deref in *.
  destruct (Forall2_lookup_l _ _ _ _ _ F Hd) as (t' & ? & ?). eauto.
Qed.

Lemma kernel_frame_is_Some k k' i :
  kernel_frame k k' -> is_Some (deref k i) -> is_Some (deref k' i).
Proof.
  intros F [t Hd]. destruct (kernel_frame_deref _ _ _ _ F Hd) as (t' & -> & _). eauto.
Qed.

(** ** Thread and wait-queue primitives *)

Lemma rt_schedule_insert_thread_eq thread k t :
  deref k thread = Some t ->
  rt_schedule_insert_thread thread k =
    Some (set_ready (rt_thread_priority_table k ++ [thread])
            (store thread (set_stat RT_THREAD_READY t) k)).
Proof. intros H. unfold rt_schedule_insert_thread. rewrite H. reflexivity. Qed.

Lemma rt_thread_suspend_ready thread k t :
  deref k thread = Some t -> stat t = RT_THREAD_READY ->
  rt_thread_suspend thread k =
    Some (set_ready (rt_list_remove thread (rt_thread_priority_table k))
            (store thread (set_stat RT_THREAD_SUSPEND t) k), RT_EOK).
Proof.
  intros H Hs. unfold rt_thread_suspend, rt_schedule_remove_thread.
  rewrite H. simpl. rewrite Hs. simpl.
  rewrite deref_store_eq by eauto. reflexivity.
Qed.

Lemma rt_thread_suspend_frame thread k :
  is_Some (deref k thread) ->
  exists k' e, rt_thread_suspend thread k = Some (k', e) /\ kernel_frame k k'.
Proof.
  intros [t H]. unfold rt_thread_suspend, rt_schedule_remove_thread.
  rewrite H. simpl. destruct (thread_stat_eqb (stat t) RT_THREAD_READY); simpl.
  - rewrite deref_store_eq by eauto. simpl. do 2 eexists. split; [done|].
    eapply kernel_frame_trans; [|apply kernel_frame_set_ready].
    eapply kernel_frame_store; [done|]. by repeat split.
  - do 2 eexists. split; [done|]. apply kernel_frame_refl.
Qed.

Lemma rt_thread_resume_suspended thread wl k t :
  deref k thread = Some t -> stat t = RT_THREAD_SUSPEND ->
  rt_thread_resume thread wl k =
    Some (set_ready (rt_thread_priority_table k ++ [thread])
            (store thread
               (set_stat RT_THREAD_READY
                  (set_thread_timer (mk_timer false (timer_init_tick (thread_timer t))) t))
               k),
          rt_list_remove thread wl, RT_EOK).
Proof.
  intros H Hs. unfold rt_thread_resume. rewrite H. simpl. rewrite Hs. simpl.
  erewrite rt_schedule_insert_thread_eq by (apply deref_store_eq; eauto).
  simpl. unfold store. simpl. rewrite list_insert_insert_eq. reflexivity.
Qed.

Lemma rt_thread_resume_frame thread wl k :
  is_Some (deref k thread) ->
  exists k' wl' e, rt_thread_resume thread wl k = Some (k', wl', e) /\ kernel_frame k k'.
Proof.
  intros [t H]. destruct (thread_stat_eqb (stat t) RT_THREAD_SUSPEND) eqn:E.
  - erewrite rt_thread_resume_suspended; [|done|by destruct (stat t)].
    do 3 eexists. split; [done|].
    eapply kernel_frame_trans; [|apply kernel_frame_set_ready].
    eapply kernel_frame_store; [done|]. by repeat split.
  - unfold rt_thread_resume. rewrite H. simpl. rewrite E. simpl.
    do 3 eexists. split; [done|]. apply kernel_frame_refl.
Qed.

Lemma find_position_total k prio l i :
  Forall (fun w => is_Some (deref k w)) l -> is_Some (find_position k prio l i).
Proof.
  intros H. revert i. induction H as [|w l [t Hw] _ IH]; intros i; simpl; [eauto|].
  rewrite Hw. simpl. destruct (prio <? current_priority t); eauto.
Qed.

Lemma waiters_valid_frame k k' ipc :
  kernel_frame k k' -> waiters_valid k ipc -> waiters_valid k' ipc.
Proof.
  unfold waiters_valid. intros F H. eapply Forall_impl; [exact H|].
  intros w. by apply kernel_frame_is_Some.
Qed.

(** Blocking on an object: the thread is suspended, the count grows by one,
    and the node goes to the tail of the list under either ordering flag. *)
Lemma rt_ipc_object_suspend_frame ipc thread k :
  is_Some (deref k thread) -> waiters_valid k ipc ->
  exists k' ipc',
    rt_ipc_object_suspend ipc thread k = Some (k', ipc') /\
    kernel_frame k k' /\
    flag ipc' = flag ipc /\
    suspend_thread_count ipc' = wrap_u32 (suspend_thread_count ipc + 1) /\
    suspend_thread ipc' =
      (if (flag ipc =? RT_IPC_FLAG_FIFO) || (flag ipc =? RT_IPC_FLAG_PRIO)
       then suspend_thread ipc ++ [thread] else suspend_thread ipc) /\
    (fst <$> rt_thread_suspend thread k) = Some k'.
Proof.
  intros Hd Hw. unfold rt_ipc_object_suspend.
  destruct (rt_thread_suspend_frame thread k Hd) as (k1 & e & -> & F). simpl.
  destruct (flag ipc =? RT_IPC_FLAG_FIFO) eqn:E1; simpl.
  { do 2 eexists. split_and!; done. }
  destruct (flag ipc =? RT_IPC_FLAG_PRIO) eqn:E2; simpl.
  - destruct (kernel_frame_is_Some _ _ _ F Hd) as [t1 ->]. simpl.
    destruct (find_position_total k1 (current_priority t1) (suspend_thread ipc) 0)
      as [n ->]; [by eapply waiters_valid_frame|].
    simpl. do 2 eexists. split_and!; done.
  - do 2 eexists. split_and!; done.
Qed.

(** ** Semaphore *)

(** C3.  [rt_sem_take] on a semaphore of positive value takes one off the
    value and returns [RT_EOK] without suspending the caller (the kernel
    state is untouched); on a semaphore of value [<= 0] with [time == 0] it
    returns [-RT_ETIMEOUT] and changes nothing; [rt_sem_trytake] is
    [rt_sem_take] with [time == 0]. *)
Theorem rt_sem_take_no_wait (sem : rt_semaphore) (time : Z) (k : kernel) :
  is_s32 (sem_value sem) ->
  (0 < sem_value sem ->
     rt_sem_take sem time k =
       Some (k, mk_sem (sem_parent sem) (sem_value sem - 1), Returned RT_EOK)) /\
  (sem_value sem <= 0 -> time = 0 ->
     rt_sem_take sem time k = Some (k, sem, Returned (- RT_ETIMEOUT))) /\
  rt_sem_trytake sem k = rt_sem_take sem 0 k.
Proof.
  intros Hv. split_and!.
  - intros Hpos. unfold rt_sem_take.
    destruct (Z.ltb_spec 0 (sem_value sem)) as [_|?]; [|lia].
    rewrite wrap_s32_id; [done|]. unfold is_s32 in *. lia.
  - intros Hle ->. unfold rt_sem_take.
    destruct (Z.ltb_spec 0 (sem_value sem)) as [?|_]; [lia|]. done.
  - reflexivity.
Qed.

Lemma rt_sem_take_no_wait_witness :
  rt_sem_take (rt_sem_init 3 RT_IPC_FLAG_FIFO) 7 prio_kernel =
    Some (prio_kernel, mk_sem (mk_ipc RT_IPC_FLAG_FIFO [] 0) 2, Returned RT_EOK) /\
  rt_sem_take (rt_sem_init 0 RT_IPC_FLAG_FIFO) 0 prio_kernel =
    Some (prio_kernel, rt_sem_init 0 RT_IPC_FLAG_FIFO, Returned (- RT_ETIMEOUT)).
Proof.
  assert (H3 : is_s32 (sem_value (rt_sem_init 3 RT_IPC_FLAG_FIFO))).
  { vm_compute. split; [discriminate|reflexivity]. }
  assert (H0 : is_s32 (sem_value (rt_sem_init 0 RT_IPC_FLAG_FIFO))).
  { vm_compute. split; [discriminate|reflexivity]. }
  split.
  - exact (proj1 (rt_sem_take_no_wait (rt_sem_init 3 RT_IPC_FLAG_FIFO) 7 prio_kernel H3)
             eq_refl).
  - refine (proj1 (proj2 (rt_sem_take_no_wait (rt_sem_init 0 RT_IPC_FLAG_FIFO) 0
                            prio_kernel H0)) _ eq_refl).
    vm_compute. discriminate.
Defined.

Lemma start_thread_timer_armed thread time k t :
  0 < time -> deref k thread = Some t ->
  start_thread_timer thread time k =
    Some (store thread (set_thread_timer (mk_timer true time) t) k).
Proof.
  intros Ht H. unfold start_thread_timer.
  destruct (Z.ltb_spec 0 time); [|lia]. rewrite H. reflexivity.
Qed.

(** C4.  The running thread blocks in [rt_sem_take] with a timeout
    [time > 0] on a semaphore of value [<= 0]; no release follows and the
    thread timer expires.  The blocking part suspends the thread and counts
    it; the expiry runs [rt_thread_timeout]; scheduled in again, the call
    returns [-RT_ETIMEOUT] after it has taken the thread off the count, which
    is back at its value before the call (0 when the thread was the only
    waiter), and the thread is READY and in the suspend list no more. *)
Theorem rt_sem_take_timeout (sem : rt_semaphore) (time : Z) (k : kernel) (t : rt_thread) :
  deref k (rt_thread_self k) = Some t ->
  stat t = RT_THREAD_READY ->
  waiters_valid k (sem_parent sem) ->
  is_u32 (suspend_thread_count (sem_parent sem)) ->
  sem_value sem <= 0 ->
  0 < time ->
  exists k1 sem1 k2 sem2 k3 sem3,
    rt_sem_take sem time k = Some (k1, sem1, Scheduled) /\
    suspend_thread_count (sem_parent sem1) =
      wrap_u32 (suspend_thread_count (sem_parent sem) + 1) /\
    (stat <$> deref k1 (rt_thread_self k)) = Some RT_THREAD_SUSPEND /\
    rt_sem_wait_timeout sem1 (rt_thread_self k) k1 = Some (k2, sem2) /\
    rt_sem_take_resumed sem2 (rt_thread_self k) k2 = Some (k3, sem3, - RT_ETIMEOUT) /\
    suspend_thread_count (sem_parent sem3) = suspend_thread_count (sem_parent sem) /\
    (rt_thread_self k ∉ suspend_thread (sem_parent sem3)) /\
    (stat <$> deref k3 (rt_thread_self k)) = Some RT_THREAD_READY.
Proof.
  intros Hd Hs Hw Hc Hv Ht. set (self := rt_thread_self k) in *.
  unfold rt_sem_take.
  destruct (Z.ltb_spec 0 (sem_value sem)) as [?|_]; [lia|].
  destruct (Z.eqb_spec time 0) as [?|_]; [lia|].
  fold self. rewrite Hd. simpl.
  set (k0 := store self (set_error RT_EOK t) k).
  assert (Hd0 : deref k0 self = Some (set_error RT_EOK t)).
  { apply deref_store_eq. eauto. }
  assert (F0 : kernel_frame k k0).
  { eapply kernel_frame_store; [done|]. by repeat split. }
  destruct (rt_ipc_object_suspend_frame (sem_parent sem) self k0)
    as (k1 & ipc1 & -> & F1 & Hf1 & Hc1 & Hl1 & Hk1);
    [eauto|by eapply waiters_valid_frame|].
  simpl. erewrite rt_thread_suspend_ready in Hk1; [|exact Hd0|done].
  simpl in Hk1. injection Hk1 as <-.
  erewrite start_thread_timer_armed; [|done|].
  2:{ rewrite deref_set_ready. apply deref_store_eq. eauto. }
  simpl. do 6 eexists. split; [reflexivity|]. simpl.
  split; [exact Hc1|].
  split.
  { rewrite deref_store_eq; [done|]. deref_is_Some. }
  unfold rt_sem_wait_timeout, rt_timer_expire. simpl.
  rewrite deref_store_eq by deref_is_Some.
  simpl. unfold rt_thread_timeout.
  rewrite deref_store_eq by deref_is_Some.
  simpl.
  erewrite rt_schedule_insert_thread_eq by (apply deref_store_eq; deref_is_Some).
  simpl. split; [reflexivity|].
  unfold rt_sem_take_resumed. rewrite deref_set_ready.
  rewrite deref_store_eq by deref_is_Some.
  simpl. split; [reflexivity|]. simpl.
  split.
  { rewrite Hc1. by apply wrap_u32_succ_pred. }
  split.
  { apply rt_list_remove_not_in. }
  rewrite deref_set_ready, deref_store_eq; [done|]. deref_is_Some.
Qed.

Lemma rt_sem_take_timeout_witness :
  exists k1 sem1 k2 sem2 k3 sem3,
    rt_sem_take (rt_sem_init 0 RT_IPC_FLAG_FIFO) 100 solo_kernel
      = Some (k1, sem1, Scheduled) /\
    suspend_thread_count (sem_parent sem1) = 1 /\
    (stat <$> deref k1 0%nat) = Some RT_THREAD_SUSPEND /\
    rt_sem_wait_timeout sem1 0%nat k1 = Some (k2, sem2) /\
    rt_sem_take_resumed sem2 0%nat k2 = Some (k3, sem3, - RT_ETIMEOUT) /\
    suspend_thread_count (sem_parent sem3) = 0 /\
    (0%nat ∉ suspend_thread (sem_parent sem3)) /\
    (stat <$> deref k3 0%nat) = Some RT_THREAD_READY.
Proof.
  apply (rt_sem_take_timeout (rt_sem_init 0 RT_IPC_FLAG_FIFO) 100 solo_kernel
           (thread_at 20 20 RT_THREAD_READY)).
  - reflexivity.
  - reflexivity.
  - constructor.
  - vm_compute. split; [discriminate|reflexivity].
  - vm_compute. discriminate.
  - reflexivity.
Defined.

(** ** Priority change *)

#[local] Arguments rt_thread_control : simpl never.
#[local] Arguments rt_ipc_object_suspend : simpl never.
#[local] Arguments rt_ipc_object_resume : simpl never.
#[local] Arguments start_thread_timer : simpl never.

Lemma start_thread_timer_frame thread time k :
  is_Some (deref k thread) ->
  exists k', start_thread_timer thread time k = Some k' /\ kernel_frame k k'.
Proof.
  intros [t H]. unfold start_thread_timer. destruct (0 <? time).
  - rewrite H. simpl. eexists. split; [done|].
    eapply kernel_frame_store; [done|]. by repeat split.
  - eexists. split; [done|]. apply kernel_frame_refl.
Qed.

(** [RT_THREAD_CTRL_CHANGE_PRIORITY] gives the thread the priority [p] and
    touches no other thread object. *)
Lemma rt_thread_control_change_priority pmax o p k to :
  deref k o = Some to ->
  exists k' to',
    rt_thread_control pmax o RT_THREAD_CTRL_CHANGE_PRIORITY p k = Some (k', - RT_EOK) /\
    rt_current_thread k' = rt_current_thread k /\
    deref k' o = Some to' /\
    current_priority to' = p /\
    init_priority to' = init_priority to /\
    (forall i, i <> o -> deref k' i = deref k i).
Proof.
  intros H. unfold rt_thread_control. rewrite H. simpl.
  destruct (thread_stat_eqb (stat to) RT_THREAD_READY).
  - unfold rt_schedule_remove_thread. rewrite H. simpl.
    rewrite deref_set_ready, H. simpl.
    erewrite rt_schedule_insert_thread_eq.
    2:{ apply deref_store_eq. rewrite deref_set_ready. eauto. }
    simpl. do 2 eexists. split; [reflexivity|]. split; [done|].
    split.
    { rewrite deref_set_ready. apply deref_store_eq.
      apply deref_store_is_Some. rewrite deref_set_ready. eauto. }
    split; [unfold set_priority; by destruct (32 <? pmax)|].
    split; [unfold set_priority; by destruct (32 <? pmax)|].
    intros i Hi. rewrite deref_set_ready, !deref_store_ne by done. done.
  - do 2 eexists. split; [reflexivity|]. split; [done|].
    split; [apply deref_store_eq; eauto|].
    split; [unfold set_priority; by destruct (32 <? pmax)|].
    split; [unfold set_priority; by destruct (32 <? pmax)|].
    intros i Hi. by rewrite deref_store_ne.
Qed.

Lemma deref_preserved_is_Some k k' o i :
  is_Some (deref k' o) ->
  (forall i, i <> o -> deref k' i = deref k i) ->
  is_Some (deref k i) -> is_Some (deref k' i).
Proof.
  intros Ho Hi H. destruct (decide (i = o)) as [->|Hne]; [done|]. by rewrite Hi.
Qed.

Lemma rt_ipc_object_resume_frame ipc k :
  waiters_valid k ipc -> suspend_thread ipc <> [] ->
  exists k' ipc',
    rt_ipc_object_resume ipc k = Some (k', ipc') /\
    kernel_frame k k' /\
    flag ipc' = flag ipc /\
    suspend_thread_count ipc' = wrap_u32 (suspend_thread_count ipc - 1).
Proof.
  intros Hw Hne. unfold rt_ipc_object_resume.
  destruct (suspend_thread ipc) as [|w ws] eqn:E; [done|].
  assert (Hd : is_Some (deref k w)).
  { unfold waiters_valid in Hw. rewrite E in Hw. by inversion Hw. }
  destruct (rt_thread_resume_frame w (w :: ws) k Hd) as (k' & wl' & e & -> & F).
  simpl. do 2 eexists. split_and!; done.
Qed.

(** ** Mutex *)

Lemma owner_is_true mutex thread : owner mutex = Some thread -> owner_is mutex thread = true.
Proof. intros H. unfold owner_is, tid_eqb. rewrite H. apply Nat.eqb_refl. Qed.

Lemma owner_is_false mutex thread : owner mutex <> Some thread -> owner_is mutex thread = false.
Proof.
  intros H. unfold owner_is, tid_eqb. destruct (owner mutex) as [o|]; [|done].
  destruct (Nat.eqb_spec o thread) as [->|]; [by destruct H|done].
Qed.

(** The blocking path of [rt_mutex_take]: priority inheritance. *)
Lemma rt_mutex_take_blocks pmax mutex time k t o to :
  deref k (rt_thread_self k) = Some t ->
  owner mutex = Some o -> o <> rt_thread_self k ->
  deref k o = Some to ->
  waiters_valid k (mutex_parent mutex) ->
  mutex_value mutex <= 0 -> time <> 0 ->
  exists k' ipc' to',
    rt_mutex_take pmax mutex time k =
      Some (k', mk_mutex ipc' (wrap_s32 (mutex_value mutex - 1)) (Some o)
                  (original_priority mutex) (hold mutex), Scheduled) /\
    deref k' o = Some to' /\
    init_priority to' = init_priority to /\
    (current_priority t < current_priority to ->
       current_priority to' = current_priority t) /\
    (current_priority to <= current_priority t ->
       current_priority to' = current_priority to).
Proof.
  intros Hd Ho Hne Hdo Hw Hv Ht. set (self := rt_thread_self k) in *.
  unfold rt_mutex_take. fold self. rewrite Hd. simpl.
  rewrite owner_is_false by (rewrite Ho; congruence).
  destruct (Z.ltb_spec 0 (mutex_value mutex)) as [?|_]; [lia|].
  destruct (Z.eqb_spec time 0) as [?|_]; [done|].
  set (k0 := store self (set_error RT_EOK t) k).
  assert (Hd0 : deref k0 self = Some (set_error RT_EOK t)).
  { apply deref_store_eq. eauto. }
  assert (Hdo0 : deref k0 o = Some to).
  { unfold k0. rewrite deref_store_ne; done. }
  assert (F0 : kernel_frame k k0).
  { eapply kernel_frame_store; [done|]. by repeat split. }
  rewrite Hd0, Ho. simpl. rewrite Hdo0. simpl.
  assert (Hstep : forall k1 to1,
    deref k1 self = Some (set_error RT_EOK t) ->
    waiters_valid k1 (mutex_parent mutex) ->
    deref k1 o = Some to1 ->
    exists k' ipc' to',
      ('(k2, ipc) ← rt_ipc_object_suspend (mutex_parent mutex) self k1;
       k3 ← start_thread_timer self time k2;
       Some (k3, mk_mutex ipc (wrap_s32 (mutex_value mutex - 1)) (Some o)
                   (original_priority mutex) (hold mutex), Scheduled)) =
        Some (k', mk_mutex ipc' (wrap_s32 (mutex_value mutex - 1)) (Some o)
                    (original_priority mutex) (hold mutex), Scheduled) /\
      deref k' o = Some to' /\ sched_only to1 to').
  { intros k1 to1 H1 Hw1 Ho1.
    destruct (rt_ipc_object_suspend_frame (mutex_parent mutex) self k1)
      as (k2 & ipc2 & -> & F2 & _); [eauto|done|]. simpl.
    destruct (start_thread_timer_frame self time k2) as (k3 & -> & F3).
    { eapply kernel_frame_is_Some; eauto. }
    simpl.
    destruct (kernel_frame_deref k1 k3 o to1) as (to3 & ? & ?);
      [by eapply kernel_frame_trans|done|].
    by exists k3, ipc2, to3. }
  destruct (Z.ltb_spec (current_priority t) (current_priority to)) as [Hlt|Hge].
  - destruct (rt_thread_control_change_priority pmax o (current_priority t) k0 to Hdo0)
      as (k1 & to1 & -> & Hc1 & Hdo1 & Hp1 & Hi1 & Hoth).
    simpl.
    destruct (Hstep k1 to1) as (k' & ipc' & to' & -> & Hd' & (Hi' & Hp' & _)).
    { rewrite Hoth by done. exact Hd0. }
    { unfold waiters_valid. eapply Forall_impl; [exact Hw|]. intros w Hw'. simpl in *.
      eapply deref_preserved_is_Some; [eauto|exact Hoth|].
      eapply kernel_frame_is_Some; eauto. }
    { done. }
    exists k', ipc', to'. split_and!; [done|done|congruence| |]; simpl in *; lia.
  - simpl.
    destruct (Hstep k0 to) as (k' & ipc' & to' & -> & Hd' & (Hi' & Hp' & _)).
    { done. } { by eapply waiters_valid_frame. } { done. }
    exists k', ipc', to'. split_and!; [done|done|done| |]; simpl in *; lia.
Qed.

(** The full release: the last hold goes, the owner gets its initial
    priority back, one waiter is resumed when threads wait, and the value
    goes up by one.  The owner field is left as it is. *)
Lemma rt_mutex_release_full pmax mutex k t :
  deref k (rt_thread_self k) = Some t ->
  owner mutex = Some (rt_thread_self k) ->
  wrap_s32 (hold mutex - 1) = 0 ->
  wait_queue_ok k (mutex_parent mutex) ->
  exists k' ipc' t',
    rt_mutex_release pmax mutex k =
      Some (k', mk_mutex ipc' (wrap_s32 (mutex_value mutex + 1))
                  (Some (rt_thread_self k)) (original_priority mutex) 0, RT_EOK) /\
    rt_current_thread k' = rt_current_thread k /\
    deref k' (rt_thread_self k) = Some t' /\
    init_priority t' = init_priority t /\
    current_priority t' = init_priority t.
Proof.
  intros Hd Ho Hh [Hw Hq]. set (self := rt_thread_self k) in *.
  unfold rt_mutex_release. fold self. rewrite owner_is_true by done. simpl.
  rewrite Hh, Ho. simpl. rewrite Hd. simpl.
  assert (Hstep : forall k1 t1,
    rt_current_thread k1 = rt_current_thread k ->
    deref k1 self = Some t1 ->
    waiters_valid k1 (mutex_parent mutex) ->
    exists k' ipc' t',
      ('(k2, ipc) ← (if (mutex_value mutex <=? 0)
                        && (0 <? suspend_thread_count (mutex_parent mutex))
                     then rt_ipc_object_resume (mutex_parent mutex) k1
                     else Some (k1, mutex_parent mutex));
       Some (k2, mk_mutex ipc (wrap_s32 (mutex_value mutex + 1)) (Some self)
                   (original_priority mutex) 0, RT_EOK)) =
        Some (k', mk_mutex ipc' (wrap_s32 (mutex_value mutex + 1)) (Some self)
                    (original_priority mutex) 0, RT_EOK) /\
      rt_current_thread k' = rt_current_thread k /\
      deref k' self = Some t' /\ sched_only t1 t').
  { intros k1 t1 Hc1 H1 Hw1.
    destruct ((mutex_value mutex <=? 0)
              && (0 <? suspend_thread_count (mutex_parent mutex))) eqn:E.
    - apply andb_true_iff in E as [_ E]. apply Z.ltb_lt in E.
      destruct (rt_ipc_object_resume_frame (mutex_parent mutex) k1)
        as (k2 & ipc2 & -> & F2 & _); [done|by apply Hq|].
      simpl. destruct (kernel_frame_deref k1 k2 self t1 F2 H1) as (t2 & ? & ?).
      exists k2, ipc2, t2. split_and!; try done. destruct F2. congruence.
    - simpl. exists k1, (mutex_parent mutex), t1.
      split_and!; first [done|apply sched_only_refl]. }
  destruct (Z.eqb_spec (init_priority t) (current_priority t)) as [Heq|Hneq]; simpl.
  - destruct (Hstep k t) as (k' & ipc' & t' & -> & Hc' & Hd' & (Hi' & Hp' & _));
      [done|done|done|].
    exists k', ipc', t'. split_and!; try done. congruence.
  - destruct (rt_thread_control_change_priority pmax self (init_priority t) k t Hd)
      as (k1 & t1 & -> & Hc1 & Hd1 & Hp1 & Hi1 & Hoth).
    simpl.
    destruct (Hstep k1 t1) as (k' & ipc' & t' & -> & Hc' & Hd' & (Hi' & Hp' & _));
      [done|done| |].
    { unfold waiters_valid. eapply Forall_impl; [exact Hw|]. intros w Hw'. simpl in *.
      eapply deref_preserved_is_Some; [eauto|exact Hoth|done]. }
    exists k', ipc', t'. split_and!; try done; congruence.
Qed.

(** C5.  [rt_mutex_release] called by a thread that is not the owner
    returns [-RT_ERROR]; the mutex it leaves is the mutex it found (value,
    owner, hold, original priority and wait queue); the error code is also
    put into the caller's [error] field. *)
Theorem rt_mutex_release_not_owner pmax (mutex : rt_mutex) (k : kernel) (t : rt_thread) :
  deref k (rt_thread_self k) = Some t ->
  owner mutex <> Some (rt_thread_self k) ->
  rt_mutex_release pmax mutex k =
    Some (store (rt_thread_self k) (set_error (- RT_ERROR) t) k, mutex, - RT_ERROR).
Proof.
  intros Hd Ho. unfold rt_mutex_release.
  rewrite owner_is_false by done. simpl. rewrite Hd. reflexivity.
Qed.

Lemma rt_mutex_release_not_owner_witness :
  rt_mutex_release 256 held_mutex (switch_to 1%nat low_high_kernel) =
    Some (store 1%nat (set_error (- RT_ERROR) (thread_at 5 5 RT_THREAD_READY))
            (switch_to 1%nat low_high_kernel),
          held_mutex, - RT_ERROR).
Proof.
  apply (rt_mutex_release_not_owner 256 held_mutex (switch_to 1%nat low_high_kernel)
           (thread_at 5 5 RT_THREAD_READY)).
  - reflexivity.
  - vm_compute. discriminate.
Defined.

(** C2.  Priority inheritance.  When [rt_mutex_take] has to block (the
    caller is not the owner, the value is not positive, [time] is not 0) the
    call reaches [rt_schedule()] and the owner then has the caller's priority
    if that is numerically lower than the owner's, and its own priority
    otherwise (also when the two are equal).  When the owner gives up its
    last hold, [rt_mutex_release] returns [RT_EOK] with [hold] 0 and the
    owner's [current_priority] is its [init_priority]. *)
Theorem rt_mutex_priority_inheritance pmax :
  (forall mutex time k t o to,
     deref k (rt_thread_self k) = Some t ->
     owner mutex = Some o -> o <> rt_thread_self k ->
     deref k o = Some to ->
     waiters_valid k (mutex_parent mutex) ->
     mutex_value mutex <= 0 -> time <> 0 ->
     exists k' mutex' to',
       rt_mutex_take pmax mutex time k = Some (k', mutex', Scheduled) /\
       deref k' o = Some to' /\
       (current_priority t < current_priority to ->
          current_priority to' = current_priority t) /\
       (current_priority to <= current_priority t ->
          current_priority to' = current_priority to)) /\
  (forall mutex k t,
     deref k (rt_thread_self k) = Some t ->
     owner mutex = Some (rt_thread_self k) ->
     hold mutex = 1 ->
     wait_queue_ok k (mutex_parent mutex) ->
     exists k' mutex' t',
       rt_mutex_release pmax mutex k = Some (k', mutex', RT_EOK) /\
       hold mutex' = 0 /\
       deref k' (rt_thread_self k) = Some t' /\
       init_priority t' = init_priority t /\
       current_priority t' = init_priority t').
Proof.
  split.
  - intros mutex time k t o to Hd Ho Hne Hdo Hw Hv Ht.
    destruct (rt_mutex_take_blocks pmax mutex time k t o to)
      as (k' & ipc' & to' & -> & ? & ? & ? & ?); try done.
    by eexists _, _, to'.
  - intros mutex k t Hd Ho Hh Hq.
    destruct (rt_mutex_release_full pmax mutex k t)
      as (k' & ipc' & t' & -> & ? & ? & ? & ?); try done.
    { by rewrite Hh. }
    eexists _, _, t'. split_and!; try done. congruence.
Qed.

Lemma rt_mutex_priority_inheritance_witness :
  (exists k' mutex' to',
     rt_mutex_take 256 held_mutex (-1) (switch_to 1%nat low_high_kernel)
       = Some (k', mutex', Scheduled) /\
     deref k' 0%nat = Some to' /\ current_priority to' = 5) /\
  (exists k' mutex' t',
     rt_mutex_release 256 contended_mutex boosted_kernel = Some (k', mutex', RT_EOK) /\
     hold mutex' = 0 /\
     deref k' 0%nat = Some t' /\ current_priority t' = 20).
Proof.
  split.
  - destruct (proj1 (rt_mutex_priority_inheritance 256) held_mutex (-1)
                (switch_to 1%nat low_high_kernel)
                (thread_at 5 5 RT_THREAD_READY) 0%nat (thread_at 20 20 RT_THREAD_READY))
      as (k' & mutex' & to' & H1 & H2 & H3 & _).
    + reflexivity.
    + reflexivity.
    + vm_compute. discriminate.
    + reflexivity.
    + constructor.
    + vm_compute. discriminate.
    + discriminate.
    + exists k', mutex', to'. split; [exact H1|]. split; [exact H2|].
      apply H3. reflexivity.
  - destruct (proj2 (rt_mutex_priority_inheritance 256) contended_mutex boosted_kernel
                (thread_at 20 5 RT_THREAD_READY))
      as (k' & mutex' & t' & H1 & H2 & H3 & H4 & H5).
    + reflexivity.
    + reflexivity.
    + reflexivity.
    + split.
      * repeat constructor. vm_compute. eauto.
      * intros _. discriminate.
    + exists k', mutex', t'. split; [exact H1|]. split; [exact H2|].
      split; [exact H3|]. rewrite H5. exact H4.
Defined.

(** Inversion of a successful run of the option monad. *)
Ltac bind_inv H :=
  repeat match type of H with
         | (?m ≫= _) = Some _ =>
             let E := fresh "E" in
             destruct m eqn:E; simpl in H; [|discriminate H]
         | (let '(_, _) := ?p in _) = Some _ => destruct p
         end.

(** [rt_mutex_release] has no assignment to [mutex->owner]. *)
Lemma rt_mutex_release_owner pmax mutex k k' mutex' err :
  rt_mutex_release pmax mutex k = Some (k', mutex', err) ->
  owner mutex' = owner mutex.
Proof.
  unfold rt_mutex_release. intros H.
  destruct (owner_is mutex (rt_thread_self k)); simpl in H.
  - destruct (wrap_s32 (hold mutex - 1) =? 0).
    + bind_inv H. by injection H as <- <- <-.
    + by injection H as <- <- <-.
  - bind_inv H. by injection H as <- <- <-.
Qed.

(** The owner takes the mutex again: the hold count goes up, nothing else
    of the mutex changes. *)
Lemma rt_mutex_take_owner pmax mutex time k t :
  deref k (rt_thread_self k) = Some t ->
  owner mutex = Some (rt_thread_self k) ->
  rt_mutex_take pmax mutex time k =
    Some (store (rt_thread_self k) (set_error RT_EOK t) k,
          mk_mutex (mutex_parent mutex) (mutex_value mutex) (owner mutex)
            (original_priority mutex) (wrap_s32 (hold mutex + 1)),
          Returned RT_EOK).
Proof.
  intros Hd Ho. unfold rt_mutex_take. rewrite Hd. simpl.
  by rewrite owner_is_true.
Qed.

(** C10.  [rt_mutex_release] never changes [mutex->owner].  After the full
    release (the last hold given up; a waiter may or may not have been
    resumed) the owner field still names the releasing thread, so when that
    thread calls [rt_mutex_take] next, the call takes the branch
    [mutex->owner == thread]: it returns [RT_EOK] with [hold] one up, the
    value as the release left it and the owner unchanged. *)
Theorem rt_mutex_release_keeps_owner pmax :
  (forall mutex k k' mutex' err,
     rt_mutex_release pmax mutex k = Some (k', mutex', err) ->
     owner mutex' = owner mutex) /\
  (forall mutex k t time,
     deref k (rt_thread_self k) = Some t ->
     owner mutex = Some (rt_thread_self k) ->
     hold mutex = 1 ->
     wait_queue_ok k (mutex_parent mutex) ->
     exists k1 mutex1 k2 mutex2,
       rt_mutex_release pmax mutex k = Some (k1, mutex1, RT_EOK) /\
       hold mutex1 = 0 /\
       owner mutex1 = Some (rt_thread_self k) /\
       rt_thread_self k1 = rt_thread_self k /\
       rt_mutex_take pmax mutex1 time k1 = Some (k2, mutex2, Returned RT_EOK) /\
       hold mutex2 = 1 /\
       mutex_value mutex2 = mutex_value mutex1 /\
       owner mutex2 = Some (rt_thread_self k)).
Proof.
  split; [apply rt_mutex_release_owner|].
  intros mutex k t time Hd Ho Hh Hq.
  destruct (rt_mutex_release_full pmax mutex k t)
    as (k1 & ipc1 & t1 & Hr & Hc & Hd1 & _); try done.
  { by rewrite Hh. }
  rewrite Hr.
  assert (Hself : rt_thread_self k1 = rt_thread_self k) by exact Hc.
  eexists _, _, _, _. split; [reflexivity|]. simpl.
  split; [done|]. split; [done|]. split; [done|].
  split.
  { apply rt_mutex_take_owner with (t := t1); simpl; rewrite Hself; done. }
  simpl. done.
Qed.

Lemma rt_mutex_release_keeps_owner_witness :
  exists k1 mutex1 k2 mutex2,
    rt_mutex_release 256 contended_mutex boosted_kernel = Some (k1, mutex1, RT_EOK) /\
    hold mutex1 = 0 /\
    owner mutex1 = Some 0%nat /\
    rt_thread_self k1 = 0%nat /\
    rt_mutex_take 256 mutex1 (-1) k1 = Some (k2, mutex2, Returned RT_EOK) /\
    hold mutex2 = 1 /\
    mutex_value mutex2 = mutex_value mutex1 /\
    owner mutex2 = Some 0%nat.
Proof.
  apply (proj2 (rt_mutex_release_keeps_owner 256) contended_mutex boosted_kernel
           (thread_at 20 5 RT_THREAD_READY) (-1)).
  - reflexivity.
  - reflexivity.
  - reflexivity.
  - split.
    + repeat constructor. vm_compute. eauto.
    + intros _. discriminate.
Defined.

(** A thread that is not the owner takes a mutex of positive value. *)
Lemma rt_mutex_take_available pmax mutex time k t :
  deref k (rt_thread_self k) = Some t ->
  owner mutex <> Some (rt_thread_self k) ->
  0 < mutex_value mutex ->
  rt_mutex_take pmax mutex time k =
    Some (store (rt_thread_self k) (set_error RT_EOK t) k,
          mk_mutex (mutex_parent mutex) (wrap_s32 (mutex_value mutex - 1))
            (Some (rt_thread_self k)) (current_priority t) (wrap_s32 (hold mutex + 1)),
          Returned RT_EOK).
Proof.
  intros Hd Ho Hv. unfold rt_mutex_take. rewrite Hd. simpl.
  rewrite owner_is_false by done.
  destruct (Z.ltb_spec 0 (mutex_value mutex)); [|lia].
  rewrite deref_store_eq by eauto. reflexivity.
Qed.

Lemma mutex_take_n_owner pmax time (n : nat) : forall mutex k t,
  deref k (rt_thread_self k) = Some t ->
  owner mutex = Some (rt_thread_self k) ->
  0 <= hold mutex -> hold mutex + Z.of_nat n < 2 ^ 31 ->
  exists k' mutex',
    mutex_take_n pmax n mutex time k = Some (k', mutex') /\
    kernel_frame k k' /\
    mutex_parent mutex' = mutex_parent mutex /\
    mutex_value mutex' = mutex_value mutex /\
    owner mutex' = owner mutex /\
    hold mutex' = hold mutex + Z.of_nat n.
Proof.
  induction n as [|n IH]; intros mutex k t Hd Ho Hh Hn.
  - exists k, mutex. split_and!; try done; [apply kernel_frame_refl|simpl; lia].
  - simpl. rewrite (rt_mutex_take_owner pmax mutex time k t) by done. simpl.
    set (k1 := store (rt_thread_self k) (set_error RT_EOK t) k).
    assert (F1 : kernel_frame k k1).
    { eapply kernel_frame_store; [done|]. by repeat split. }
    assert (Hw : wrap_s32 (hold mutex + 1) = hold mutex + 1).
    { apply wrap_s32_id. unfold is_s32. lia. }
    edestruct (IH (mk_mutex (mutex_parent mutex) (mutex_value mutex) (owner mutex)
                     (original_priority mutex) (wrap_s32 (hold mutex + 1))) k1)
      as (k' & mutex' & -> & F & ? & ? & ? & Hh').
    { apply deref_store_eq. eauto. }
    { done. }
    { simpl. lia. }
    { simpl. lia. }
    exists k', mutex'. split_and!; try done.
    + by eapply kernel_frame_trans.
    + simpl in Hh'. lia.
Qed.

(** A release that leaves holds behind only counts down. *)
Lemma rt_mutex_release_partial pmax mutex k :
  owner mutex = Some (rt_thread_self k) ->
  wrap_s32 (hold mutex - 1) <> 0 ->
  rt_mutex_release pmax mutex k =
    Some (k, mk_mutex (mutex_parent mutex) (mutex_value mutex) (owner mutex)
               (original_priority mutex) (wrap_s32 (hold mutex - 1)), RT_EOK).
Proof.
  intros Ho Hh. unfold rt_mutex_release. rewrite owner_is_true by done. simpl.
  destruct (Z.eqb_spec (wrap_s32 (hold mutex - 1)) 0); done.
Qed.

Lemma mutex_release_n_S pmax n mutex k :
  mutex_release_n pmax (S n) mutex k =
    '(k1, mutex1, err) ← rt_mutex_release pmax mutex k;
    if err =? RT_EOK then mutex_release_n pmax n mutex1 k1 else None.
Proof. reflexivity. Qed.

Lemma mutex_release_n_owner pmax (n : nat) : forall mutex k t,
  deref k (rt_thread_self k) = Some t ->
  owner mutex = Some (rt_thread_self k) ->
  hold mutex = Z.of_nat (S n) -> hold mutex < 2 ^ 31 ->
  wait_queue_ok k (mutex_parent mutex) ->
  exists k' mutex',
    mutex_release_n pmax (S n) mutex k = Some (k', mutex') /\
    hold mutex' = 0 /\
    mutex_value mutex' = wrap_s32 (mutex_value mutex + 1) /\
    owner mutex' = owner mutex.
Proof.
  induction n as [|n IH]; intros mutex k t Hd Ho Hh Hn Hq.
  - destruct (rt_mutex_release_full pmax mutex k t)
      as (k' & ipc' & t' & Hr & _); try done.
    { by rewrite Hh. }
    rewrite mutex_release_n_S, Hr. simpl.
    eexists _, _. split; [reflexivity|]. simpl. by rewrite Ho.
  - assert (Hw : wrap_s32 (hold mutex - 1) = Z.of_nat (S n)).
    { rewrite wrap_s32_id; [lia|]. unfold is_s32. lia. }
    rewrite mutex_release_n_S, rt_mutex_release_partial by (done || lia).
    rewrite Hw. cbn [mbind option_bind]. change (RT_EOK =? RT_EOK) with true. cbv iota.
    edestruct (IH (mk_mutex (mutex_parent mutex) (mutex_value mutex) (owner mutex)
                     (original_priority mutex) (Z.of_nat (S n))) k t)
      as (k' & mutex' & Hr & ? & ? & ?); try done.
    { simpl. lia. }
    exists k', mutex'. split; [exact Hr|]. done.
Qed.

(** Mutex recursion on a mutex the thread does not own yet.  The mutex is
    free (value 1, no hold) and its owner field does not name the running
    thread, so that the first take is the acquisition of the branch
    [mutex->value > 0]; the thread takes it [N - 1] more times and releases
    it [N] times; no other thread runs in between.  Every call returns
    [RT_EOK]; after the takes the thread owns the mutex with [hold == N] and
    [value == 0]; after the releases [hold == 0] and [value == 1].  [N] is
    within the range of the hold counter. *)
Theorem rt_mutex_recursion pmax (N : nat) (mutex : rt_mutex) (time : Z) (k : kernel)
    (t : rt_thread) :
  deref k (rt_thread_self k) = Some t ->
  mutex_value mutex = 1 -> hold mutex = 0 ->
  owner mutex <> Some (rt_thread_self k) ->
  wait_queue_ok k (mutex_parent mutex) ->
  (1 <= N)%nat -> Z.of_nat N < 2 ^ 31 ->
  exists k1 mutex1 k2 mutex2,
    mutex_take_n pmax N mutex time k = Some (k1, mutex1) /\
    owner mutex1 = Some (rt_thread_self k) /\
    hold mutex1 = Z.of_nat N /\
    mutex_value mutex1 = 0 /\
    mutex_release_n pmax N mutex1 k1 = Some (k2, mutex2) /\
    hold mutex2 = 0 /\
    mutex_value mutex2 = 1.
Proof.
  intros Hd Hv Hh Ho [Hw Hq] HN Hmax.
  destruct N as [|n]; [lia|].
  set (self := rt_thread_self k) in *.
  cbn [mutex_take_n].
  rewrite (rt_mutex_take_available pmax mutex time k t) by (done || lia).
  fold self. cbn [mbind option_bind]. change (RT_EOK =? RT_EOK) with true. cbv iota.
  rewrite Hv, Hh. change (wrap_s32 (1 - 1)) with 0. change (wrap_s32 (0 + 1)) with 1.
  set (k0 := store self (set_error RT_EOK t) k).
  set (mutex0 := mk_mutex _ _ _ _ _).
  assert (F0 : kernel_frame k k0).
  { eapply kernel_frame_store; [done|]. by repeat split. }
  destruct (mutex_take_n_owner pmax time n mutex0 k0 (set_error RT_EOK t))
    as (k1 & mutex1 & Ht1 & F1 & Hp1 & Hv1 & Ho1 & Hh1).
  { apply deref_store_eq. eauto. }
  { done. }
  { simpl. lia. }
  { simpl. lia. }
  simpl in Hp1, Hv1, Ho1, Hh1.
  assert (Hs1 : rt_thread_self k1 = self).
  { destruct F1 as [E _]. unfold self, rt_thread_self. by rewrite E. }
  destruct (kernel_frame_deref k k1 self t) as (t1 & Hd1 & _);
    [by eapply kernel_frame_trans|done|].
  destruct (mutex_release_n_owner pmax n mutex1 k1 t1)
    as (k2 & mutex2 & Hr2 & Hh2 & Hv2 & _).
  { by rewrite Hs1. }
  { by rewrite Hs1. }
  { lia. }
  { lia. }
  { split.
    - rewrite Hp1. eapply waiters_valid_frame; [|exact Hw].
      by eapply kernel_frame_trans.
    - by rewrite Hp1. }
  exists k1, mutex1, k2, mutex2. split_and!; try done.
  - lia.
  - by rewrite Hv2, Hv1.
Qed.

Lemma rt_mutex_recursion_witness :
  exists k1 mutex1 k2 mutex2,
    mutex_take_n 256 3 (rt_mutex_init RT_IPC_FLAG_FIFO) (-1) solo_kernel
      = Some (k1, mutex1) /\
    owner mutex1 = Some 0%nat /\
    hold mutex1 = 3 /\
    mutex_value mutex1 = 0 /\
    mutex_release_n 256 3 mutex1 k1 = Some (k2, mutex2) /\
    hold mutex2 = 0 /\
    mutex_value mutex2 = 1.
Proof.
  apply (rt_mutex_recursion 256 3 (rt_mutex_init RT_IPC_FLAG_FIFO) (-1) solo_kernel
           (thread_at 20 20 RT_THREAD_READY)).
  - reflexivity.
  - reflexivity.
  - reflexivity.
  - discriminate.
  - split; [constructor|]. intros H. exfalso. revert H. vm_compute. discriminate.
  - apply le_S, le_S, le_n.
  - reflexivity.
Defined.

(** C6 (failing input).  A thread takes a fresh mutex and releases it: the
    mutex is free again (value 1, hold 0), but its owner field still names
    the thread.  The thread acquires the free mutex once more ([N = 1]) and
    releases it: the take goes through the branch [mutex->owner == thread]
    and leaves the value at 1 while the thread holds the mutex, and the
    release ends with [hold == 0] and [value == 2], not 1. *)
Theorem rt_mutex_retake_after_release :
  exists k1 mutex1 k2 mutex2 k3 mutex3 k4 mutex4,
    rt_mutex_take 256 (rt_mutex_init RT_IPC_FLAG_FIFO) (-1) solo_kernel
      = Some (k1, mutex1, Returned RT_EOK) /\
    rt_mutex_release 256 mutex1 k1 = Some (k2, mutex2, RT_EOK) /\
    (mutex_value mutex2, hold mutex2, owner mutex2) = (1, 0, Some 0%nat) /\
    rt_mutex_take 256 mutex2 (-1) k2 = Some (k3, mutex3, Returned RT_EOK) /\
    (mutex_value mutex3, hold mutex3) = (1, 1) /\
    rt_mutex_release 256 mutex3 k3 = Some (k4, mutex4, RT_EOK) /\
    (mutex_value mutex4, hold mutex4) = (2, 0).
Proof.
  do 8 eexists.
  split; [vm_compute; reflexivity|].
  split; [vm_compute; reflexivity|].
  split; [vm_compute; reflexivity|].
  split; [vm_compute; reflexivity|].
  split; [vm_compute; reflexivity|].
  split; [vm_compute; reflexivity|].
  vm_compute; reflexivity.
Qed.

(** While the thread holds the mutex it has taken for the second time, the
    value is still 1: another thread that takes the mutex gets [RT_EOK] at
    once and becomes the owner, with two holds counted. *)
Lemma rt_mutex_retake_two_holders :
  exists k1 mutex1 k2 mutex2 k3 mutex3 k4 mutex4,
    rt_mutex_take 256 (rt_mutex_init RT_IPC_FLAG_FIFO) (-1) low_high_kernel
      = Some (k1, mutex1, Returned RT_EOK) /\
    rt_mutex_release 256 mutex1 k1 = Some (k2, mutex2, RT_EOK) /\
    rt_mutex_take 256 mutex2 (-1) k2 = Some (k3, mutex3, Returned RT_EOK) /\
    (mutex_value mutex3, hold mutex3, owner mutex3) = (1, 1, Some 0%nat) /\
    rt_mutex_take 256 mutex3 (-1) (switch_to 1%nat k3)
      = Some (k4, mutex4, Returned RT_EOK) /\
    (mutex_value mutex4, hold mutex4, owner mutex4) = (0, 2, Some 1%nat).
Proof.
  do 8 eexists.
  split; [vm_compute; reflexivity|].
  split; [vm_compute; reflexivity|].
  split; [vm_compute; reflexivity|].
  split; [vm_compute; reflexivity|].
  split; [vm_compute; reflexivity|].
  vm_compute; reflexivity.
Qed.

(** ** Event *)

Lemma c_true_spec x : c_true x = true <-> x <> 0.
Proof. unfold c_true. destruct (Z.eqb_spec x 0); simpl; split; congruence. Qed.

Lemma c_true_false x : c_true x = false <-> x = 0.
Proof. unfold c_true. destruct (Z.eqb_spec x 0); simpl; split; congruence. Qed.

(** The test of the source is the predicate of the specification. *)
Lemma event_status_spec info eset cur :
  event_status info eset cur = true <-> satisfied info eset cur.
Proof.
  unfold event_status, satisfied, and_mode, or_mode.
  destruct (c_true (Z.land info RT_EVENT_FLAG_AND)) eqn:Ea.
  - apply c_true_spec in Ea. rewrite Z.eqb_eq. split; [by left|].
    intros [[_ H]|[[H _] _]]; [done|by destruct Ea].
  - apply c_true_false in Ea.
    destruct (c_true (Z.land info RT_EVENT_FLAG_OR)) eqn:Eo.
    + apply c_true_spec in Eo. rewrite c_true_spec. split; [by right|].
      intros [[H _]|[_ H]]; [by destruct H|done].
    + apply c_true_false in Eo. split; [done|].
      intros [[H _]|[[_ H] _]]; [by destruct H|by destruct H].
Qed.

Lemma testbit_u32_high s n : is_u32 s -> 32 <= n -> Z.testbit s n = false.
Proof.
  intros Hs Hn. rewrite <- (Z.mod_small s (2 ^ 32)) by exact Hs.
  apply Z.mod_pow2_bits_high. lia.
Qed.

(** [set & ~eset] on 32-bit words clears the bits of [eset]. *)
Lemma land_lnot_u32 s e : is_u32 s -> Z.land s (wrap_u32 (Z.lnot e)) = Z.ldiff s e.
Proof.
  intros Hs. apply Z.bits_inj'. intros n Hn.
  rewrite Z.land_spec, Z.ldiff_spec. unfold wrap_u32.
  destruct (Z.lt_ge_cases n 32) as [Hlt|Hge].
  - rewrite Z.mod_pow2_bits_low by lia. by rewrite Z.lnot_spec.
  - by rewrite (testbit_u32_high s n), Z.mod_pow2_bits_high by (done || lia).
Qed.

Lemma ldiff_u32 s e : is_u32 s -> is_u32 (Z.ldiff s e).
Proof.
  intros Hs.
  assert (E : Z.ldiff s e = wrap_u32 (Z.ldiff s e)).
  { apply Z.bits_inj'. intros n Hn. unfold wrap_u32.
    destruct (Z.lt_ge_cases n 32) as [Hlt|Hge].
    - by rewrite Z.mod_pow2_bits_low by lia.
    - rewrite Z.mod_pow2_bits_high by lia.
      by rewrite Z.ldiff_spec, (testbit_u32_high s n). }
  rewrite E. apply wrap_u32_range.
Qed.

Lemma rt_list_remove_middle w l1 l2 :
  w ∉ l1 -> w ∉ l2 -> rt_list_remove w (l1 ++ w :: l2) = l1 ++ l2.
Proof.
  intros H1 H2. induction l1 as [|x l1 IH]; simpl.
  - unfold tid_eqb. rewrite Nat.eqb_refl. by apply rt_list_remove_id.
  - apply not_elem_of_cons in H1 as [Hne H1]. unfold tid_eqb.
    destruct (Nat.eqb_spec x w) as [->|_]; [done|]. by rewrite IH.
Qed.

Lemma cleared_eq info eset s :
  is_u32 s ->
  (if c_true (Z.land info RT_EVENT_FLAG_CLEAR)
   then Z.land s (wrap_u32 (Z.lnot eset)) else s) = cleared info eset s.
Proof.
  intros Hs. unfold cleared, c_true.
  destruct (Z.eqb_spec (Z.land info RT_EVENT_FLAG_CLEAR) 0) as [E|E]; simpl.
  - by rewrite decide_True.
  - rewrite decide_False by done. by apply land_lnot_u32.
Qed.

Lemma cleared_u32 info eset s : is_u32 s -> is_u32 (cleared info eset s).
Proof.
  intros Hs. unfold cleared. destruct (decide _); [done|by apply ldiff_u32].
Qed.

(** One turn of the loop at a satisfied waiter: the thread is resumed and
    unlinked, the count goes down, CLEAR takes the bits off the set. *)
Lemma event_send_step_wake k1 fl wl c s w t :
  deref k1 w = Some t -> stat t = RT_THREAD_SUSPEND ->
  satisfied (event_info t) (event_set t) s ->
  is_u32 s -> 1 <= c < 2 ^ 32 ->
  event_send_step w (k1, mk_event (mk_ipc fl wl c) s) =
    Some (set_ready (rt_thread_priority_table k1 ++ [w])
            (store w
               (set_stat RT_THREAD_READY
                  (set_thread_timer (mk_timer false (timer_init_tick (thread_timer t))) t))
               k1),
          mk_event (mk_ipc fl (rt_list_remove w wl) (c - 1))
            (cleared (event_info t) (event_set t) s)).
Proof.
  intros Hd Hs Hsat Hu Hc. unfold event_send_step. rewrite Hd. simpl.
  apply event_status_spec in Hsat. rewrite Hsat.
  rewrite (rt_thread_resume_suspended w wl k1 t) by done. simpl.
  rewrite deref_set_ready, deref_store_eq by eauto. simpl.
  rewrite cleared_eq by done.
  rewrite wrap_u32_id by (unfold is_u32; lia). reflexivity.
Qed.

Lemma event_send_step_keep k1 event w t :
  deref k1 w = Some t ->
  ~ satisfied (event_info t) (event_set t) (set event) ->
  event_send_step w (k1, event) = Some (k1, event).
Proof.
  intros Hd Hsat. unfold event_send_step. rewrite Hd. simpl.
  destruct (event_status _ _ _) eqn:E; [|done].
  apply event_status_spec in E. done.
Qed.

(** The loop of [rt_event_send] is the scan of the specification. *)
Lemma event_send_loop_scan k fl (ns : list tid) : forall kept0 k1 s c,
  NoDup (kept0 ++ ns) ->
  (forall w, w ∈ kept0 ++ ns -> deref k1 w = deref k w) ->
  all_suspended k ns ->
  is_u32 s -> Z.of_nat (length ns) <= c < 2 ^ 32 ->
  exists k' woken kept s',
    event_send_loop ns (k1, mk_event (mk_ipc fl (kept0 ++ ns) c) s) =
      Some (k', mk_event (mk_ipc fl (kept0 ++ kept) (c - Z.of_nat (length woken))) s') /\
    event_scan k s ns woken kept s' /\
    Forall (fun w => (stat <$> deref k' w) = Some RT_THREAD_READY) woken /\
    (forall w, w ∈ kept0 ++ kept -> deref k' w = deref k w) /\
    (forall w, w ∉ ns -> deref k' w = deref k1 w).
Proof.
  induction ns as [|w ns IH]; intros kept0 k1 s c Hnd Hsame Hsus Hs Hc.
  - exists k1, [], [], s. simpl. rewrite Z.sub_0_r.
    split; [done|]. split; [constructor|]. split; [constructor|]. done.
  - inversion Hsus as [|? ? (t & Hdw & Hst) Hsus']; subst.
    assert (Hd1 : deref k1 w = Some t).
    { rewrite Hsame; [done|]. apply elem_of_app. right. apply elem_of_cons. by left. }
    apply NoDup_app in Hnd as (Hnd0 & Hdisj & Hnd1).
    apply NoDup_cons in Hnd1 as [Hw Hnd1].
    assert (Hw0 : w ∉ kept0).
    { intros Hin. apply (Hdisj w Hin). apply elem_of_cons. by left. }
    simpl in Hc. cbn [event_send_loop].
    destruct (event_status (event_info t) (event_set t) s) eqn:Est.
    + apply event_status_spec in Est.
      rewrite (event_send_step_wake k1 fl _ c s w t) by (done || lia).
      cbn [mbind option_bind]. rewrite rt_list_remove_middle by done.
      set (k2 := set_ready _ _).
      destruct (IH kept0 k2 (cleared (event_info t) (event_set t) s) (c - 1))
        as (k' & woken & kept & s' & Hl & Hscan & Hwoken & Hkept & Hrest).
      { apply NoDup_app. split_and!; try done.
        intros x Hx Hx'. apply (Hdisj x Hx). apply elem_of_cons. by right. }
      { intros x Hx. unfold k2. rewrite deref_set_ready, deref_store_ne.
        - apply Hsame. apply elem_of_app in Hx as [Hx|Hx]; apply elem_of_app;
            [by left|right; apply elem_of_cons; by right].
        - intros ->. apply elem_of_app in Hx as [Hx|Hx]; done. }
      { done. }
      { by apply cleared_u32. }
      { lia. }
      exists k', (w :: woken), kept, s'. rewrite Hl.
      split.
      { replace (c - Z.of_nat (length (w :: woken)))
          with (c - 1 - Z.of_nat (length woken)) by (simpl length; lia).
        done. }
      split; [by eapply scan_wake|].
      split.
      { constructor; [|done]. rewrite Hrest by done. unfold k2.
        rewrite deref_set_ready, deref_store_eq by eauto. done. }
      split; [done|].
      intros x Hx. apply not_elem_of_cons in Hx as [Hne Hx].
      rewrite Hrest by done. unfold k2. by rewrite deref_set_ready, deref_store_ne.
    + assert (Hns : ~ satisfied (event_info t) (event_set t) s).
      { intros H. apply event_status_spec in H. congruence. }
      rewrite (event_send_step_keep k1 _ w t) by done.
      cbn [mbind option_bind].
      replace (kept0 ++ w :: ns) with ((kept0 ++ [w]) ++ ns) by (by rewrite <- app_assoc).
      destruct (IH (kept0 ++ [w]) k1 s c)
        as (k' & woken & kept & s' & Hl & Hscan & Hwoken & Hkept & Hrest).
      { rewrite <- app_assoc. simpl. apply NoDup_app. split_and!; try done.
        by apply NoDup_cons. }
      { intros x Hx. apply Hsame. by rewrite <- app_assoc in Hx. }
      { done. }
      { done. }
      { lia. }
      exists k', woken, (w :: kept), s'. rewrite Hl.
      split.
      { by rewrite <- app_assoc. }
      split; [by eapply scan_keep|].
      split; [done|].
      split.
      { intros x Hx. apply Hkept. by rewrite <- app_assoc. }
      intros x Hx. apply not_elem_of_cons in Hx as [Hne Hx]. by apply Hrest.
Qed.

Lemma lor_u32 a b : is_u32 a -> is_u32 b -> is_u32 (Z.lor a b).
Proof.
  intros Ha Hb.
  assert (E : Z.lor a b = wrap_u32 (Z.lor a b)).
  { apply Z.bits_inj'. intros n Hn. unfold wrap_u32.
    destruct (Z.lt_ge_cases n 32) as [Hlt|Hge].
    - by rewrite Z.mod_pow2_bits_low by lia.
    - rewrite Z.mod_pow2_bits_high by lia.
      by rewrite Z.lor_spec, (testbit_u32_high a n), (testbit_u32_high b n). }
  rewrite E. apply wrap_u32_range.
Qed.

(** C7.  [rt_event_send event set_] with a non-empty [set_] returns
    [RT_EOK]; it first ORs [set_] into the event set and then walks the
    suspend list from its head.  A waiter in AND mode is woken iff all bits
    of its [event_set] are in the event set at its turn, a waiter in OR mode
    iff one is; a woken waiter is resumed (READY, unlinked), the count goes
    down by one for it, and with CLEAR in its [event_info] the bits of its
    [event_set] leave the event set before the walk goes on; the other
    waiters stay in the list, in their order, and their thread objects are
    untouched. *)
Theorem rt_event_send_scan (event : rt_event) (set_ : Z) (k : kernel) :
  set_ <> 0 -> is_u32 set_ -> is_u32 (set event) ->
  NoDup (suspend_thread (event_parent event)) ->
  all_suspended k (suspend_thread (event_parent event)) ->
  Z.of_nat (length (suspend_thread (event_parent event)))
    <= suspend_thread_count (event_parent event) < 2 ^ 32 ->
  exists k' event' woken,
    rt_event_send event set_ k = Some (k', event', RT_EOK) /\
    event_scan k (Z.lor (set event) set_) (suspend_thread (event_parent event))
      woken (suspend_thread (event_parent event')) (set event') /\
    suspend_thread_count (event_parent event') =
      suspend_thread_count (event_parent event) - Z.of_nat (length woken) /\
    Forall (fun w => (stat <$> deref k' w) = Some RT_THREAD_READY) woken /\
    Forall (fun w => deref k' w = deref k w) (suspend_thread (event_parent event')).
Proof.
  intros Hnz Hset Hcur Hnd Hsus Hc. unfold rt_event_send.
  destruct (Z.eqb_spec set_ 0) as [?|_]; [done|]. simpl.
  destruct event as [[fl wl c] s]. simpl in *.
  destruct (Z.ltb_spec 0 c) as [Hpos|Hzero].
  - destruct (event_send_loop_scan k fl wl [] k (Z.lor s set_) c)
      as (k' & woken & kept & s' & Hl & Hscan & Hwoken & Hkept & _); try done.
    { by apply lor_u32. }
    simpl in Hl. rewrite Hl. simpl.
    exists k', (mk_event (mk_ipc fl kept (c - Z.of_nat (length woken))) s'), woken.
    split; [done|]. split; [done|]. split; [done|]. split; [done|].
    apply Forall_forall. intros w Hw. by apply Hkept.
  - destruct wl as [|w wl]; [|simpl in Hc; lia].
    exists k, (mk_event (mk_ipc fl [] c) (Z.lor s set_)), []. simpl.
    split; [done|]. split; [constructor|]. split; [lia|]. split; constructor.
Qed.

Lemma rt_event_send_scan_witness :
  exists k' event' woken,
    rt_event_send event_0001 2 event_kernel = Some (k', event', RT_EOK) /\
    event_scan event_kernel 3 [0%nat] woken (suspend_thread (event_parent event'))
      (set event') /\
    suspend_thread_count (event_parent event') = 1 - Z.of_nat (length woken) /\
    Forall (fun w => (stat <$> deref k' w) = Some RT_THREAD_READY) woken /\
    Forall (fun w => deref k' w = deref event_kernel w)
      (suspend_thread (event_parent event')).
Proof.
  apply (rt_event_send_scan event_0001 2 event_kernel).
  - discriminate.
  - vm_compute. split; [discriminate|reflexivity].
  - vm_compute. split; [discriminate|reflexivity].
  - apply NoDup_cons. split; [apply not_elem_of_nil|apply NoDup_nil; exact I].
  - constructor; [|constructor]. eexists. split; reflexivity.
  - vm_compute. split; [discriminate|reflexivity].
Defined.

(** The scenario "Event AND" of the specification: the receiver waits for
    0b0011 with AND and CLEAR; the event 0b0001 wakes nobody, the event
    0b0010 then wakes the receiver and the event set is empty. *)
Lemma rt_event_send_and_clear :
  rt_event_send (mk_event (mk_ipc RT_IPC_FLAG_FIFO [0%nat] 1) 0) 1 event_kernel
    = Some (event_kernel, event_0001, RT_EOK) /\
  exists k',
    rt_event_send event_0001 2 event_kernel
      = Some (k', mk_event (mk_ipc RT_IPC_FLAG_FIFO [] 0) 0, RT_EOK) /\
    (stat <$> deref k' 0%nat) = Some RT_THREAD_READY.
Proof.
  split; [vm_compute; reflexivity|].
  eexists. split; vm_compute; reflexivity.
Qed.

(** ** Mailbox *)

(** The wake-up of the head of a well-formed wait queue. *)
Lemma rt_ipc_object_resume_head ipc k w ws :
  wait_queue_inv k ipc -> suspend_thread ipc = w :: ws ->
  exists k',
    rt_ipc_object_resume ipc k =
      Some (k', mk_ipc (flag ipc) ws (suspend_thread_count ipc - 1)) /\
    (stat <$> deref k' w) = Some RT_THREAD_READY /\
    (forall i, i <> w -> deref k' i = deref k i).
Proof.
  intros (Hc & Hu & Hnd & Hsus) Hl. unfold rt_ipc_object_resume.
  rewrite Hl in *. apply NoDup_cons in Hnd as [Hw _].
  inversion Hsus as [|? ? (t & Hd & Hst) _]; subst.
  rewrite (rt_thread_resume_suspended w (w :: ws) k t) by done.
  rewrite rt_list_remove_head by done. cbn [mbind option_bind].
  rewrite wrap_u32_id by (unfold is_u32 in *; simpl length in Hc; lia).
  eexists. split; [reflexivity|]. split.
  - rewrite deref_set_ready, deref_store_eq by eauto. done.
  - intros i Hi. by rewrite deref_set_ready, deref_store_ne.
Qed.

(** [rt_mb_send] on a mailbox that is not full. *)
Lemma rt_mb_send_stores mb value k :
  mb_inv mb -> is_u32 value -> wait_queue_inv k (mb_parent mb) ->
  entry mb <> size mb ->
  exists k' ipc',
    rt_mb_send mb value k =
      Some (k', mk_mb ipc' (<[Z.to_nat (in_offset mb) := value]> (msg_pool mb))
                  (size mb) (entry mb + 1) ((in_offset mb + 1) mod size mb)
                  (out_offset mb), RT_EOK) /\
    (suspend_thread (mb_parent mb) = [] -> k' = k /\ ipc' = mb_parent mb) /\
    (forall w ws, suspend_thread (mb_parent mb) = w :: ws ->
       ipc' = mk_ipc (flag (mb_parent mb)) ws (suspend_thread_count (mb_parent mb) - 1) /\
       (stat <$> deref k' w) = Some RT_THREAD_READY /\
       (forall i, i <> w -> deref k' i = deref k i)).
Proof.
  intros (Hsz & Hlen & He & Hin0 & Hin & _) Hv Hq Hne.
  unfold is_u32 in *. assert (Hpos : 0 < size mb) by lia. specialize (Hin Hpos).
  unfold rt_mb_send.
  destruct (Z.eqb_spec (entry mb) (size mb)) as [?|_]; [done|].
  unfold pool_write.
  destruct (Z.leb_spec 0 (in_offset mb)); [|lia].
  destruct (Z.ltb_spec (in_offset mb) (Z.of_nat (length (msg_pool mb)))); [|lia].
  simpl. unfold c_umod.
  destruct (Z.eqb_spec (size mb) 0) as [?|_]; [lia|]. simpl.
  rewrite !wrap_u32_id by (unfold is_u32; lia).
  destruct (suspend_thread (mb_parent mb)) as [|w ws] eqn:El.
  - destruct Hq as (Hc & _). rewrite El in Hc. simpl in Hc. rewrite Hc. simpl.
    exists k, (mb_parent mb). split; [done|]. split; [done|]. intros ? ? [=].
  - destruct (rt_ipc_object_resume_head (mb_parent mb) k w ws Hq El)
      as (k' & Hr & Hst & Hoth).
    destruct Hq as (Hc & _). rewrite El in Hc. simpl length in Hc.
    destruct (Z.ltb_spec 0 (suspend_thread_count (mb_parent mb))); [|lia].
    rewrite Hr. simpl. eexists _, _. split; [reflexivity|]. split; [done|].
    intros ? ? [= <- <-]. done.
Qed.

Lemma mb_full_scenario_codes pool flag v1 v2 v3 v4 timeout k :
  length pool = 2%nat ->
  is_u32 v1 -> is_u32 v2 -> is_u32 v3 -> is_u32 v4 ->
  mb_full_scenario (rt_mb_init pool 2 flag) v1 v2 v3 v4 timeout k =
    Some ([RT_EOK; RT_EOK; - RT_EFULL; RT_EOK; RT_EOK], Some v1).
Proof.
  intros Hl H1 H2 H3 H4.
  destruct pool as [|a [|b [|c pool]]]; try discriminate Hl.
  unfold mb_full_scenario, rt_mb_init, rt_mb_send, rt_mb_recv, mb_fetch,
    pool_write, pool_read, c_umod.
  simpl. rewrite !wrap_u32_id by done. reflexivity.
Qed.

(** C8.  On a mailbox that satisfies its invariant, with a well-formed
    wait queue: [rt_mb_send] returns [-RT_EFULL] exactly when
    [entry == size], and then kernel and mailbox (entry, offsets, pool, wait
    queue) are untouched; otherwise it returns [RT_EOK], the mail is at
    [msg_pool[in_offset]], [in_offset] has moved on modulo [size], [entry]
    is one up, and the head of the wait queue, when there is one, is resumed
    and unlinked (no thread is touched when there is none).  On a mailbox of
    capacity 2 two sends succeed, the third returns [-RT_EFULL], a receive
    then returns the first mail, and one more send succeeds. *)
Theorem rt_mb_send_full_or_stored (mb : rt_mailbox) (value : Z) (k : kernel) :
  mb_inv mb -> is_u32 value -> wait_queue_inv k (mb_parent mb) ->
  (entry mb = size mb -> rt_mb_send mb value k = Some (k, mb, - RT_EFULL)) /\
  (entry mb <> size mb ->
     exists k' ipc',
       rt_mb_send mb value k =
         Some (k', mk_mb ipc' (<[Z.to_nat (in_offset mb) := value]> (msg_pool mb))
                     (size mb) (entry mb + 1) ((in_offset mb + 1) mod size mb)
                     (out_offset mb), RT_EOK) /\
       (suspend_thread (mb_parent mb) = [] -> k' = k /\ ipc' = mb_parent mb) /\
       (forall w ws, suspend_thread (mb_parent mb) = w :: ws ->
          ipc' = mk_ipc (flag (mb_parent mb)) ws
                   (suspend_thread_count (mb_parent mb) - 1) /\
          (stat <$> deref k' w) = Some RT_THREAD_READY /\
          (forall i, i <> w -> deref k' i = deref k i))) /\
  (forall k' mb' err,
     rt_mb_send mb value k = Some (k', mb', err) ->
     (err = - RT_EFULL <-> entry mb = size mb)) /\
  (forall pool flag v1 v2 v3 v4 timeout,
     length pool = 2%nat ->
     is_u32 v1 -> is_u32 v2 -> is_u32 v3 -> is_u32 v4 ->
     mb_full_scenario (rt_mb_init pool 2 flag) v1 v2 v3 v4 timeout k =
       Some ([RT_EOK; RT_EOK; - RT_EFULL; RT_EOK; RT_EOK], Some v1)).
Proof.
  intros Hinv Hv Hq.
  assert (Hfull : entry mb = size mb -> rt_mb_send mb value k = Some (k, mb, - RT_EFULL)).
  { intros E. unfold rt_mb_send. by destruct (Z.eqb_spec (entry mb) (size mb)). }
  split; [exact Hfull|].
  split; [by apply rt_mb_send_stores|].
  split.
  - intros k' mb' err Hr. destruct (Z.eq_dec (entry mb) (size mb)) as [E|E].
    + rewrite (Hfull E) in Hr. injection Hr as <- <- <-. done.
    + destruct (rt_mb_send_stores mb value k Hinv Hv Hq E) as (k1 & ipc1 & Hs & _).
      rewrite Hs in Hr. injection Hr as <- <- <-. split; [discriminate|done].
  - intros. by apply mb_full_scenario_codes.
Qed.

Lemma rt_mb_send_full_or_stored_witness :
  rt_mb_send (mk_mb (mk_ipc RT_IPC_FLAG_FIFO [] 0) [7; 8] 2 2 0 0) 9 solo_kernel =
    Some (solo_kernel, mk_mb (mk_ipc RT_IPC_FLAG_FIFO [] 0) [7; 8] 2 2 0 0, - RT_EFULL) /\
  mb_full_scenario (rt_mb_init [0; 0] 2 RT_IPC_FLAG_FIFO) 7 8 9 10 0 solo_kernel =
    Some ([RT_EOK; RT_EOK; - RT_EFULL; RT_EOK; RT_EOK], Some 7).
Proof.
  assert (Hu : forall x, (0 <=? x) && (x <? 2 ^ 32) = true -> is_u32 x).
  { intros x H. apply andb_prop in H as [H1 H2].
    split; [apply Z.leb_le, H1|apply Z.ltb_lt, H2]. }
  assert (Hinv : mb_inv (mk_mb (mk_ipc RT_IPC_FLAG_FIFO [] 0) [7; 8] 2 2 0 0)).
  { unfold mb_inv. simpl. repeat split; try (apply Hu; reflexivity);
      try discriminate; try reflexivity. }
  assert (Hq : wait_queue_inv solo_kernel
                 (mb_parent (mk_mb (mk_ipc RT_IPC_FLAG_FIFO [] 0) [7; 8] 2 2 0 0))).
  { unfold wait_queue_inv. simpl. split; [reflexivity|].
    split; [apply Hu; reflexivity|]. split; [apply NoDup_nil; exact I|constructor]. }
  destruct (rt_mb_send_full_or_stored _ 9 solo_kernel Hinv (Hu 9 eq_refl) Hq)
    as (H1 & _ & _ & H4).
  split.
  - apply H1. reflexivity.
  - apply H4; try reflexivity; apply Hu; reflexivity.
Defined.

(** ** Message queue *)

Lemma lseg_frame pool p l r a m :
  a ∉ l -> lseg pool p l r -> lseg (<[a := m]> pool) p l r.
Proof.
  revert p. induction l as [|x l IH]; intros p Ha H; simpl in *; [done|].
  apply not_elem_of_cons in Ha as [Hne Ha].
  destruct H as (-> & mx & Hx & H). split; [done|].
  exists mx. split; [|by apply IH]. by rewrite list_lookup_insert_ne.
Qed.

Lemma lseg_app pool p l1 l2 r :
  lseg pool p (l1 ++ l2) r <-> exists mid, lseg pool p l1 mid /\ lseg pool mid l2 r.
Proof.
  revert p. induction l1 as [|x l1 IH]; intros p; simpl.
  - split; [intros H; by exists p|intros (mid & -> & H); done].
  - split.
    + intros (-> & m & Hm & H). apply IH in H as (mid & H1 & H2).
      exists mid. split; [|done]. split; [done|]. by exists m.
    + intros (mid & (-> & m & Hm & H1) & H2). split; [done|].
      exists m. split; [done|]. apply IH. by exists mid.
Qed.

Lemma lseg_lookup pool p l r a :
  lseg pool p l r -> a ∈ l -> is_Some (pool !! a).
Proof.
  revert p. induction l as [|x l IH]; intros p H Ha; simpl in *.
  - by apply elem_of_nil in Ha.
  - destruct H as (-> & m & Hm & H). apply elem_of_cons in Ha as [->|Ha]; eauto.
Qed.

(** A cell chain that ends at the cell [t], whose [next] is NULL. *)
Lemma linked_snoc_inv pool p l t :
  linked pool p (l ++ [t]) ->
  lseg pool p l (Some t) /\ exists m, pool !! t = Some m /\ next m = None.
Proof.
  unfold linked. rewrite lseg_app. intros (mid & H1 & H2). simpl in H2.
  destruct H2 as (-> & m & Hm & Hn). split; [done|]. by exists m.
Qed.

Lemma last_is_snoc (l : list nat) t : last l = Some t -> exists l', l = l' ++ [t].
Proof.
  intros H. destruct l as [|x l] using rev_ind; [done|].
  rewrite last_snoc in H. injection H as ->. by exists l.
Qed.

Lemma perm_NoDup_seq (l : list nat) n : l ≡ₚ seq 0 n -> NoDup l.
Proof. intros H. rewrite H. apply NoDup_seq. Qed.

Lemma rt_memcpy_length dst src n data :
  rt_memcpy dst src n = Some data -> length data = length dst.
Proof.
  unfold rt_memcpy. intros H.
  destruct ((0 <=? n) && (n <=? Z.of_nat (length src)) && (n <=? Z.of_nat (length dst)))
    eqn:E; [|done].
  injection H as <-. apply andb_prop in E as [E E3]. apply andb_prop in E as [E1 E2].
  apply Z.leb_le in E1, E2, E3.
  rewrite length_app, length_take, length_drop. lia.
Qed.

Lemma rt_memcpy_total dst src n :
  0 <= n <= Z.of_nat (length src) -> n <= Z.of_nat (length dst) ->
  is_Some (rt_memcpy dst src n).
Proof.
  intros [H1 H2] H3. unfold rt_memcpy.
  destruct (Z.leb_spec 0 n); [|lia].
  destruct (Z.leb_spec n (Z.of_nat (length src))); [|lia].
  destruct (Z.leb_spec n (Z.of_nat (length dst))); [|lia]. simpl. eauto.
Qed.


Lemma set_next_inv p a pool pool' :
  set_next p a pool = Some pool' ->
  exists m, pool !! a = Some m /\ pool' = <[a := mk_msg p (payload m)]> pool.
Proof.
  unfold set_next. intros H. destruct (pool !! a) as [m|] eqn:E; [|done].
  injection H as <-. by exists m.
Qed.

Lemma set_next_total p a pool :
  is_Some (pool !! a) -> is_Some (set_next p a pool).
Proof. intros [m H]. unfold set_next. rewrite H. simpl. eauto. Qed.

Lemma lookup_insert_same (pool : list rt_mq_message) a m :
  is_Some (pool !! a) -> <[a := m]> pool !! a = Some m.
Proof. intros H. apply list_lookup_insert_eq. by apply lookup_lt_is_Some. Qed.

Lemma linked_nil_inv pool p : linked pool p [] -> p = None.
Proof. done. Qed.

Lemma linked_cons_inv pool a p l :
  linked pool p l -> p = Some a ->
  exists l' m, l = a :: l' /\ pool !! a = Some m /\ linked pool (next m) l'.
Proof.
  intros H ->. destruct l as [|x l]; [done|].
  destruct H as ([= <-] & m & Hm & H). by exists l, m.
Qed.

Lemma last_None_nil (l : list nat) : last l = None -> l = [].
Proof. destruct l as [|x l] using rev_ind; [done|]. by rewrite last_snoc. Qed.

(** The cells of the two lists are counted by [max_msgs]. *)
Lemma mq_cells_length (fl q : list nat) n :
  fl ++ q ≡ₚ seq 0 n -> (length fl + length q = n)%nat.
Proof. intros H. apply Permutation_length in H. by rewrite length_app, length_seq in H. Qed.

(** Linking the cell taken from the free list behind the tail. *)
Lemma mq_inv_append mq ipc msg m data pool2 pool3 :
  mq_inv mq ->
  msg_queue_free mq = Some msg ->
  mq_pool mq !! msg = Some m ->
  length data = length (payload m) ->
  match msg_queue_tail mq with
  | Some tail => set_next (Some msg) tail (<[msg := mk_msg (next m) data]> (mq_pool mq))
  | None => Some (<[msg := mk_msg (next m) data]> (mq_pool mq))
  end = Some pool2 ->
  set_next None msg pool2 = Some pool3 ->
  mq_inv (mk_mq ipc pool3 (msg_size mq) (max_msgs mq)
            (match msg_queue_head mq with None => Some msg | Some h => Some h end)
            (Some msg) (next m) (wrap_u32 (mq_entry mq + 1))).
Proof.
  intros (fl & q & (Hfl & Hq & Htail) & Hperm & Hentry & Hmax & Hpay) Hfree Hm Hdata H2 H3.
  destruct (linked_cons_inv _ msg _ _ Hfl Hfree) as (fl' & m' & -> & Hm' & Hfl').
  rewrite Hm in Hm'. injection Hm' as <-.
  pose proof (perm_NoDup_seq _ _ Hperm) as Hnd. simpl in Hnd.
  apply NoDup_cons in Hnd as [Hmsg Hnd].
  apply not_elem_of_app in Hmsg as [Hmsg_fl Hmsg_q].
  apply NoDup_app in Hnd as (Hnd_fl & Hdisj & Hnd_q).
  pose proof (mq_cells_length _ _ _ Hperm) as Hlen. simpl in Hlen.
  assert (Hsize : Z.of_nat (length (payload m)) = msg_size mq).
  { by eapply (Forall_lookup_1 _ _ _ _ Hpay). }
  set (pool1 := <[msg := mk_msg (next m) data]> (mq_pool mq)) in *.
  assert (Hpay1 : Forall (fun c => Z.of_nat (length (payload c)) = msg_size mq) pool1).
  { apply Forall_insert; [done|]. simpl. by rewrite Hdata. }
  apply set_next_inv in H3 as (m2 & Hm2 & ->).
  exists fl', (q ++ [msg]). simpl. split_and!.
  - (* the lists *)
    destruct (msg_queue_tail mq) as [t|] eqn:Et.
    + symmetry in Htail. apply last_is_snoc in Htail as (q0 & ->).
      apply set_next_inv in H2 as (mt & Hmt & ->).
      assert (Ht_fl : t ∉ fl').
      { intros Hin. apply (Hdisj t Hin). apply elem_of_app. right. by apply list_elem_of_singleton. }
      assert (Hne : msg <> t).
      { intros ->. apply Hmsg_q. apply elem_of_app. right. by apply list_elem_of_singleton. }
      apply NoDup_app in Hnd_q as (_ & Hq0 & _).
      assert (Ht_q0 : t ∉ q0).
      { intros Hin. apply (Hq0 t Hin). by apply list_elem_of_singleton. }
      assert (Hmsg_q0 : msg ∉ q0).
      { intros Hin. apply Hmsg_q. apply elem_of_app. by left. }
      apply linked_snoc_inv in Hq as (Hseg & mt0 & Hmt0 & Hnext).
      split_and!.
      * unfold linked. do 3 (apply lseg_frame; [done|]). exact Hfl'.
      * destruct q0 as [|h q0'].
        -- simpl in Hseg. rewrite Hseg. simpl. split; [done|].
           eexists. split.
           { rewrite list_lookup_insert_ne by done. apply lookup_insert_same.
             unfold pool1. rewrite list_lookup_insert_ne by done. eauto. }
           simpl. split; [done|]. exists (mk_msg None (payload m2)). split; [|done].
           apply lookup_insert_same. eauto.
        -- destruct Hseg as (Hh & Hrest). rewrite Hh.
           unfold linked. rewrite <- app_assoc. apply lseg_app. exists (Some t).
           split.
           { do 3 (apply lseg_frame; [done|]). split; [done|]. exact Hrest. }
           simpl. split; [done|]. eexists. split.
           { rewrite list_lookup_insert_ne by done. apply lookup_insert_same.
             unfold pool1. rewrite list_lookup_insert_ne by done. eauto. }
           simpl. split; [done|]. exists (mk_msg None (payload m2)). split; [|done].
           apply lookup_insert_same. eauto.
      * by rewrite last_snoc.
    + symmetry in Htail. apply last_None_nil in Htail as ->.
      apply linked_nil_inv in Hq. rewrite Hq. injection H2 as <-.
      split_and!.
      * unfold linked. do 2 (apply lseg_frame; [done|]). exact Hfl'.
      * simpl. split; [done|]. exists (mk_msg None (payload m2)). split; [|done].
        apply lookup_insert_same. eauto.
      * done.
  - rewrite app_assoc, <- Permutation_cons_append. exact Hperm.
  - rewrite length_app. simpl length. rewrite Hentry.
    rewrite wrap_u32_id; [lia|]. unfold is_u32 in *. lia.
  - done.
  - apply Forall_insert.
    + destruct (msg_queue_tail mq) as [t|].
      * apply set_next_inv in H2 as (mt & Hmt & ->).
        apply Forall_insert; [done|]. simpl.
        by eapply (Forall_lookup_1 _ _ _ _ Hpay1).
      * by injection H2 as <-.
    + simpl. revert Hm2. destruct (msg_queue_tail mq) as [t|].
      * apply set_next_inv in H2 as (mt & Hmt & ->). intros Hm2.
        assert (Hp2 : Forall (fun c => Z.of_nat (length (payload c)) = msg_size mq)
                        (<[t := mk_msg (Some msg) (payload mt)]> pool1)).
        { apply Forall_insert; [done|]. simpl. by eapply (Forall_lookup_1 _ _ _ _ Hpay1). }
        by eapply (Forall_lookup_1 _ _ _ _ Hp2).
      * injection H2 as <-. intros Hm2. by eapply (Forall_lookup_1 _ _ _ _ Hpay1).
Qed.

(** Linking the cell taken from the free list in front of the head. *)
Lemma mq_inv_prepend mq ipc msg m data :
  mq_inv mq ->
  msg_queue_free mq = Some msg ->
  mq_pool mq !! msg = Some m ->
  length data = length (payload m) ->
  mq_inv (mk_mq ipc (<[msg := mk_msg (msg_queue_head mq) data]> (mq_pool mq))
            (msg_size mq) (max_msgs mq) (Some msg)
            (match msg_queue_tail mq with None => Some msg | Some t => Some t end)
            (next m) (wrap_u32 (mq_entry mq + 1))).
Proof.
  intros (fl & q & (Hfl & Hq & Htail) & Hperm & Hentry & Hmax & Hpay) Hfree Hm Hdata.
  destruct (linked_cons_inv _ msg _ _ Hfl Hfree) as (fl' & m' & -> & Hm' & Hfl').
  rewrite Hm in Hm'. injection Hm' as <-.
  pose proof (perm_NoDup_seq _ _ Hperm) as Hnd. simpl in Hnd.
  apply NoDup_cons in Hnd as [Hmsg Hnd].
  apply not_elem_of_app in Hmsg as [Hmsg_fl Hmsg_q].
  pose proof (mq_cells_length _ _ _ Hperm) as Hlen. simpl in Hlen.
  assert (Hsize : Z.of_nat (length (payload m)) = msg_size mq).
  { by eapply (Forall_lookup_1 _ _ _ _ Hpay). }
  exists fl', (msg :: q). simpl. split_and!.
  - split_and!.
    + unfold linked. by apply lseg_frame.
    + simpl. split; [done|]. exists (mk_msg (msg_queue_head mq) data).
      split; [apply lookup_insert_same; eauto|].
      simpl. by apply lseg_frame.
    + rewrite Htail. destruct q as [|x q] using rev_ind; [done|].
      rewrite last_snoc. change (msg :: q ++ [x]) with ((msg :: q) ++ [x]).
      by rewrite last_snoc.
  - rewrite <- Permutation_middle. exact Hperm.
  - simpl length. rewrite Hentry.
    rewrite wrap_u32_id; [lia|]. unfold is_u32 in *. lia.
  - done.
  - apply Forall_insert; [done|]. simpl. by rewrite Hdata.
Qed.

Lemma ptr_eqb_spec a b : ptr_eqb a b = true <-> a = b.
Proof.
  destruct a as [x|], b as [y|]; simpl; try (split; congruence).
  rewrite Nat.eqb_eq. split; congruence.
Qed.

(** Taking the head of the FIFO to the free list. *)
Lemma mq_inv_fetch mq buffer size mq' buffer' :
  mq_inv mq ->
  mq_fetch mq buffer size = Some (mq', buffer') ->
  mq_inv mq'.
Proof.
  intros (fl & q & (Hfl & Hq & Htail) & Hperm & Hentry & Hmax & Hpay) H.
  unfold mq_fetch in H.
  destruct (msg_queue_head mq) as [msg|] eqn:Eh; [|done]. simpl in H.
  destruct (mq_pool mq !! msg) as [m|] eqn:Em; [|done]. simpl in H.
  destruct (rt_memcpy _ _ _) as [b|]; [|done]. simpl in H.
  destruct (set_next _ _ _) as [pool|] eqn:Es; [|done]. simpl in H.
  injection H as <- <-.
  apply set_next_inv in Es as (m0 & Hm0 & ->).
  rewrite Em in Hm0. injection Hm0 as <-.
  destruct (linked_cons_inv _ msg _ _ Hq eq_refl) as (q' & m' & -> & Hm' & Hq').
  rewrite Em in Hm'. injection Hm' as <-.
  pose proof (perm_NoDup_seq _ _ Hperm) as Hnd.
  apply NoDup_app in Hnd as (Hnd_fl & Hdisj & Hnd_q).
  apply NoDup_cons in Hnd_q as [Hmsg_q Hnd_q].
  assert (Hmsg_fl : msg ∉ fl).
  { intros Hin. apply (Hdisj msg Hin). apply elem_of_cons. by left. }
  pose proof (mq_cells_length _ _ _ Hperm) as Hlen. simpl in Hlen.
  exists (msg :: fl), q'. simpl. split_and!.
  - split_and!.
    + simpl. split; [done|]. exists (mk_msg (msg_queue_free mq) (payload m)).
      split; [apply lookup_insert_same; eauto|]. simpl. by apply lseg_frame.
    + unfold linked. by apply lseg_frame.
    + rewrite Htail. destruct q' as [|x q'] using rev_ind.
      * simpl. by rewrite Nat.eqb_refl.
      * change (msg :: q' ++ [x]) with ((msg :: q') ++ [x]).
        rewrite !last_snoc. simpl.
        destruct (Nat.eqb_spec x msg) as [->|]; [|done].
        destruct Hmsg_q. apply elem_of_app. right. by apply list_elem_of_singleton.
  - rewrite Permutation_middle. exact Hperm.
  - rewrite Hentry. simpl length.
    rewrite wrap_u32_id; [lia|]. unfold is_u32 in *. lia.
  - done.
  - apply Forall_insert; [done|]. simpl. by eapply (Forall_lookup_1 _ _ _ _ Hpay).
Qed.

Lemma mq_inv_parent mq ipc :
  mq_inv mq ->
  mq_inv (mk_mq ipc (mq_pool mq) (msg_size mq) (max_msgs mq) (msg_queue_head mq)
            (msg_queue_tail mq) (msg_queue_free mq) (mq_entry mq)).
Proof. intros (fl & q & H). by exists fl, q. Qed.

(** [rt_mq_send] keeps the invariant. *)
Lemma rt_mq_send_inv mq buffer size k k' mq' err :
  mq_inv mq -> rt_mq_send mq buffer size k = Some (k', mq', err) -> mq_inv mq'.
Proof.
  intros Hinv H. unfold rt_mq_send in H.
  destruct (msg_size mq <? size); [by injection H as <- <- <-|].
  destruct (msg_queue_free mq) as [msg|] eqn:Ef; [|by injection H as <- <- <-].
  destruct (mq_pool mq !! msg) as [m|] eqn:Em; [|done]. simpl in H.
  destruct (rt_memcpy (payload m) buffer size) as [data|] eqn:Ed; [|done]. simpl in H.
  bind_inv H. injection H as <- <- <-.
  match goal with
  | H2 : _ = Some ?p2, H3 : set_next None msg ?p2 = Some ?p3 |- _ =>
      apply (mq_inv_append mq _ msg m data p2 p3); try done
  end.
  by eapply rt_memcpy_length.
Qed.

(** [rt_mq_urgent] keeps the invariant. *)
Lemma rt_mq_urgent_inv mq buffer size k k' mq' err :
  mq_inv mq -> rt_mq_urgent mq buffer size k = Some (k', mq', err) -> mq_inv mq'.
Proof.
  intros Hinv H. unfold rt_mq_urgent in H.
  destruct (msg_size mq <? size); [by injection H as <- <- <-|].
  destruct (msg_queue_free mq) as [msg|] eqn:Ef; [|by injection H as <- <- <-].
  destruct (mq_pool mq !! msg) as [m|] eqn:Em; [|done]. simpl in H.
  destruct (rt_memcpy (payload m) buffer size) as [data|] eqn:Ed; [|done]. simpl in H.
  bind_inv H. injection H as <- <- <-.
  apply (mq_inv_prepend mq _ msg m data); try done.
  by eapply rt_memcpy_length.
Qed.

(** [rt_mq_recv] keeps the invariant, when it returns and when it blocks. *)
Lemma rt_mq_recv_inv mq buffer size timeout k k' mq' st buffer' :
  mq_inv mq ->
  rt_mq_recv mq buffer size timeout k = Some (k', mq', st, buffer') -> mq_inv mq'.
Proof.
  intros Hinv H. unfold rt_mq_recv in H.
  destruct (mq_entry mq =? 0).
  - destruct (deref k (rt_thread_self k)) as [t|]; [|done]. simpl in H.
    destruct (timeout =? 0).
    + bind_inv H. by injection H as <- <- <- <-.
    + bind_inv H. injection H as <- <- <- <-. by apply mq_inv_parent.
  - destruct (mq_fetch mq buffer size) as [[mq1 b1]|] eqn:E; [|done]. simpl in H.
    injection H as <- <- <- <-. by eapply mq_inv_fetch.
Qed.

(** So does the part of [rt_mq_recv] behind [rt_schedule()]. *)
Lemma rt_mq_recv_resumed_inv mq buffer size thread k k' mq' err buffer' :
  mq_inv mq ->
  rt_mq_recv_resumed mq buffer size thread k = Some (k', mq', err, buffer') -> mq_inv mq'.
Proof.
  intros Hinv H. unfold rt_mq_recv_resumed in H.
  destruct (deref k thread) as [t|]; [|done]. simpl in H.
  destruct (negb (error t =? RT_EOK)).
  - injection H as <- <- <- <-. by apply mq_inv_parent.
  - destruct (mq_fetch mq buffer size) as [[mq1 b1]|] eqn:E; [|done]. simpl in H.
    injection H as <- <- <- <-. by eapply mq_inv_fetch.
Qed.

Lemma is_Some_insert (pool : list rt_mq_message) a b m :
  is_Some (pool !! a) -> is_Some (<[b := m]> pool !! a).
Proof. rewrite !lookup_lt_is_Some, length_insert. done. Qed.

Lemma mq_wake_total ipc k : wait_queue_ok k ipc -> is_Some (mq_wake ipc k).
Proof.
  intros [Hw Hq]. unfold mq_wake.
  destruct (Z.ltb_spec 0 (suspend_thread_count ipc)); [|eauto].
  destruct (rt_ipc_object_resume_frame ipc k Hw (Hq H)) as (k' & ipc' & -> & _). eauto.
Qed.

(** On a queue under its invariant [rt_mq_send] returns: no pointer it
    follows is NULL or wild, no copy leaves its buffer. *)
Lemma rt_mq_send_total mq buffer size k :
  mq_inv mq -> wait_queue_ok k (mq_parent mq) ->
  0 <= size <= Z.of_nat (length buffer) ->
  is_Some (rt_mq_send mq buffer size k).
Proof.
  intros (fl & q & (Hfl & Hq & Htail) & Hperm & Hentry & Hmax & Hpay) Hw Hsz.
  unfold rt_mq_send.
  destruct (Z.ltb_spec (msg_size mq) size); [eauto|].
  destruct (msg_queue_free mq) as [msg|] eqn:Ef; [|eauto].
  destruct (linked_cons_inv _ msg _ _ Hfl eq_refl) as (fl' & m & -> & Hm & Hfl').
  rewrite Hm. simpl.
  destruct (rt_memcpy_total (payload m) buffer size) as [data ->]; [done| |].
  { rewrite (Forall_lookup_1 _ _ _ _ Hpay Hm). done. }
  simpl.
  assert (Hmsg : forall pool', is_Some (pool' !! msg) ->
            is_Some (set_next None msg pool' ≫= fun pool3 =>
              mq_wake (mq_parent mq) k ≫= fun '(k1, ipc) =>
                Some (k1, mk_mq ipc pool3 (msg_size mq) (max_msgs mq)
                            (match msg_queue_head mq with
                             | None => Some msg | Some h => Some h end)
                            (Some msg) (next m) (wrap_u32 (mq_entry mq + 1)), RT_EOK))).
  { intros pool' Hp. destruct (set_next_total None msg pool' Hp) as [pool3 ->]. simpl.
    destruct (mq_wake_total _ _ Hw) as [[k1 ipc] ->]. simpl. eauto. }
  destruct (msg_queue_tail mq) as [t|] eqn:Et.
  - assert (Ht : is_Some (mq_pool mq !! t)).
    { eapply lseg_lookup; [exact Hq|]. symmetry in Htail.
      apply last_is_snoc in Htail as (q0 & ->). apply elem_of_app. right.
      by apply list_elem_of_singleton. }
    destruct (set_next_total (Some msg) t
                (<[msg := mk_msg (next m) data]> (mq_pool mq))) as [pool2 E2].
    { by apply is_Some_insert. }
    rewrite E2. cbn [mbind option_bind]. apply Hmsg.
    apply set_next_inv in E2 as (mt & _ & ->). do 2 apply is_Some_insert. eauto.
  - cbn [mbind option_bind]. apply Hmsg. apply is_Some_insert. eauto.
Qed.

Lemma rt_mq_urgent_total mq buffer size k :
  mq_inv mq -> wait_queue_ok k (mq_parent mq) ->
  0 <= size <= Z.of_nat (length buffer) ->
  is_Some (rt_mq_urgent mq buffer size k).
Proof.
  intros (fl & q & (Hfl & Hq & Htail) & Hperm & Hentry & Hmax & Hpay) Hw Hsz.
  unfold rt_mq_urgent.
  destruct (Z.ltb_spec (msg_size mq) size); [eauto|].
  destruct (msg_queue_free mq) as [msg|] eqn:Ef; [|eauto].
  destruct (linked_cons_inv _ msg _ _ Hfl eq_refl) as (fl' & m & -> & Hm & Hfl').
  rewrite Hm. simpl.
  destruct (rt_memcpy_total (payload m) buffer size) as [data ->]; [done| |].
  { rewrite (Forall_lookup_1 _ _ _ _ Hpay Hm). done. }
  simpl. destruct (mq_wake_total _ _ Hw) as [[k1 ipc] ->]. simpl. eauto.
Qed.

(** A receive from a queue that holds a message returns. *)
Lemma rt_mq_recv_total mq buffer size timeout k :
  mq_inv mq -> mq_entry mq <> 0 ->
  0 <= size <= Z.of_nat (length buffer) ->
  is_Some (rt_mq_recv mq buffer size timeout k).
Proof.
  intros (fl & q & (Hfl & Hq & Htail) & Hperm & Hentry & Hmax & Hpay) Hne Hsz.
  unfold rt_mq_recv.
  destruct (Z.eqb_spec (mq_entry mq) 0) as [?|_]; [done|].
  unfold mq_fetch.
  destruct q as [|msg q']; [simpl in Hentry; lia|].
  destruct Hq as (-> & m & Hm & Hq'). simpl. rewrite Hm. simpl.
  pose proof (Forall_lookup_1 _ _ _ _ Hpay Hm) as Hlen. simpl in Hlen.
  destruct (rt_memcpy_total buffer (payload m)
              (if msg_size mq <? size then msg_size mq else size)) as [b ->].
  { destruct (Z.ltb_spec (msg_size mq) size); lia. }
  { destruct (Z.ltb_spec (msg_size mq) size); lia. }
  simpl. destruct (set_next_total (msg_queue_free mq) msg (mq_pool mq)) as [pool ->];
    [eauto|].
  simpl. eauto.
Qed.

(** The invariant in the words of the specification: [entry] and the free
    list add up to the capacity, and a cell is in exactly one of the free
    list and the FIFO, once. *)
Lemma mq_inv_cells mq :
  mq_inv mq ->
  exists fl q,
    mq_lists mq fl q /\
    mq_entry mq + Z.of_nat (length fl) = max_msgs mq /\
    NoDup fl /\ NoDup q /\
    (forall c, (c < Z.to_nat (max_msgs mq))%nat ->
       ((c ∈ fl) /\ (c ∉ q)) \/ ((c ∉ fl) /\ (c ∈ q))).
Proof.
  intros (fl & q & Hl & Hperm & Hentry & Hmax & _). exists fl, q.
  pose proof (perm_NoDup_seq _ _ Hperm) as Hnd.
  apply NoDup_app in Hnd as (Hnd_fl & Hdisj & Hnd_q).
  pose proof (mq_cells_length _ _ _ Hperm) as Hlen.
  split; [done|]. split.
  { rewrite Hentry. unfold is_u32 in Hmax. lia. }
  split; [done|]. split; [done|].
  intros c Hc.
  assert (Hin : c ∈ fl ++ q).
  { rewrite Hperm. apply elem_of_seq. lia. }
  apply elem_of_app in Hin as [Hin|Hin].
  - left. split; [done|]. by apply Hdisj.
  - right. split; [|done]. intros Hin'. by apply (Hdisj c).
Qed.

(** The loop of [rt_mq_init] pushes the cells [temp], [temp + 1], ... onto
    the free list and leaves the payloads alone. *)
Lemma mq_init_free_linked (todo : nat) : forall temp pool free fl,
  linked pool free fl ->
  (forall c, c ∈ fl -> (c < temp)%nat) ->
  (temp + todo <= length pool)%nat ->
  exists pool' free',
    mq_init_free todo temp pool free = Some (pool', free') /\
    linked pool' free' (reverse (seq temp todo) ++ fl) /\
    Forall2 (fun a b => payload a = payload b) pool pool'.
Proof.
  induction todo as [|todo IH]; intros temp pool free fl Hfl Hlt Hlen.
  - exists pool, free. simpl. split; [done|]. split; [done|].
    apply Forall_Forall2_diag, Forall_forall. done.
  - simpl. destruct (lookup_lt_is_Some_2 pool temp) as [m Hm]; [lia|].
    unfold set_next. rewrite Hm. simpl.
    set (pool1 := <[temp := mk_msg free (payload m)]> pool).
    destruct (IH (S temp) pool1 (Some temp) (temp :: fl)) as (pool' & free' & -> & Hl & Hp).
    + simpl. split; [done|]. exists (mk_msg free (payload m)). split.
      * apply lookup_insert_same. eauto.
      * simpl. apply lseg_frame; [|done]. intros Hin. apply Hlt in Hin. lia.
    + intros c Hc. apply elem_of_cons in Hc as [->|Hc]; [lia|].
      apply Hlt in Hc. lia.
    + unfold pool1. rewrite length_insert. lia.
    + exists pool', free'. split; [done|]. split.
      * rewrite reverse_cons, <- app_assoc. exact Hl.
      * apply (Forall2_trans (fun a b => payload a = payload b)
                 (fun a b => payload a = payload b) _ pool pool1 pool');
          [intros x y z Hxy Hyz; congruence| |exact Hp].
        unfold pool1. rewrite <- (list_insert_id pool temp m) at 1 by done.
        apply Forall2_insert; [|done].
        apply Forall_Forall2_diag, Forall_forall. done.
Qed.

(** [rt_mq_init] establishes the invariant: all [max_msgs] cells are free. *)
Lemma rt_mq_init_inv msgpool msg_size pool_size flag mq :
  rt_mq_init msgpool msg_size pool_size flag = Some mq ->
  Forall (fun m => Z.of_nat (length (payload m)) =
                   wrap_u32 (RT_ALIGN (wrap_u32 msg_size) RT_ALIGN_SIZE)) msgpool ->
  (Z.to_nat (max_msgs mq) <= length msgpool)%nat ->
  mq_inv mq /\ mq_entry mq = 0 /\ msg_queue_head mq = None.
Proof.
  unfold rt_mq_init. intros H Hpay Hlen.
  set (msz := wrap_u32 (RT_ALIGN (wrap_u32 msg_size) RT_ALIGN_SIZE)) in *.
  unfold c_udiv in H.
  destruct (Z.eqb_spec (wrap_u32 (msz + sizeof_rt_mq_message)) 0) as [?|Hnz]; [done|].
  simpl in H.
  set (max := wrap_u32 pool_size / wrap_u32 (msz + sizeof_rt_mq_message)) in *.
  destruct (mq_init_free (Z.to_nat max) 0 msgpool None) as [[pool free]|] eqn:E;
    [|done].
  simpl in H. injection H as <-. simpl in *.
  destruct (mq_init_free_linked (Z.to_nat max) 0 msgpool None [])
    as (pool' & free' & E' & Hl & Hp); [done|by intros ? ?%elem_of_nil|lia|].
  rewrite E in E'. injection E' as <- <-.
  split; [|done].
  exists (reverse (seq 0 (Z.to_nat max))), []. simpl. split_and!.
  - split_and!; [|done|done]. by rewrite app_nil_r in Hl.
  - rewrite app_nil_r. apply reverse_Permutation.
  - done.
  - pose proof (wrap_u32_range pool_size) as Hps.
    pose proof (wrap_u32_range (msz + sizeof_rt_mq_message)) as Hcs.
    unfold is_u32 in *. unfold max. split.
    + apply Z.div_pos; lia.
    + eapply Z.le_lt_trans; [apply Z.div_le_upper_bound with (q := wrap_u32 pool_size)|];
        [lia| |lia]. nia.
  - apply Forall_forall. intros c Hc.
    apply list_elem_of_lookup in Hc as [i Hi].
    destruct (Forall2_lookup_r _ _ _ _ _ Hp Hi) as (c0 & Hc0 & Heq).
    rewrite <- Heq. by eapply (Forall_lookup_1 _ _ _ _ Hpay).
Qed.

(** The cells of a message queue.  For a message queue under its invariant
    (established by [rt_mq_init]): [entry] plus the length of the free list is [max_msgs],
    and every cell [0 .. max_msgs - 1] is linked, once, in exactly one of
    the free list and the FIFO of live messages.  [rt_mq_send],
    [rt_mq_urgent] and [rt_mq_recv] (the part before and the part after its
    [rt_schedule()]) keep the invariant, whatever they return; under the
    invariant a send and an urgent send do return, and so does a receive from
    a queue that holds a message. *)
Theorem rt_mq_cells_invariant (mq : rt_messagequeue) :
  mq_inv mq ->
  (exists fl q,
     mq_lists mq fl q /\
     mq_entry mq + Z.of_nat (length fl) = max_msgs mq /\
     NoDup fl /\ NoDup q /\
     (forall c, (c < Z.to_nat (max_msgs mq))%nat ->
        ((c ∈ fl) /\ (c ∉ q)) \/ ((c ∉ fl) /\ (c ∈ q)))) /\
  (forall buffer size k k' mq' err,
     rt_mq_send mq buffer size k = Some (k', mq', err) -> mq_inv mq') /\
  (forall buffer size k k' mq' err,
     rt_mq_urgent mq buffer size k = Some (k', mq', err) -> mq_inv mq') /\
  (forall buffer size timeout k k' mq' st buffer',
     rt_mq_recv mq buffer size timeout k = Some (k', mq', st, buffer') -> mq_inv mq') /\
  (forall buffer size thread k k' mq' err buffer',
     rt_mq_recv_resumed mq buffer size thread k = Some (k', mq', err, buffer') ->
     mq_inv mq') /\
  (forall buffer size k,
     wait_queue_ok k (mq_parent mq) -> 0 <= size <= Z.of_nat (length buffer) ->
     is_Some (rt_mq_send mq buffer size k) /\ is_Some (rt_mq_urgent mq buffer size k)) /\
  (forall buffer size timeout k,
     mq_entry mq <> 0 -> 0 <= size <= Z.of_nat (length buffer) ->
     is_Some (rt_mq_recv mq buffer size timeout k)).
Proof.
  intros Hinv.
  split; [by apply mq_inv_cells|].
  split; [intros; by eapply rt_mq_send_inv|].
  split; [intros; by eapply rt_mq_urgent_inv|].
  split; [intros; by eapply rt_mq_recv_inv|].
  split; [intros; by eapply rt_mq_recv_resumed_inv|].
  split.
  - intros buffer size k Hw Hsz.
    split; [by apply rt_mq_send_total|by apply rt_mq_urgent_total].
  - intros. by apply rt_mq_recv_total.
Qed.

Lemma mq_one_live_inv : mq_inv mq_one_live.
Proof.
  exists [0%nat], [1%nat]. split.
  { split; [|split]; [| |reflexivity].
    - split; [reflexivity|]. eexists. split; reflexivity.
    - split; [reflexivity|]. eexists. split; reflexivity. }
  split; [reflexivity|]. split; [reflexivity|].
  split; [split; [discriminate|reflexivity]|].
  repeat constructor.
Defined.

Lemma rt_mq_cells_invariant_witness :
  (exists fl q,
     mq_lists mq_one_live fl q /\
     mq_entry mq_one_live + Z.of_nat (length fl) = 2 /\
     NoDup fl /\ NoDup q /\
     (forall c, (c < 2)%nat -> ((c ∈ fl) /\ (c ∉ q)) \/ ((c ∉ fl) /\ (c ∈ q)))) /\
  is_Some (rt_mq_send mq_one_live [5; 6; 7] 3 solo_kernel) /\
  is_Some (rt_mq_recv mq_one_live [0; 0; 0; 0] 4 0 solo_kernel).
Proof.
  destruct (rt_mq_cells_invariant mq_one_live mq_one_live_inv)
    as (H1 & _ & _ & _ & _ & H6 & H7).
  split; [exact H1|]. split.
  - apply (H6 [5; 6; 7] 3 solo_kernel).
    + split; [constructor|]. intros H. exfalso. revert H. vm_compute. discriminate.
    + split; [discriminate|]. vm_compute. discriminate.
  - apply (H7 [0; 0; 0; 0] 4 0 solo_kernel).
    + discriminate.
    + split; [discriminate|]. vm_compute. discriminate.
Defined.

(** The queue of two cells, one live, through an urgent send, a send that
    finds the queue full, and two receives: the urgent message comes out
    first, and the lists are as the invariant says after every call. *)
Lemma rt_mq_urgent_then_recv :
  exists k1 mq1 k2 mq2 k3 mq3 b3 k4 mq4 b4,
    rt_mq_urgent mq_one_live [9; 9] 2 solo_kernel = Some (k1, mq1, RT_EOK) /\
    (msg_queue_head mq1, msg_queue_tail mq1, msg_queue_free mq1, mq_entry mq1)
      = (Some 0%nat, Some 1%nat, None, 2) /\
    rt_mq_send mq1 [5] 1 k1 = Some (k2, mq2, - RT_EFULL) /\
    rt_mq_recv mq2 [0; 0; 0; 0] 4 0 k2 = Some (k3, mq3, Returned RT_EOK, b3) /\
    b3 = [9; 9; 0; 0] /\
    rt_mq_recv mq3 [0; 0; 0; 0] 4 0 k3 = Some (k4, mq4, Returned RT_EOK, b4) /\
    b4 = [1; 2; 3; 4] /\
    (msg_queue_head mq4, msg_queue_tail mq4, msg_queue_free mq4, mq_entry mq4)
      = (None, None, Some 1%nat, 0).
Proof.
  do 10 eexists.
  split; [vm_compute; reflexivity|].
  split; [vm_compute; reflexivity|].
  split; [vm_compute; reflexivity|].
  split; [vm_compute; reflexivity|].
  split; [vm_compute; reflexivity|].
  split; [vm_compute; reflexivity|].
  split; [vm_compute; reflexivity|].
  vm_compute; reflexivity.
Qed.

(** C9 (failing input).  Two receivers and one message.  Thread 0 calls
    [rt_mq_recv] on the empty queue and blocks; thread 1 sends a message,
    which makes thread 0 READY with [error == RT_EOK], and then receives that
    message itself; the queue is empty again, under its invariant.  When
    thread 0 is scheduled in, [rt_mq_recv] goes on behind [rt_schedule()]
    without looking at [entry] a second time: [msg] is the NULL head and
    [msg->next] is read, which has no defined result, so that the call does
    not keep the invariant. *)
Theorem rt_mq_recv_after_drain :
  exists mq0 k1 mq1 b1 k2 mq2 t0 k3 mq3 b3,
    rt_mq_init two_cells 4 16 RT_IPC_FLAG_FIFO = Some mq0 /\
    rt_mq_recv mq0 four_bytes 4 (-1) low_high_kernel = Some (k1, mq1, Scheduled, b1) /\
    rt_mq_send mq1 [7] 1 (switch_to 1%nat k1) = Some (k2, mq2, RT_EOK) /\
    deref k2 0%nat = Some t0 /\ stat t0 = RT_THREAD_READY /\ error t0 = RT_EOK /\
    rt_mq_recv mq2 four_bytes 4 0 k2 = Some (k3, mq3, Returned RT_EOK, b3) /\
    mq_inv mq3 /\
    mq_entry mq3 = 0 /\ msg_queue_head mq3 = None /\
    rt_mq_recv_resumed mq3 four_bytes 4 0%nat (switch_to 0%nat k3) = None.
Proof.
  destruct (rt_mq_init two_cells 4 16 RT_IPC_FLAG_FIFO) as [mq0|] eqn:E0;
    [|vm_compute in E0; discriminate].
  destruct (rt_mq_recv mq0 four_bytes 4 (-1) low_high_kernel) as [[[[k1 mq1] st1] b1]|] eqn:E1;
    [|vm_compute in E0; injection E0 as <-; vm_compute in E1; discriminate].
  destruct (rt_mq_send mq1 [7] 1 (switch_to 1%nat k1)) as [[[k2 mq2] e2]|] eqn:E2;
    [|vm_compute in E0; injection E0 as <-; vm_compute in E1; injection E1 as <- <- <- <-;
      vm_compute in E2; discriminate].
  destruct (rt_mq_recv mq2 four_bytes 4 0 k2) as [[[[k3 mq3] st3] b3]|] eqn:E3;
    [|vm_compute in E0; injection E0 as <-; vm_compute in E1; injection E1 as <- <- <- <-;
      vm_compute in E2; injection E2 as <- <- <-; vm_compute in E3; discriminate].
  assert (I0 : mq_inv mq0).
  { eapply (rt_mq_init_inv two_cells 4 16 RT_IPC_FLAG_FIFO mq0 E0).
    - repeat constructor.
    - vm_compute in E0. injection E0 as <-. vm_compute. lia. }
  assert (I1 : mq_inv mq1) by (eapply rt_mq_recv_inv; eauto).
  assert (I2 : mq_inv mq2) by (eapply rt_mq_send_inv; eauto).
  assert (I3 : mq_inv mq3) by (eapply rt_mq_recv_inv; eauto).
  vm_compute in E0. injection E0 as <-.
  vm_compute in E1. injection E1 as <- <- <- <-.
  vm_compute in E2. injection E2 as <- <- <-.
  vm_compute in E3. injection E3 as <- <- <- <-.
  do 10 eexists.
  split; [reflexivity|]. split; [reflexivity|]. split; [reflexivity|].
  split; [reflexivity|]. split; [reflexivity|]. split; [reflexivity|].
  split; [reflexivity|]. split; [exact I3|].
  split; [reflexivity|]. split; [reflexivity|]. vm_compute. reflexivity.
Qed.

Lemma rt_ipc_object_suspend_prio_appends_witness :
  exists k' ipc',
    rt_ipc_object_suspend prio_ipc 1%nat prio_kernel = Some (k', ipc') /\
    suspend_thread ipc' = [0%nat; 1%nat].
Proof.
  destruct (rt_ipc_object_suspend prio_ipc 1%nat prio_kernel) as [[k' ipc']|] eqn:E.
  - exists k', ipc'. split; [reflexivity|].
    exact (rt_ipc_object_suspend_prio_appends prio_ipc 1%nat prio_kernel k' ipc' eq_refl E).
  - vm_compute in E. discriminate E.
Defined.



(** ** The thread state machine *)

Lemma thread_stat_eqb_spec a b : thread_stat_eqb a b = true <-> a = b.
Proof. destruct a, b; simpl; split; congruence. Qed.

Lemma thread_stat_eqb_neq a b : a <> b -> thread_stat_eqb a b = false.
Proof. destruct a, b; simpl; congruence. Qed.

Lemma rt_thread_suspend_not_ready thread k t :
  deref k thread = Some t -> stat t <> RT_THREAD_READY ->
  rt_thread_suspend thread k = Some (k, - RT_ERROR).
Proof.
  intros H Hs. unfold rt_thread_suspend. rewrite H. simpl.
  by rewrite thread_stat_eqb_neq.
Qed.

Lemma rt_thread_resume_not_suspended thread wl k t :
  deref k thread = Some t -> stat t <> RT_THREAD_SUSPEND ->
  rt_thread_resume thread wl k = Some (k, wl, - RT_ERROR).
Proof.
  intros H Hs. unfold rt_thread_resume. rewrite H. simpl.
  by rewrite thread_stat_eqb_neq.
Qed.

Lemma deref_is_Some_eq k i t : deref k i = Some t -> is_Some (deref k i).
Proof. eauto. Qed.

(** X5.  [rt_thread_suspend] refuses a thread that is not READY and
    [rt_thread_resume] one that is not SUSPEND: both return [-RT_ERROR] and
    change nothing.  Suspending a READY thread and resuming it gives back
    the thread object, with the timer flag cleared, and puts the thread at
    the tail of the ready table; no other thread object changes. *)
Theorem rt_thread_suspend_resume (thread : tid) (k : kernel) (t : rt_thread) :
  deref k thread = Some t ->
  (stat t <> RT_THREAD_READY -> rt_thread_suspend thread k = Some (k, - RT_ERROR)) /\
  (forall wl, stat t <> RT_THREAD_SUSPEND ->
     rt_thread_resume thread wl k = Some (k, wl, - RT_ERROR)) /\
  (stat t = RT_THREAD_READY ->
     exists k1 k2,
       rt_thread_suspend thread k = Some (k1, RT_EOK) /\
       (stat <$> deref k1 thread) = Some RT_THREAD_SUSPEND /\
       (thread ∉ rt_thread_priority_table k1) /\
       rt_thread_resume thread [] k1 = Some (k2, [], RT_EOK) /\
       deref k2 thread =
         Some (set_thread_timer (mk_timer false (timer_init_tick (thread_timer t))) t) /\
       rt_thread_priority_table k2 =
         rt_list_remove thread (rt_thread_priority_table k) ++ [thread] /\
       (forall i, i <> thread -> deref k2 i = deref k i)).
Proof.
  intros H. split; [|split].
  - intros Hs. by eapply rt_thread_suspend_not_ready.
  - intros wl Hs. by eapply rt_thread_resume_not_suspended.
  - intros Hs.
    pose proof (rt_thread_suspend_ready thread k t H Hs) as E1.
    set (k1 := set_ready (rt_list_remove thread (rt_thread_priority_table k))
                 (store thread (set_stat RT_THREAD_SUSPEND t) k)) in *.
    assert (D1 : deref k1 thread = Some (set_stat RT_THREAD_SUSPEND t)).
    { unfold k1. rewrite deref_set_ready. apply deref_store_eq. eauto. }
    pose proof (rt_thread_resume_suspended thread [] k1 _ D1 eq_refl) as E2.
    eexists k1, _. split; [exact E1|]. split; [by rewrite D1|].
    split; [apply rt_list_remove_not_in|]. split; [exact E2|].
    split; [|split].
    + rewrite deref_set_ready, deref_store_eq by eauto.
      f_equal. destruct t; simpl in *; by subst.
    + reflexivity.
    + intros i Hi. rewrite deref_set_ready, deref_store_ne by done.
      unfold k1. by rewrite deref_set_ready, deref_store_ne.
Qed.

Lemma rt_thread_suspend_resume_witness :
  rt_thread_suspend 0%nat prio_kernel = Some (prio_kernel, - RT_ERROR) /\
  rt_thread_resume 1%nat [] prio_kernel = Some (prio_kernel, [], - RT_ERROR) /\
  exists k1 k2,
    rt_thread_suspend 1%nat prio_kernel = Some (k1, RT_EOK) /\
    rt_thread_resume 1%nat [] k1 = Some (k2, [], RT_EOK) /\
    deref k2 1%nat = Some (thread_at 5 5 RT_THREAD_READY) /\
    rt_thread_priority_table k2 = [1%nat].
Proof.
  destruct (rt_thread_suspend_resume 0%nat prio_kernel _ eq_refl) as (A & _ & _).
  destruct (rt_thread_suspend_resume 1%nat prio_kernel _ eq_refl) as (_ & B & C).
  split; [apply A; discriminate|]. split; [apply B; discriminate|].
  destruct (C eq_refl) as (k1 & k2 & E1 & _ & _ & E2 & D & R & _).
  exists k1, k2. repeat split; assumption.
Defined.

(** ** The ready table and the thread states *)

Lemma elem_of_rt_list_remove j n l : j ∈ rt_list_remove n l <-> j ∈ l /\ j <> n.
Proof.
  induction l as [|x l IH]; simpl.
  - split; [by intros ?%elem_of_nil | by intros [?%elem_of_nil _]].
  - unfold tid_eqb. destruct (Nat.eqb_spec x n) as [->|Hx].
    + rewrite IH, elem_of_cons. intuition congruence.
    + rewrite !elem_of_cons, IH. intuition congruence.
Qed.

Lemma NoDup_rt_list_remove n l : NoDup l -> NoDup (rt_list_remove n l).
Proof.
  induction 1 as [|x l Hx Hl IH]; simpl; [constructor|].
  unfold tid_eqb. destruct (Nat.eqb_spec x n); [done|].
  constructor; [|done]. rewrite elem_of_rt_list_remove. intuition congruence.
Qed.

Lemma NoDup_snoc_remove n l : NoDup l -> NoDup (rt_list_remove n l ++ [n]).
Proof.
  intros H. apply NoDup_app. split; [by apply NoDup_rt_list_remove|].
  split; [|apply NoDup_singleton].
  intros x Hx ->%list_elem_of_singleton. apply elem_of_rt_list_remove in Hx. intuition congruence.
Qed.


(** A step that touches one thread object and the links of its node keeps
    the invariant when the two agree afterwards. *)
Lemma ready_inv_step k k' i :
  ready_inv k ->
  (forall j, j <> i -> deref k' j = deref k j) ->
  NoDup (rt_thread_priority_table k') ->
  (forall j, j <> i ->
     j ∈ rt_thread_priority_table k' <-> j ∈ rt_thread_priority_table k) ->
  (i ∈ rt_thread_priority_table k' <->
   exists t', deref k' i = Some t' /\ stat t' = RT_THREAD_READY) ->
  ready_inv k'.
Proof.
  intros [Hn Hr] Hd Hn' Ht Hi. split; [done|]. intros j.
  destruct (decide (j = i)) as [->|Hj]; [done|].
  by rewrite Ht, Hd, Hr.
Qed.

Lemma ready_inv_store k i t t' :
  deref k i = Some t -> stat t' = stat t -> ready_inv k -> ready_inv (store i t' k).
Proof.
  intros H Hs Hk. apply (ready_inv_step k _ i); [done|..].
  - intros j Hj. by apply deref_store_ne.
  - apply Hk.
  - done.
  - rewrite deref_store_eq by eauto. simpl. destruct Hk as [_ Hr]. rewrite Hr, H.
    split; intros (t0 & [= <-] & ?); eexists; split; try done; congruence.
Qed.

Lemma ready_inv_not_ready k i t :
  ready_inv k -> deref k i = Some t -> stat t <> RT_THREAD_READY ->
  i ∉ rt_thread_priority_table k.
Proof. intros [_ Hr] H Hs Hi. apply Hr in Hi as (t0 & E & ?). congruence. Qed.

Lemma ready_inv_ready k i t :
  ready_inv k -> deref k i = Some t -> stat t = RT_THREAD_READY ->
  i ∈ rt_thread_priority_table k.
Proof. intros [_ Hr] H Hs. apply Hr. eauto. Qed.

(** The three ways the operations relink the node of thread [i]. *)
Lemma ready_inv_unlink k i t t' :
  ready_inv k -> deref k i = Some t -> stat t' <> RT_THREAD_READY ->
  ready_inv (set_ready (rt_list_remove i (rt_thread_priority_table k)) (store i t' k)).
Proof.
  intros Hk H Hs. apply (ready_inv_step k _ i); [done|..].
  - intros j Hj. by rewrite deref_set_ready, deref_store_ne.
  - simpl. apply NoDup_rt_list_remove, Hk.
  - intros j Hj. simpl. rewrite elem_of_rt_list_remove. intuition congruence.
  - simpl. rewrite elem_of_rt_list_remove.
    rewrite deref_set_ready, deref_store_eq by eauto.
    split; [by intros [_ []] | intros (t0 & [= <-] & ?); done].
Qed.

Lemma ready_inv_requeue k i t t' :
  ready_inv k -> deref k i = Some t -> stat t' = RT_THREAD_READY ->
  ready_inv (set_ready (rt_list_remove i (rt_thread_priority_table k) ++ [i])
               (store i t' k)).
Proof.
  intros Hk H Hs. apply (ready_inv_step k _ i); [done|..].
  - intros j Hj. by rewrite deref_set_ready, deref_store_ne.
  - simpl. apply NoDup_snoc_remove, Hk.
  - intros j Hj. simpl.
    rewrite elem_of_app, elem_of_rt_list_remove, list_elem_of_singleton. intuition congruence.
  - simpl. rewrite deref_set_ready, deref_store_eq by eauto.
    rewrite elem_of_app, list_elem_of_singleton.
    split; [intros _; eauto | intros _; by right].
Qed.

Lemma ready_inv_link k i t t' :
  ready_inv k -> deref k i = Some t -> stat t <> RT_THREAD_READY ->
  stat t' = RT_THREAD_READY ->
  ready_inv (set_ready (rt_thread_priority_table k ++ [i]) (store i t' k)).
Proof.
  intros Hk H Hs Hs'.
  rewrite <- (rt_list_remove_id i (rt_thread_priority_table k)) at 1
    by (by eapply ready_inv_not_ready).
  by eapply ready_inv_requeue.
Qed.

Lemma store_store i a b k : store i a (store i b k) = store i a k.
Proof.
  unfold store, set_threads. simpl. f_equal. apply list_insert_insert_eq.
Qed.

Lemma rt_thread_suspend_ready_inv thread k k' e :
  rt_thread_suspend thread k = Some (k', e) -> ready_inv k -> ready_inv k'.
Proof.
  unfold rt_thread_suspend. intros H Hk.
  destruct (deref k thread) as [t|] eqn:E; simpl in H; [|done].
  destruct (thread_stat_eqb (stat t) RT_THREAD_READY) eqn:Es; simpl in H.
  - unfold rt_schedule_remove_thread in H.
    rewrite deref_store_eq in H by eauto. simpl in H. injection H as <- _.
    by eapply ready_inv_unlink.
  - by injection H as <- _.
Qed.

Lemma rt_thread_resume_ready_inv thread wl k k' wl' e :
  rt_thread_resume thread wl k = Some (k', wl', e) -> ready_inv k -> ready_inv k'.
Proof.
  unfold rt_thread_resume. intros H Hk.
  destruct (deref k thread) as [t|] eqn:E; simpl in H; [|done].
  destruct (thread_stat_eqb (stat t) RT_THREAD_SUSPEND) eqn:Es; simpl in H.
  - apply thread_stat_eqb_spec in Es.
    unfold rt_schedule_insert_thread in H.
    rewrite deref_store_eq in H by eauto. simpl in H. injection H as <- _ _.
    rewrite store_store. eapply ready_inv_link; [done|done| |done]. congruence.
  - by injection H as <- _ _.
Qed.

Lemma rt_thread_timeout_ready_inv thread wl k k' wl' :
  rt_thread_timeout thread wl k = Some (k', wl') -> ready_inv k -> ready_inv k'.
Proof.
  unfold rt_thread_timeout. intros H Hk.
  destruct (deref k thread) as [t|] eqn:E; simpl in H; [|done].
  destruct (thread_stat_eqb (stat t) RT_THREAD_SUSPEND) eqn:Es; simpl in H; [|done].
  apply thread_stat_eqb_spec in Es.
  unfold rt_schedule_insert_thread in H.
  rewrite deref_store_eq in H by eauto. simpl in H. injection H as <- _.
  rewrite store_store. eapply ready_inv_link; [done|done| |done]. congruence.
Qed.

Lemma rt_timer_expire_ready_inv thread wl k k' wl' :
  rt_timer_expire thread wl k = Some (k', wl') -> ready_inv k -> ready_inv k'.
Proof.
  unfold rt_timer_expire. intros H Hk.
  destruct (deref k thread) as [t|] eqn:E; simpl in H; [|done].
  destruct (timer_activated (thread_timer t)); [|done].
  eapply rt_thread_timeout_ready_inv; [exact H|]. by eapply ready_inv_store.
Qed.

Lemma start_thread_timer_ready_inv thread time k k' :
  start_thread_timer thread time k = Some k' -> ready_inv k -> ready_inv k'.
Proof.
  unfold start_thread_timer. intros H Hk. destruct (0 <? time).
  - destruct (deref k thread) as [t|] eqn:E; simpl in H; [|done].
    injection H as <-. by eapply ready_inv_store.
  - by injection H as <-.
Qed.

Lemma set_priority_stat pmax p t : stat (set_priority pmax p t) = stat t.
Proof. unfold set_priority. by destruct (32 <? pmax). Qed.

Lemma rt_thread_startup_ready_inv pmax thread k k' e :
  rt_thread_startup pmax thread k = Some (k', e) -> ready_inv k -> ready_inv k'.
Proof.
  unfold rt_thread_startup. intros H Hk.
  destruct (deref k thread) as [t|] eqn:E; simpl in H; [|done].
  destruct (thread_stat_eqb (stat t) RT_THREAD_INIT) eqn:Es; simpl in H; [|done].
  apply thread_stat_eqb_spec in Es.
  bind_inv H. injection H as <- _.
  eapply rt_thread_resume_ready_inv; [exact E0|].
  assert (Hn : thread ∉ rt_thread_priority_table k).
  { eapply ready_inv_not_ready; [done|done|congruence]. }
  pose proof (ready_inv_unlink k thread t
    (set_stat RT_THREAD_SUSPEND (set_priority pmax (init_priority t) t)) Hk E) as U.
  rewrite rt_list_remove_id in U by done.
  destruct U as [Un Ur]; [simpl; discriminate|]. split; [exact Un|exact Ur].
Qed.

Lemma rt_thread_delete_ready_inv thread k k' e :
  rt_thread_delete thread k = Some (k', e) -> ready_inv k -> ready_inv k'.
Proof.
  unfold rt_thread_delete, rt_schedule_remove_thread. intros H Hk.
  destruct (deref k thread) as [t|] eqn:E; simpl in H; [|done].
  rewrite deref_set_ready, E in H. simpl in H. injection H as <- _.
  pose proof (ready_inv_unlink k thread t
    (set_stat RT_THREAD_CLOSE (set_thread_timer (rt_timer_detach (thread_timer t)) t))
    Hk E) as U.
  destruct U as [Un Ur]; [simpl; discriminate|]. split; [exact Un|exact Ur].
Qed.

Lemma rt_thread_control_ready_inv pmax thread cmd arg k k' e :
  rt_thread_control pmax thread cmd arg k = Some (k', e) -> ready_inv k -> ready_inv k'.
Proof.
  unfold rt_thread_control. intros H Hk. destruct cmd.
  - by eapply rt_thread_startup_ready_inv.
  - by eapply rt_thread_delete_ready_inv.
  - destruct (deref k thread) as [t|] eqn:E; simpl in H; [|done].
    destruct (thread_stat_eqb (stat t) RT_THREAD_READY) eqn:Es.
    + apply thread_stat_eqb_spec in Es.
      unfold rt_schedule_remove_thread, rt_schedule_insert_thread in H.
      rewrite E in H. simpl in H. rewrite deref_set_ready, E in H. simpl in H.
      rewrite deref_store_eq in H by (rewrite deref_set_ready; eauto).
      simpl in H. injection H as <- _.
      pose proof (ready_inv_requeue k thread t
        (set_stat RT_THREAD_READY (set_priority pmax arg t)) Hk E eq_refl) as U.
      match goal with
      | |- ready_inv ?K =>
          replace K with
            (set_ready (rt_list_remove thread (rt_thread_priority_table k) ++ [thread])
               (store thread (set_stat RT_THREAD_READY (set_priority pmax arg t)) k));
          [exact U|]
      end.
      unfold store, set_ready, set_threads, rt_list_insert_before. simpl. f_equal.
      symmetry. apply list_insert_insert_eq.
    + injection H as <- _. eapply ready_inv_store; [done| |done].
      apply set_priority_stat.
  - by injection H as <- _.
Qed.

Lemma store_same k i t : deref k i = Some t -> store i t k = k.
Proof.
  intros H. unfold store, set_threads. destruct k as [ts c r d]. simpl in *. f_equal.
  by apply list_insert_id.
Qed.

Lemma ready_inv_set_defunct d k : ready_inv k -> ready_inv (set_defunct d k).
Proof. intros [Hn Hr]. split; [exact Hn|exact Hr]. Qed.

Lemma rt_thread_sleep_ready_inv tick k k' st :
  rt_thread_sleep tick k = Some (k', st) -> ready_inv k -> ready_inv k'.
Proof.
  unfold rt_thread_sleep. intros H Hk. bind_inv H. injection H as <- _.
  eapply ready_inv_store; [done|done|]. by eapply rt_thread_suspend_ready_inv.
Qed.

Lemma rt_thread_yield_ready_inv k k' e :
  rt_thread_yield k = Some (k', e) -> ready_inv k -> ready_inv k'.
Proof.
  unfold rt_thread_yield. intros H Hk.
  destruct (deref k (rt_current_thread k)) as [t|] eqn:E; simpl in H; [|done].
  destruct (thread_stat_eqb (stat t) RT_THREAD_READY) eqn:Es; simpl in H.
  - destruct (bool_decide _); simpl in H; injection H as <- _; [done|].
    apply thread_stat_eqb_spec in Es.
    pose proof (ready_inv_requeue k _ t t Hk E Es) as U.
    by rewrite store_same in U.
  - by injection H as <- _.
Qed.

Lemma rt_thread_exit_ready_inv b k k' :
  rt_thread_exit b k = Some k' -> ready_inv k -> ready_inv k'.
Proof.
  unfold rt_thread_exit, rt_schedule_remove_thread. intros H Hk.
  destruct (deref k (rt_current_thread k)) as [t|] eqn:E; simpl in H; [|done].
  rewrite deref_set_ready, E in H. simpl in H.
  pose proof (ready_inv_unlink k _ t
    (set_thread_timer (rt_timer_detach (thread_timer t)) (set_stat RT_THREAD_CLOSE t))
    Hk E) as U.
  destruct U as [Un Ur]; [simpl; discriminate|].
  destruct b; injection H as <-; (split; [exact Un|exact Ur]).
Qed.

Lemma rt_thread_init_ready_inv pmax thread priority k k' e :
  thread ∉ rt_thread_priority_table k ->
  rt_thread_init pmax thread priority k = Some (k', e) -> ready_inv k -> ready_inv k'.
Proof.
  unfold rt_thread_init, _rt_thread_init. intros Hn H Hk.
  destruct (deref k thread) as [t|] eqn:E; simpl in H; [|done].
  destruct (priority <? pmax); simpl in H; [|done]. injection H as <- _.
  match goal with
  | |- ready_inv (store _ ?t1 _) => pose proof (ready_inv_unlink k thread t t1 Hk E) as U
  end.
  rewrite rt_list_remove_id in U by done.
  destruct U as [Un Ur]; [simpl; discriminate|]. split; [exact Un|exact Ur].
Qed.

Lemma ready_check_spec k : ready_check k = true -> ready_inv k.
Proof.
  unfold ready_check. rewrite !andb_true_iff, bool_decide_eq_true, !forallb_forall.
  intros [[Hn Hb] Hs]. split; [done|]. intros i. split.
  - intros Hi. assert (Hl : (i < length (threads k))%nat).
    { apply Nat.ltb_lt, Hb. by apply list_elem_of_In. }
    destruct (deref k i) as [t|] eqn:E.
    + exists t. split; [done|].
      specialize (Hs i). rewrite E in Hs.
      rewrite (bool_decide_eq_true_2 _ Hi) in Hs.
      apply thread_stat_eqb_spec, Bool.eqb_prop, Hs, in_seq. lia.
    + apply lookup_lt_is_Some in Hl. destruct Hl as [x Hx]. unfold deref, tid in *.
      congruence.
  - intros (t & E & Ht).
    assert (Hl : (i < length (threads k))%nat) by (apply lookup_lt_is_Some; eauto).
    specialize (Hs i). rewrite E in Hs.
    assert (Hs' : Bool.eqb (thread_stat_eqb (stat t) RT_THREAD_READY)
                    (bool_decide (i ∈ rt_thread_priority_table k)) = true).
    { apply Hs, in_seq. lia. }
    apply Bool.eqb_prop in Hs'. rewrite Ht in Hs'. simpl in Hs'. symmetry in Hs'.
    by apply bool_decide_eq_true in Hs'.
Qed.

(** X6.  The invariant of the ready table, a thread is READY exactly when
    its node is linked in the ready table, and linked once, is kept by
    every defined outcome of the thread operations: [rt_thread_suspend],
    [rt_thread_resume], [rt_thread_timeout], [rt_thread_startup],
    [rt_thread_control] with every command, [rt_thread_delete],
    [rt_thread_exit], [rt_thread_sleep], [rt_thread_yield], and
    [rt_thread_init] on an object whose node is not linked. *)
Theorem thread_ops_keep_ready_inv pmax (k : kernel) :
  ready_inv k ->
  (forall thread k' e, rt_thread_suspend thread k = Some (k', e) -> ready_inv k') /\
  (forall thread wl k' wl' e,
     rt_thread_resume thread wl k = Some (k', wl', e) -> ready_inv k') /\
  (forall thread wl k' wl',
     rt_thread_timeout thread wl k = Some (k', wl') -> ready_inv k') /\
  (forall thread k' e, rt_thread_startup pmax thread k = Some (k', e) -> ready_inv k') /\
  (forall thread cmd arg k' e,
     rt_thread_control pmax thread cmd arg k = Some (k', e) -> ready_inv k') /\
  (forall thread k' e, rt_thread_delete thread k = Some (k', e) -> ready_inv k') /\
  (forall is_systemobject k', rt_thread_exit is_systemobject k = Some k' -> ready_inv k') /\
  (forall tick k' st, rt_thread_sleep tick k = Some (k', st) -> ready_inv k') /\
  (forall k' e, rt_thread_yield k = Some (k', e) -> ready_inv k') /\
  (forall thread priority k' e,
     thread ∉ rt_thread_priority_table k ->
     rt_thread_init pmax thread priority k = Some (k', e) -> ready_inv k').
Proof.
  intros Hk. split_and!; intros.
  - by eapply rt_thread_suspend_ready_inv.
  - by eapply rt_thread_resume_ready_inv.
  - by eapply rt_thread_timeout_ready_inv.
  - by eapply rt_thread_startup_ready_inv.
  - by eapply rt_thread_control_ready_inv.
  - by eapply rt_thread_delete_ready_inv.
  - by eapply rt_thread_exit_ready_inv.
  - by eapply rt_thread_sleep_ready_inv.
  - by eapply rt_thread_yield_ready_inv.
  - by eapply rt_thread_init_ready_inv.
Qed.

Lemma thread_ops_keep_ready_inv_witness :
  ready_inv low_high_kernel /\
  exists k1 k2,
    rt_thread_suspend 1%nat low_high_kernel = Some (k1, RT_EOK) /\ ready_inv k1 /\
    rt_thread_control 256 0%nat RT_THREAD_CTRL_CHANGE_PRIORITY 3 low_high_kernel
      = Some (k2, - RT_EOK) /\ ready_inv k2.
Proof.
  assert (Hk : ready_inv low_high_kernel) by (apply ready_check_spec; reflexivity).
  split; [exact Hk|].
  destruct (thread_ops_keep_ready_inv 256 low_high_kernel Hk)
    as (S & _ & _ & _ & C & _).
  eexists _, _. split; [reflexivity|].
  split; [apply (S 1%nat _ RT_EOK); reflexivity|].
  split; [reflexivity|].
  apply (C 0%nat RT_THREAD_CTRL_CHANGE_PRIORITY 3 _ (- RT_EOK)). reflexivity.
Defined.

(** ** Priority change, start-up and tear-down of a thread *)



Lemma log2_pow2 n : 0 <= n -> Z.log2 (2 ^ n) = n.
Proof. intros H. by apply Z.log2_pow2. Qed.

(** X8.  The priority attributes [rt_thread_startup] and
    [rt_thread_control] compute keep the priority: for a priority 0..255 and
    [RT_THREAD_PRIORITY_MAX > 32], [number_mask] and [high_mask] are the
    single bits [number = priority / 8] and [priority mod 8], from which the
    priority is [8 * number + log2 high_mask]; for a priority 0..31 and
    [RT_THREAD_PRIORITY_MAX <= 32], [number_mask] is the single bit
    [priority]. *)
Theorem set_priority_attributes pmax (p : Z) (t : rt_thread) :
  0 <= p < 256 ->
  current_priority (set_priority pmax p t) = p /\
  (32 < pmax ->
     number (set_priority pmax p t) = p / 8 /\
     number_mask (set_priority pmax p t) = 2 ^ (p / 8) /\
     high_mask (set_priority pmax p t) = 2 ^ (p mod 8) /\
     8 * Z.log2 (number_mask (set_priority pmax p t))
       + Z.log2 (high_mask (set_priority pmax p t)) = p) /\
  (pmax <= 32 -> p < 32 ->
     number_mask (set_priority pmax p t) = 2 ^ p /\
     Z.log2 (number_mask (set_priority pmax p t)) = p).
Proof.
  intros Hp. unfold set_priority.
  assert (Hd : 0 <= p / 8 < 32) by (split; [apply Z.div_pos; lia | apply Z.div_lt_upper_bound; lia]).
  assert (Hm : 0 <= p mod 8 < 8) by (apply Z.mod_pos_bound; lia).
  split; [by destruct (32 <? pmax)|]. split.
  - intros Hx. apply Z.ltb_lt in Hx. rewrite Hx. simpl.
    rewrite (Z.shiftr_div_pow2 p 3) by lia. change (2 ^ 3) with 8.
    rewrite Z.shiftl_1_l.
    replace (Z.land p 7) with (p mod 8)
      by (change 7 with (Z.ones 3); rewrite Z.land_ones by lia; reflexivity).
    rewrite Z.shiftl_1_l.
    assert (W1 : wrap_u32 (2 ^ (p / 8)) = 2 ^ (p / 8)).
    { apply wrap_u32_id. unfold is_u32. split; [apply Z.pow_nonneg; lia|].
      apply Z.pow_lt_mono_r; lia. }
    assert (W2 : wrap_u8 (2 ^ (p mod 8)) = 2 ^ (p mod 8)).
    { unfold wrap_u8. apply Z.mod_small. split; [apply Z.pow_nonneg; lia|].
      apply Z.pow_lt_mono_r; lia. }
    rewrite W1, W2, !log2_pow2 by lia.
    repeat split. pose proof (Z.div_mod p 8). lia.
  - intros Hx Hp'. assert (Hx' : (32 <? pmax) = false) by (apply Z.ltb_ge; lia).
    rewrite Hx'. simpl. rewrite Z.shiftl_1_l.
    assert (W1 : wrap_u32 (2 ^ p) = 2 ^ p).
    { apply wrap_u32_id. unfold is_u32. split; [apply Z.pow_nonneg; lia|].
      apply Z.pow_lt_mono_r; lia. }
    rewrite W1, log2_pow2 by lia. done.
Qed.

Lemma set_priority_attributes_witness :
  number (set_priority 256 77 (thread_at 20 20 RT_THREAD_READY)) = 9 /\
  high_mask (set_priority 256 77 (thread_at 20 20 RT_THREAD_READY)) = 32 /\
  number_mask (set_priority 32 5 (thread_at 20 20 RT_THREAD_READY)) = 32.
Proof.
  destruct (set_priority_attributes 256 77 (thread_at 20 20 RT_THREAD_READY))
    as (_ & A & _); [lia|].
  destruct (set_priority_attributes 32 5 (thread_at 20 20 RT_THREAD_READY))
    as (_ & _ & B); [lia|].
  destruct A as (A1 & _ & A3 & _); [lia|]. destruct B as (B1 & _); [lia|lia|].
  split; [exact A1|]. split; [exact A3|exact B1].
Defined.







Lemma rt_thread_timeout_suspended thread wl k t :
  deref k thread = Some t -> stat t = RT_THREAD_SUSPEND ->
  rt_thread_timeout thread wl k =
    Some (set_ready (rt_thread_priority_table k ++ [thread])
            (store thread (set_stat RT_THREAD_READY (set_error (- RT_ETIMEOUT) t)) k),
          rt_list_remove thread wl).
Proof.
  intros H Hs. unfold rt_thread_timeout, rt_schedule_insert_thread.
  rewrite H. cbn [mbind option_bind]. rewrite Hs. cbn [thread_stat_eqb negb].
  rewrite deref_store_eq by eauto. cbn [mbind option_bind].
  by rewrite store_store.
Qed.

Lemma rt_timer_expire_armed thread wl k t :
  deref k thread = Some t -> timer_activated (thread_timer t) = true ->
  rt_timer_expire thread wl k =
    rt_thread_timeout thread wl
      (store thread
         (set_thread_timer (mk_timer false (timer_init_tick (thread_timer t))) t) k).
Proof.
  intros H Ha. unfold rt_timer_expire. rewrite H. cbn [mbind option_bind].
  by rewrite Ha.
Qed.

(** X11.  [rt_thread_sleep] of a READY running thread suspends it, unlinks
    it from the ready table and arms its timer with the ticks; the expiry
    of the timer makes the thread READY again at the tail of the ready
    table, with the timer stopped and [-RT_ETIMEOUT] in its error field,
    while the call itself returns [RT_EOK]; no other thread object
    changes.  [rt_thread_delay] is [rt_thread_sleep]. *)
Theorem rt_thread_sleep_expires (tick : Z) (k : kernel) (t : rt_thread) :
  deref k (rt_current_thread k) = Some t ->
  stat t = RT_THREAD_READY ->
  exists k1 k2,
    rt_thread_sleep tick k = Some (k1, Scheduled) /\
    deref k1 (rt_current_thread k) =
      Some (set_thread_timer (mk_timer true tick) (set_stat RT_THREAD_SUSPEND t)) /\
    (rt_current_thread k ∉ rt_thread_priority_table k1) /\
    rt_timer_expire (rt_current_thread k) [] k1 = Some (k2, []) /\
    deref k2 (rt_current_thread k) =
      Some (set_error (- RT_ETIMEOUT) (set_thread_timer (mk_timer false tick) t)) /\
    rt_thread_priority_table k2 =
      rt_list_remove (rt_current_thread k) (rt_thread_priority_table k)
        ++ [rt_current_thread k] /\
    (forall i, i <> rt_current_thread k -> deref k2 i = deref k i) /\
    rt_thread_sleep_resumed k2 = (k2, RT_EOK) /\
    rt_thread_delay tick k = rt_thread_sleep tick k.
Proof.
  intros H Hs. set (thread := rt_current_thread k) in *.
  set (ts := set_thread_timer (mk_timer true tick) (set_stat RT_THREAD_SUSPEND t)).
  set (k0 := set_ready (rt_list_remove thread (rt_thread_priority_table k))
               (store thread (set_stat RT_THREAD_SUSPEND t) k)).
  assert (D0 : deref k0 thread = Some (set_stat RT_THREAD_SUSPEND t)).
  { unfold k0. rewrite deref_set_ready. apply deref_store_eq. eauto. }
  assert (E1 : rt_thread_sleep tick k = Some (store thread ts k0, Scheduled)).
  { unfold rt_thread_sleep. fold thread.
    rewrite (rt_thread_suspend_ready thread k t H Hs). fold k0.
    cbn [mbind option_bind]. rewrite D0. reflexivity. }
  assert (D1 : deref (store thread ts k0) thread = Some ts).
  { apply deref_store_eq. eauto. }
  set (te := set_thread_timer (mk_timer false tick) ts).
  assert (E2 : rt_timer_expire thread [] (store thread ts k0) =
               Some (set_ready (rt_thread_priority_table k0 ++ [thread])
                       (store thread (set_stat RT_THREAD_READY
                                        (set_error (- RT_ETIMEOUT) te))
                          (store thread te (store thread ts k0))), [])).
  { rewrite (rt_timer_expire_armed thread [] _ ts D1 eq_refl).
    rewrite (rt_thread_timeout_suspended thread [] _ te); [reflexivity| |reflexivity].
    apply deref_store_eq. eauto. }
  eexists _, _. split; [exact E1|]. split; [exact D1|].
  split; [apply rt_list_remove_not_in|]. split; [exact E2|]. split.
  { rewrite deref_set_ready, deref_store_eq.
    - f_equal. destruct t; simpl in *; by subst.
    - do 2 apply deref_store_is_Some. eauto. }
  split; [reflexivity|]. split; [|done].
  intros i Hi. rewrite deref_set_ready, !deref_store_ne by done.
  unfold k0. by rewrite deref_set_ready, deref_store_ne.
Qed.

Lemma rt_thread_sleep_expires_witness :
  exists k1 k2,
    rt_thread_sleep 50 low_high_kernel = Some (k1, Scheduled) /\
    rt_thread_priority_table k1 = [1%nat] /\
    rt_timer_expire 0%nat [] k1 = Some (k2, []) /\
    (stat <$> deref k2 0%nat) = Some RT_THREAD_READY /\
    (error <$> deref k2 0%nat) = Some (- RT_ETIMEOUT) /\
    rt_thread_priority_table k2 = [1%nat; 0%nat].
Proof.
  destruct (rt_thread_sleep_expires 50 low_high_kernel _ eq_refl eq_refl)
    as (k1 & k2 & E1 & _ & _ & E2 & D & T & _).
  exists k1, k2. split; [exact E1|].
  split; [by injection E1 as <-|]. split; [exact E2|].
  change (rt_current_thread low_high_kernel) with 0%nat in D.
  split; [by rewrite D|]. split; [by rewrite D|exact T].
Defined.



(** ** The wait queue of an IPC object *)

Lemma wait_queue_inv_valid k ipc : wait_queue_inv k ipc -> waiters_valid k ipc.
Proof.
  intros (_ & _ & _ & Hs). unfold waiters_valid. eapply Forall_impl; [exact Hs|].
  intros w (t & E & _). eauto.
Qed.

Lemma all_suspended_frame k k' ws :
  (forall w, w ∈ ws -> deref k' w = deref k w) ->
  all_suspended k ws -> all_suspended k' ws.
Proof.
  unfold all_suspended. rewrite !Forall_forall. intros Hd Hs w Hw.
  rewrite Hd by done. by apply Hs.
Qed.

Lemma all_suspended_lookup k ws w :
  all_suspended k ws -> w ∈ ws ->
  exists t, deref k w = Some t /\ stat t = RT_THREAD_SUSPEND.
Proof. unfold all_suspended. rewrite Forall_forall. eauto. Qed.

Lemma rt_ipc_object_suspend_queues ipc thread k t :
  wait_queue_inv k ipc ->
  deref k thread = Some t -> stat t = RT_THREAD_READY ->
  suspend_thread_count ipc < 2 ^ 32 - 1 ->
  rt_ipc_object_suspend ipc thread k =
    Some (set_ready (rt_list_remove thread (rt_thread_priority_table k))
            (store thread (set_stat RT_THREAD_SUSPEND t) k),
          mk_ipc (flag ipc)
            (if (flag ipc =? RT_IPC_FLAG_FIFO) || (flag ipc =? RT_IPC_FLAG_PRIO)
             then suspend_thread ipc ++ [thread] else suspend_thread ipc)
            (suspend_thread_count ipc + 1)).
Proof.
  intros Hq H Hs Hc.
  destruct (rt_ipc_object_suspend_frame ipc thread k) as (k' & ipc' & E & _ & F & C & L & S);
    [eauto|by apply wait_queue_inv_valid|].
  rewrite (rt_thread_suspend_ready thread k t H Hs) in S. injection S as <-.
  rewrite E. f_equal. f_equal. destruct ipc' as [f l c]. simpl in *. subst.
  f_equal. apply wrap_u32_id. destruct Hq as (_ & Hu & _). unfold is_u32 in *. lia.
Qed.

Lemma rt_ipc_object_resume_inv ipc k w ws :
  wait_queue_inv k ipc -> suspend_thread ipc = w :: ws ->
  exists k',
    rt_ipc_object_resume ipc k =
      Some (k', mk_ipc (flag ipc) ws (suspend_thread_count ipc - 1)) /\
    (stat <$> deref k' w) = Some RT_THREAD_READY /\
    (forall i, i <> w -> deref k' i = deref k i) /\
    wait_queue_inv k' (mk_ipc (flag ipc) ws (suspend_thread_count ipc - 1)).
Proof.
  intros Hq Hl.
  destruct (rt_ipc_object_resume_head ipc k w ws Hq Hl) as (k' & E & R & O).
  exists k'. do 3 (split; [done|]).
  destruct Hq as (Hc & Hu & Hn & Hs). rewrite Hl in *.
  apply NoDup_cons in Hn as [Hw Hn]. apply Forall_cons in Hs as [_ Hs].
  simpl in Hc. unfold wait_queue_inv, is_u32 in *. simpl.
  split; [lia|]. split; [lia|]. split; [done|].
  eapply all_suspended_frame; [|exact Hs]. intros x Hx. apply O. congruence.
Qed.

(** X13.  The wait queue of an IPC object under its invariant (the count
    is the length of the list, a node is linked once, every queued thread
    is SUSPEND).  [rt_ipc_object_suspend] of a READY thread suspends it and,
    with the flag FIFO or PRIO, links it at the tail and keeps the
    invariant; with any other flag it counts the thread without linking
    it.  [rt_ipc_object_resume] makes the thread at the head READY, unlinks
    it, changes no other thread object and keeps the invariant: threads
    leave the queue in the order they entered it. *)
Theorem rt_ipc_object_wait_queue (ipc : rt_ipc_object) (k : kernel) :
  wait_queue_inv k ipc ->
  (forall thread t,
     deref k thread = Some t -> stat t = RT_THREAD_READY ->
     suspend_thread_count ipc < 2 ^ 32 - 1 ->
     exists k' ipc',
       rt_ipc_object_suspend ipc thread k = Some (k', ipc') /\
       (stat <$> deref k' thread) = Some RT_THREAD_SUSPEND /\
       (thread ∉ rt_thread_priority_table k') /\
       (forall i, i <> thread -> deref k' i = deref k i) /\
       suspend_thread_count ipc' = suspend_thread_count ipc + 1 /\
       (flag ipc = RT_IPC_FLAG_FIFO \/ flag ipc = RT_IPC_FLAG_PRIO ->
          suspend_thread ipc' = suspend_thread ipc ++ [thread] /\
          wait_queue_inv k' ipc') /\
       (flag ipc <> RT_IPC_FLAG_FIFO -> flag ipc <> RT_IPC_FLAG_PRIO ->
          suspend_thread ipc' = suspend_thread ipc)) /\
  (forall w ws,
     suspend_thread ipc = w :: ws ->
     exists k',
       rt_ipc_object_resume ipc k =
         Some (k', mk_ipc (flag ipc) ws (suspend_thread_count ipc - 1)) /\
       (stat <$> deref k' w) = Some RT_THREAD_READY /\
       (forall i, i <> w -> deref k' i = deref k i) /\
       wait_queue_inv k' (mk_ipc (flag ipc) ws (suspend_thread_count ipc - 1))).
Proof.
  intros Hq. split; [|intros w ws; by apply rt_ipc_object_resume_inv].
  intros thread t H Hs Hc.
  rewrite (rt_ipc_object_suspend_queues ipc thread k t Hq H Hs Hc).
  eexists _, _. split; [reflexivity|].
  assert (D : forall i, i <> thread ->
            deref (set_ready (rt_list_remove thread (rt_thread_priority_table k))
                     (store thread (set_stat RT_THREAD_SUSPEND t) k)) i = deref k i).
  { intros i Hi. by rewrite deref_set_ready, deref_store_ne. }
  split; [by rewrite deref_set_ready, deref_store_eq by eauto|].
  split; [apply rt_list_remove_not_in|]. split; [exact D|]. split; [reflexivity|].
  cbn [suspend_thread]. split.
  - intros Hf.
    assert (Ef : (flag ipc =? RT_IPC_FLAG_FIFO) || (flag ipc =? RT_IPC_FLAG_PRIO) = true).
    { apply orb_true_iff. rewrite !Z.eqb_eq. done. }
    rewrite Ef. split; [done|].
    destruct Hq as (Hl & Hu & Hn & Ha).
    assert (Hw : thread ∉ suspend_thread ipc).
    { intros Hi. destruct (all_suspended_lookup _ _ _ Ha Hi) as (t0 & E0 & S0).
      congruence. }
    unfold wait_queue_inv, is_u32 in *. simpl. rewrite length_app. simpl.
    split; [lia|]. split; [lia|]. split.
    { apply NoDup_app. split; [done|]. split; [|apply NoDup_singleton].
      intros x Hx ->%list_elem_of_singleton. done. }
    unfold all_suspended. apply Forall_app. split.
    + eapply all_suspended_frame; [|exact Ha]. intros x Hx. apply D. congruence.
    + apply Forall_singleton. exists (set_stat RT_THREAD_SUSPEND t).
      split; [|reflexivity].
      rewrite deref_set_ready. apply deref_store_eq. eauto.
  - intros Hf Hp.
    assert (Ef : (flag ipc =? RT_IPC_FLAG_FIFO) || (flag ipc =? RT_IPC_FLAG_PRIO) = false).
    { apply orb_false_iff. rewrite !Z.eqb_neq. done. }
    by rewrite Ef.
Qed.

Lemma rt_ipc_object_wait_queue_witness :
  exists k1 ipc1 k2,
    rt_ipc_object_suspend prio_ipc 1%nat prio_kernel = Some (k1, ipc1) /\
    suspend_thread ipc1 = [0%nat; 1%nat] /\
    wait_queue_inv k1 ipc1 /\
    rt_ipc_object_resume ipc1 k1 = Some (k2, mk_ipc RT_IPC_FLAG_PRIO [1%nat] 1) /\
    (stat <$> deref k2 0%nat) = Some RT_THREAD_READY.
Proof.
  assert (Hq : wait_queue_inv prio_kernel prio_ipc).
  { split; [reflexivity|]. split; [unfold is_u32; simpl; lia|].
    split; [apply NoDup_singleton|]. apply Forall_singleton. by eexists. }
  destruct (rt_ipc_object_wait_queue prio_ipc prio_kernel Hq) as [S _].
  destruct (S 1%nat _ eq_refl eq_refl) as (k1 & ipc1 & E1 & _ & _ & _ & C & F & _);
    [simpl; lia|].
  destruct F as [L Hq1]; [by right|].
  destruct (rt_ipc_object_wait_queue ipc1 k1 Hq1) as [_ R].
  destruct (R 0%nat [1%nat] L) as (k2 & E2 & St & _).
  exists k1, ipc1, k2. split; [exact E1|]. split; [exact L|]. split; [exact Hq1|].
  split; [|exact St]. rewrite E2. f_equal. f_equal.
  assert (Ff : flag ipc1 = RT_IPC_FLAG_PRIO) by (by injection E1 as _ <-).
  rewrite Ff, C. reflexivity.
Defined.

Lemma wait_queue_inv_frame k k' ipc :
  (forall w, w ∈ suspend_thread ipc -> deref k' w = deref k w) ->
  wait_queue_inv k ipc -> wait_queue_inv k' ipc.
Proof.
  intros Hd (Hl & Hu & Hn & Ha). do 3 (split; [done|]).
  by eapply all_suspended_frame.
Qed.

Lemma rt_ipc_object_resume_all_wakes (fuel : nat) : forall ipc k,
  wait_queue_inv k ipc ->
  (length (suspend_thread ipc) <= fuel)%nat ->
  exists k',
    rt_ipc_object_resume_all fuel ipc k = Some (k', mk_ipc (flag ipc) [] 0) /\
    rt_thread_priority_table k' = rt_thread_priority_table k ++ suspend_thread ipc /\
    rt_current_thread k' = rt_current_thread k /\
    (forall w, w ∈ suspend_thread ipc ->
       exists t t', deref k w = Some t /\ deref k' w = Some t' /\
                    stat t' = RT_THREAD_READY /\ error t' = - RT_ERROR /\
                    sched_only t t') /\
    (forall i, i ∉ suspend_thread ipc -> deref k' i = deref k i).
Proof.
  induction fuel as [|fuel IH]; intros ipc k Hq Hf.
  - destruct ipc as [f l c]. simpl in Hf. destruct l; [|simpl in Hf; lia].
    destruct Hq as (Hc & _). simpl in Hc. subst c.
    exists k. simpl. rewrite app_nil_r. do 3 (split; [done|]).
    split; [by intros w ?%elem_of_nil|done].
  - destruct ipc as [f l c]. destruct l as [|w ws].
    + destruct Hq as (Hc & _). simpl in Hc. subst c.
      exists k. simpl. rewrite app_nil_r. do 3 (split; [done|]).
      split; [by intros ? ?%elem_of_nil|done].
    + pose proof Hq as (Hc & Hu & Hn & Ha). simpl in Hc, Hu, Hn, Ha, Hf.
      apply NoDup_cons in Hn as [Hw Hn]. apply Forall_cons in Ha as [(t & E & St) Ha].
      set (te := set_error (- RT_ERROR) t).
      assert (De : deref (store w te k) w = Some te) by (apply deref_store_eq; eauto).
      pose proof (rt_thread_resume_suspended w (w :: ws) _ te De St) as R.
      rewrite rt_list_remove_head, store_store in R by done.
      set (tr := set_stat RT_THREAD_READY _) in R.
      set (k1 := set_ready _ _) in R.
      assert (D1 : forall i, i <> w -> deref k1 i = deref k i).
      { intros i Hi. unfold k1. by rewrite deref_set_ready, deref_store_ne. }
      assert (Hq1 : wait_queue_inv k1 (mk_ipc f ws (wrap_u32 (c - 1)))).
      { unfold is_u32 in Hu.
        rewrite wrap_u32_id by (unfold is_u32; lia).
        unfold wait_queue_inv, is_u32. simpl. split; [lia|]. split; [lia|].
        split; [done|]. eapply all_suspended_frame; [|exact Ha].
        intros x Hx. apply D1. congruence. }
      destruct (IH _ k1 Hq1) as (k' & E' & T' & C' & W' & O'); [simpl; lia|].
      exists k'. split.
      { cbn [rt_ipc_object_resume_all suspend_thread flag suspend_thread_count].
        rewrite E. cbn [mbind option_bind]. fold te. rewrite R.
        cbn [mbind option_bind]. exact E'. }
      simpl in T', W', O'. split.
      { rewrite T'. unfold k1. simpl. by rewrite <- app_assoc. }
      split; [by rewrite C'|]. split.
      * intros x Hx. apply elem_of_cons in Hx as [->|Hx].
        -- exists t, tr. split; [done|]. rewrite (O' w Hw). split.
           { unfold k1. rewrite deref_set_ready. apply deref_store_eq. eauto. }
           split; [reflexivity|]. split; [reflexivity|]. by repeat split.
        -- destruct (W' x Hx) as (t0 & t' & E0 & E1 & ?).
           exists t0, t'. rewrite <- (D1 x) by congruence. done.
      * intros i Hi. apply not_elem_of_cons in Hi as [Hi1 Hi2].
        by rewrite (O' i Hi2), D1.
Qed.

(** X14.  Detaching an IPC object whose wait queue satisfies the invariant
    ends (the loop of [rt_ipc_object_resume_all] needs one turn for each
    waiter) and leaves the queue empty with count 0: every waiter is READY,
    linked at the tail of the ready table in queue order, with
    [-RT_ERROR] in its error field and its priorities and event request
    untouched; no other thread object changes.  This is the outcome of
    [rt_sem_detach], [rt_mutex_detach], [rt_event_detach], [rt_mb_detach]
    and [rt_mq_detach], which change nothing else of the object.  A waiter
    that runs again returns [-RT_ERROR] from its [rt_sem_take], and
    decrements the count once more. *)
Theorem rt_ipc_object_detach_wakes_all (fuel : nat) (ipc : rt_ipc_object) (k : kernel) :
  wait_queue_inv k ipc ->
  (length (suspend_thread ipc) <= fuel)%nat ->
  exists k',
    rt_ipc_object_resume_all fuel ipc k = Some (k', mk_ipc (flag ipc) [] 0) /\
    rt_thread_priority_table k' = rt_thread_priority_table k ++ suspend_thread ipc /\
    (forall w, w ∈ suspend_thread ipc ->
       exists t t', deref k w = Some t /\ deref k' w = Some t' /\
                    stat t' = RT_THREAD_READY /\ error t' = - RT_ERROR /\
                    sched_only t t') /\
    (forall i, i ∉ suspend_thread ipc -> deref k' i = deref k i) /\
    (forall value,
       rt_sem_detach fuel (mk_sem ipc value) k
         = Some (k', mk_sem (mk_ipc (flag ipc) [] 0) value, RT_EOK)) /\
    (forall value o p h,
       rt_mutex_detach fuel (mk_mutex ipc value o p h) k
         = Some (k', mk_mutex (mk_ipc (flag ipc) [] 0) value o p h, RT_EOK)) /\
    (forall s,
       rt_event_detach fuel (mk_event ipc s) k
         = Some (k', mk_event (mk_ipc (flag ipc) [] 0) s, RT_EOK)) /\
    (forall pool sz e i o,
       rt_mb_detach fuel (mk_mb ipc pool sz e i o) k
         = Some (k', mk_mb (mk_ipc (flag ipc) [] 0) pool sz e i o, RT_EOK)) /\
    (forall pool sz mx h tl fr e,
       rt_mq_detach fuel (mk_mq ipc pool sz mx h tl fr e) k
         = Some (k', mk_mq (mk_ipc (flag ipc) [] 0) pool sz mx h tl fr e, RT_EOK)) /\
    (forall w value, w ∈ suspend_thread ipc ->
       rt_sem_take_resumed (mk_sem (mk_ipc (flag ipc) [] 0) value) w k'
         = Some (k', mk_sem (mk_ipc (flag ipc) [] (2 ^ 32 - 1)) value, - RT_ERROR)).
Proof.
  intros Hq Hf.
  destruct (rt_ipc_object_resume_all_wakes fuel ipc k Hq Hf) as (k' & E & T & _ & W & O).
  exists k'. do 4 (split; [done|]).
  split; [intros; unfold rt_sem_detach; simpl; by rewrite E|].
  split; [intros; unfold rt_mutex_detach; simpl; by rewrite E|].
  split; [intros; unfold rt_event_detach; simpl; by rewrite E|].
  split; [intros; unfold rt_mb_detach; simpl; by rewrite E|].
  split; [intros; unfold rt_mq_detach; simpl; by rewrite E|].
  intros w value Hw. destruct (W w Hw) as (t & t' & _ & E' & _ & Er & _).
  unfold rt_sem_take_resumed. rewrite E'. simpl. rewrite Er. reflexivity.
Qed.

(** Threads 0 and 1 wait on an object; thread 2 runs. *)
Lemma rt_ipc_object_detach_wakes_all_witness :
  exists k',
    rt_sem_detach 2
      (mk_sem (mk_ipc RT_IPC_FLAG_FIFO [0%nat; 1%nat] 2) (-2))
      (mk_kernel [thread_at 10 10 RT_THREAD_SUSPEND; thread_at 5 5 RT_THREAD_SUSPEND;
                  thread_at 20 20 RT_THREAD_READY] 2%nat [2%nat] [])
      = Some (k', mk_sem (mk_ipc RT_IPC_FLAG_FIFO [] 0) (-2), RT_EOK) /\
    rt_thread_priority_table k' = [2%nat; 0%nat; 1%nat] /\
    rt_sem_take_resumed (mk_sem (mk_ipc RT_IPC_FLAG_FIFO [] 0) (-2)) 1%nat k'
      = Some (k', mk_sem (mk_ipc RT_IPC_FLAG_FIFO [] (2 ^ 32 - 1)) (-2), - RT_ERROR).
Proof.
  destruct (rt_ipc_object_detach_wakes_all 2
    (mk_ipc RT_IPC_FLAG_FIFO [0%nat; 1%nat] 2)
    (mk_kernel [thread_at 10 10 RT_THREAD_SUSPEND; thread_at 5 5 RT_THREAD_SUSPEND;
                thread_at 20 20 RT_THREAD_READY] 2%nat [2%nat] []))
    as (k' & _ & T & _ & _ & S & _ & _ & _ & _ & R).
  - split; [reflexivity|]. split; [unfold is_u32; simpl; lia|].
    split; [apply NoDup_ListNoDup; repeat constructor; simpl; intuition lia|].
    repeat constructor; by eexists.
  - simpl. lia.
  - exists k'. split; [apply S|]. split; [exact T|].
    apply (R 1%nat (-2)). apply elem_of_cons. right. apply elem_of_cons. by left.
Defined.

(** ** Blocking on an IPC object and waking up *)

Lemma store_set_ready i t r k : store i t (set_ready r k) = set_ready r (store i t k).
Proof. reflexivity. Qed.

Lemma set_thread_timer_same t : set_thread_timer (thread_timer t) t = t.
Proof. by destruct t. Qed.

Lemma start_thread_timer_eq thread time k t :
  deref k thread = Some t ->
  start_thread_timer thread time k =
    Some (store thread
            (set_thread_timer
               (if 0 <? time then mk_timer true time else thread_timer t) t) k).
Proof.
  intros H. unfold start_thread_timer. destruct (0 <? time).
  - rewrite H. reflexivity.
  - by rewrite set_thread_timer_same, store_same.
Qed.

Lemma wait_queue_inv_snoc k k' ipc thread tb :
  wait_queue_inv k ipc ->
  (forall w, w ∈ suspend_thread ipc -> deref k' w = deref k w) ->
  deref k' thread = Some tb -> stat tb = RT_THREAD_SUSPEND ->
  thread ∉ suspend_thread ipc ->
  suspend_thread_count ipc < 2 ^ 32 - 1 ->
  wait_queue_inv k'
    (mk_ipc (flag ipc) (suspend_thread ipc ++ [thread]) (suspend_thread_count ipc + 1)).
Proof.
  intros (Hl & Hu & Hn & Ha) Hd Ht Hs Hw Hc.
  unfold wait_queue_inv, is_u32 in *. simpl. rewrite length_app. simpl.
  split; [lia|]. split; [lia|]. split.
  { apply NoDup_app. split; [done|]. split; [|apply NoDup_singleton].
    intros x Hx ->%list_elem_of_singleton. done. }
  unfold all_suspended. apply Forall_app. split.
  - by eapply all_suspended_frame.
  - apply Forall_singleton. eauto.
Qed.

Lemma wait_queue_inv_not_ready k ipc thread t :
  wait_queue_inv k ipc -> deref k thread = Some t -> stat t = RT_THREAD_READY ->
  thread ∉ suspend_thread ipc.
Proof.
  intros (_ & _ & _ & Ha) H Hs Hi.
  destruct (all_suspended_lookup _ _ _ Ha Hi) as (t0 & E0 & S0). congruence.
Qed.

(** The running thread blocks: the common part of the blocking calls, from
    [rt_ipc_object_suspend] to the start of the thread timer, on a thread
    object [t0] the call has prepared. *)
Lemma ipc_wait_blocks ipc time k t t0 :
  wait_queue_inv k ipc ->
  deref k (rt_thread_self k) = Some t -> stat t = RT_THREAD_READY ->
  stat t0 = RT_THREAD_READY ->
  suspend_thread_count ipc < 2 ^ 32 - 1 ->
  flag ipc = RT_IPC_FLAG_FIFO \/ flag ipc = RT_IPC_FLAG_PRIO ->
  let self := rt_thread_self k in
  let r := rt_list_remove self (rt_thread_priority_table k) in
  let tb := set_thread_timer (if 0 <? time then mk_timer true time else thread_timer t0)
              (set_stat RT_THREAD_SUSPEND t0) in
  let ipc' := mk_ipc (flag ipc) (suspend_thread ipc ++ [self])
                (suspend_thread_count ipc + 1) in
  rt_ipc_object_suspend ipc self (store self t0 k) =
    Some (set_ready r (store self (set_stat RT_THREAD_SUSPEND t0) k), ipc') /\
  start_thread_timer self time
      (set_ready r (store self (set_stat RT_THREAD_SUSPEND t0) k)) =
    Some (set_ready r (store self tb k)) /\
  wait_queue_inv (set_ready r (store self tb k)) ipc'.
Proof.
  intros Hq H Hs Hs0 Hc Hf self r tb ipc'.
  assert (Hw : self ∉ suspend_thread ipc) by (by eapply wait_queue_inv_not_ready).
  assert (Hq0 : wait_queue_inv (store self t0 k) ipc).
  { eapply wait_queue_inv_frame; [|exact Hq]. intros w Hw'.
    apply deref_store_ne. congruence. }
  assert (D0 : deref (store self t0 k) self = Some t0) by (apply deref_store_eq; eauto).
  pose proof (rt_ipc_object_suspend_queues ipc self _ t0 Hq0 D0 Hs0 Hc) as E1.
  assert (Ef : (flag ipc =? RT_IPC_FLAG_FIFO) || (flag ipc =? RT_IPC_FLAG_PRIO) = true).
  { apply orb_true_iff. rewrite !Z.eqb_eq. done. }
  rewrite Ef, store_store in E1. split; [exact E1|]. split.
  - rewrite (start_thread_timer_eq self time _ (set_stat RT_THREAD_SUSPEND t0)).
    + by rewrite store_set_ready, store_store.
    + rewrite deref_set_ready. apply deref_store_eq. eauto.
  - apply (wait_queue_inv_snoc k _ ipc self tb); [exact Hq| | |reflexivity|done|done].
    + intros w Hw'. rewrite deref_set_ready. apply deref_store_ne. congruence.
    + rewrite deref_set_ready. apply deref_store_eq. eauto.
Qed.

Lemma rt_ipc_object_resume_eq ipc k w ws t :
  wait_queue_inv k ipc -> suspend_thread ipc = w :: ws -> deref k w = Some t ->
  rt_ipc_object_resume ipc k =
    Some (set_ready (rt_thread_priority_table k ++ [w])
            (store w
               (set_stat RT_THREAD_READY
                  (set_thread_timer (mk_timer false (timer_init_tick (thread_timer t))) t))
               k),
          mk_ipc (flag ipc) ws (suspend_thread_count ipc - 1)).
Proof.
  intros Hq Hl H. pose proof Hq as (Hc & Hu & Hn & Ha).
  rewrite Hl in Hn, Ha, Hc. apply NoDup_cons in Hn as [Hw Hn].
  apply Forall_cons in Ha as [(t0 & E0 & S0) _].
  assert (t0 = t) as -> by congruence.
  unfold rt_ipc_object_resume. rewrite Hl.
  rewrite (rt_thread_resume_suspended w (w :: ws) k t H S0).
  cbn [mbind option_bind]. rewrite rt_list_remove_head by done.
  do 3 f_equal. apply wrap_u32_id. unfold is_u32 in *. simpl in Hc. lia.
Qed.

(** ** Semaphore: hand-over and time-out *)

Lemma rt_sem_take_blocks sem time k t :
  wait_queue_inv k (sem_parent sem) ->
  deref k (rt_thread_self k) = Some t -> stat t = RT_THREAD_READY ->
  suspend_thread_count (sem_parent sem) < 2 ^ 32 - 1 ->
  flag (sem_parent sem) = RT_IPC_FLAG_FIFO \/ flag (sem_parent sem) = RT_IPC_FLAG_PRIO ->
  - 2 ^ 31 < sem_value sem <= 0 -> time <> 0 ->
  let self := rt_thread_self k in
  let tb := set_thread_timer
              (if 0 <? time then mk_timer true time else thread_timer t)
              (set_stat RT_THREAD_SUSPEND (set_error RT_EOK t)) in
  let k1 := set_ready (rt_list_remove self (rt_thread_priority_table k))
              (store self tb k) in
  let ipc1 := mk_ipc (flag (sem_parent sem)) (suspend_thread (sem_parent sem) ++ [self])
                (suspend_thread_count (sem_parent sem) + 1) in
  rt_sem_take sem time k = Some (k1, mk_sem ipc1 (sem_value sem - 1), Scheduled) /\
  wait_queue_inv k1 ipc1 /\
  deref k1 self = Some tb.
Proof.
  intros Hq H Hs Hc Hf Hv Ht self tb k1 ipc1.
  destruct (ipc_wait_blocks (sem_parent sem) time k t (set_error RT_EOK t)
              Hq H Hs Hs Hc Hf) as (E1 & E2 & Hq1).
  split; [|split; [exact Hq1|]].
  - unfold rt_sem_take.
    destruct (Z.ltb_spec 0 (sem_value sem)) as [?|_]; [lia|].
    destruct (Z.eqb_spec time 0) as [?|_]; [lia|].
    rewrite H. cbn [mbind option_bind]. cbv zeta in E1, E2.
    rewrite E1. cbn [mbind option_bind]. rewrite E2.
    cbn [mbind option_bind].
    rewrite wrap_s32_id by (unfold is_s32; lia). reflexivity.
  - unfold k1. rewrite deref_set_ready. apply deref_store_eq. eauto.
Qed.

Lemma rt_sem_release_no_waiter sem k :
  - 2 ^ 31 <= sem_value sem < 2 ^ 31 - 1 ->
  0 <= sem_value sem \/ suspend_thread_count (sem_parent sem) <= 0 ->
  rt_sem_release sem k = Some (k, mk_sem (sem_parent sem) (sem_value sem + 1), RT_EOK).
Proof.
  intros Hv Hc. unfold rt_sem_release.
  rewrite wrap_s32_id by (unfold is_s32; lia).
  destruct (Z.leb_spec (sem_value sem + 1) 0); [|done].
  destruct (Z.ltb_spec 0 (suspend_thread_count (sem_parent sem))); [lia|done].
Qed.

Lemma rt_sem_release_waiter sem k w ws t :
  wait_queue_inv k (sem_parent sem) ->
  - 2 ^ 31 <= sem_value sem < 0 ->
  suspend_thread (sem_parent sem) = w :: ws -> deref k w = Some t ->
  rt_sem_release sem k =
    Some (set_ready (rt_thread_priority_table k ++ [w])
            (store w
               (set_stat RT_THREAD_READY
                  (set_thread_timer (mk_timer false (timer_init_tick (thread_timer t))) t))
               k),
          mk_sem (mk_ipc (flag (sem_parent sem)) ws
                    (suspend_thread_count (sem_parent sem) - 1))
            (sem_value sem + 1), RT_EOK).
Proof.
  intros Hq Hv Hl H. unfold rt_sem_release.
  rewrite wrap_s32_id by (unfold is_s32; lia).
  destruct (Z.leb_spec (sem_value sem + 1) 0); [|lia].
  destruct (Z.ltb_spec 0 (suspend_thread_count (sem_parent sem))) as [_|Hc].
  - cbn [andb]. rewrite (rt_ipc_object_resume_eq _ k w ws t Hq Hl H). reflexivity.
  - destruct Hq as (Hc' & _). rewrite Hl in Hc'. simpl in Hc'. lia.
Qed.

(** X15.  [rt_sem_release] on a semaphore whose wait queue satisfies the
    invariant.  With a negative value and waiters it makes the thread at
    the head of the queue READY at the tail of the ready table, stops its
    timer, unlinks it, changes no other thread object, keeps the invariant
    and adds 1 to the value; the [rt_sem_take] of that thread then returns
    [RT_EOK] and changes nothing more.  With a value [>= 0], or without
    waiters, it only adds 1 to the value.  A thread that blocks in
    [rt_sem_take] on a semaphore without waiters and is released by the
    next [rt_sem_release] finds the semaphore as it was before its call. *)
Theorem rt_sem_release_hands_over (sem : rt_semaphore) (k : kernel) :
  wait_queue_inv k (sem_parent sem) ->
  - 2 ^ 31 < sem_value sem < 2 ^ 31 - 1 ->
  (forall w ws t,
     suspend_thread (sem_parent sem) = w :: ws -> sem_value sem < 0 ->
     deref k w = Some t ->
     exists k' sem',
       rt_sem_release sem k = Some (k', sem', RT_EOK) /\
       sem' = mk_sem (mk_ipc (flag (sem_parent sem)) ws
                        (suspend_thread_count (sem_parent sem) - 1))
                (sem_value sem + 1) /\
       deref k' w =
         Some (set_stat RT_THREAD_READY
                 (set_thread_timer (mk_timer false (timer_init_tick (thread_timer t))) t)) /\
       rt_thread_priority_table k' = rt_thread_priority_table k ++ [w] /\
       (forall i, i <> w -> deref k' i = deref k i) /\
       wait_queue_inv k' (sem_parent sem') /\
       (error t = RT_EOK -> rt_sem_take_resumed sem' w k' = Some (k', sem', RT_EOK))) /\
  (0 <= sem_value sem \/ suspend_thread (sem_parent sem) = [] ->
     rt_sem_release sem k =
       Some (k, mk_sem (sem_parent sem) (sem_value sem + 1), RT_EOK)) /\
  (forall time t c,
     suspend_thread (sem_parent sem) = [] ->
     flag (sem_parent sem) = RT_IPC_FLAG_FIFO \/ flag (sem_parent sem) = RT_IPC_FLAG_PRIO ->
     deref k (rt_thread_self k) = Some t -> stat t = RT_THREAD_READY ->
     sem_value sem <= 0 -> time <> 0 ->
     exists k1 sem1 k2 sem2,
       rt_sem_take sem time k = Some (k1, sem1, Scheduled) /\
       (stat <$> deref k1 (rt_thread_self k)) = Some RT_THREAD_SUSPEND /\
       rt_sem_release sem1 (switch_to c k1) = Some (k2, sem2, RT_EOK) /\
       sem2 = mk_sem (mk_ipc (flag (sem_parent sem)) [] 0) (sem_value sem) /\
       (stat <$> deref k2 (rt_thread_self k)) = Some RT_THREAD_READY /\
       rt_sem_take_resumed sem2 (rt_thread_self k) (switch_to (rt_thread_self k) k2)
         = Some (switch_to (rt_thread_self k) k2, sem2, RT_EOK)).
Proof.
  intros Hq Hv. split; [|split].
  - intros w ws t Hl Hn H.
    rewrite (rt_sem_release_waiter sem k w ws t Hq) by (done || lia).
    eexists _, _. split; [reflexivity|]. split; [reflexivity|].
    assert (D : deref (set_ready (rt_thread_priority_table k ++ [w])
                  (store w (set_stat RT_THREAD_READY
                     (set_thread_timer (mk_timer false (timer_init_tick (thread_timer t))) t))
                     k)) w
                = Some (set_stat RT_THREAD_READY
                     (set_thread_timer (mk_timer false (timer_init_tick (thread_timer t))) t))).
    { rewrite deref_set_ready. apply deref_store_eq. eauto. }
    split; [exact D|]. split; [reflexivity|].
    assert (O : forall i, i <> w ->
              deref (set_ready (rt_thread_priority_table k ++ [w])
                  (store w (set_stat RT_THREAD_READY
                     (set_thread_timer (mk_timer false (timer_init_tick (thread_timer t))) t))
                     k)) i = deref k i).
    { intros i Hi. by rewrite deref_set_ready, deref_store_ne. }
    split; [exact O|]. split.
    + destruct (rt_ipc_object_resume_inv _ k w ws Hq Hl) as (k' & E & _ & _ & Hq').
      rewrite (rt_ipc_object_resume_eq _ k w ws t Hq Hl H) in E.
      injection E as <-. exact Hq'.
    + intros He. unfold rt_sem_take_resumed. rewrite D. cbn [mbind option_bind].
      change (error (set_stat _ (set_thread_timer _ t))) with (error t).
      by rewrite He.
  - intros Hc. apply rt_sem_release_no_waiter; [lia|].
    destruct Hc as [?|Hl]; [by left|right].
    destruct Hq as (Hc & _). rewrite Hl in Hc. simpl in Hc. lia.
  - intros time t c Hl Hf H Hs Hn Ht.
    assert (Hc : suspend_thread_count (sem_parent sem) = 0).
    { destruct Hq as (Hc & _). by rewrite Hl in Hc. }
    destruct (rt_sem_take_blocks sem time k t Hq H Hs) as (E1 & Hq1 & D1);
      [lia|done|lia|done|].
    rewrite Hl, Hc in E1, Hq1. simpl in E1, Hq1.
    set (self := rt_thread_self k) in *.
    set (tb := set_thread_timer _ _) in *. set (k1 := set_ready _ _) in *.
    set (sem1 := mk_sem (mk_ipc (flag (sem_parent sem)) [self] 1) (sem_value sem - 1)).
    assert (E1' : rt_sem_take sem time k = Some (k1, sem1, Scheduled)) by exact E1.
    assert (Hq1' : wait_queue_inv (switch_to c k1) (sem_parent sem1)) by exact Hq1.
    assert (E2 : rt_sem_release sem1 (switch_to c k1) =
                 Some (set_ready (rt_thread_priority_table k1 ++ [self])
                         (store self
                            (set_stat RT_THREAD_READY
                               (set_thread_timer
                                  (mk_timer false (timer_init_tick (thread_timer tb))) tb))
                            (switch_to c k1)),
                       mk_sem (mk_ipc (flag (sem_parent sem)) [] 0) (sem_value sem),
                       RT_EOK)).
    { rewrite (rt_sem_release_waiter sem1 (switch_to c k1) self [] tb Hq1');
        [|simpl; lia|reflexivity|exact D1].
      simpl. by replace (sem_value sem - 1 + 1) with (sem_value sem) by lia. }
    eexists k1, sem1, _, _. split; [exact E1'|]. split; [by rewrite D1|].
    split; [exact E2|]. split; [reflexivity|].
    assert (D2 : forall c',
              deref (switch_to c'
                   (set_ready (rt_thread_priority_table k1 ++ [self])
                      (store self (set_stat RT_THREAD_READY
                         (set_thread_timer (mk_timer false (timer_init_tick (thread_timer tb)))
                            tb)) (switch_to c k1)))) self
                 = Some (set_stat RT_THREAD_READY
                         (set_thread_timer (mk_timer false (timer_init_tick (thread_timer tb)))
                            tb))).
    { intros c'. apply (deref_store_eq (switch_to c k1)). exact (mk_is_Some _ _ D1). }
    split; [exact (f_equal (fmap stat) (D2 c))|].
    unfold rt_sem_take_resumed. rewrite D2. reflexivity.
Qed.

Lemma rt_sem_release_hands_over_witness :
  exists k1 sem1 k2,
    rt_sem_take (rt_sem_init 0 RT_IPC_FLAG_FIFO) (-1) low_high_kernel
      = Some (k1, sem1, Scheduled) /\
    rt_sem_release sem1 (switch_to 1%nat k1)
      = Some (k2, rt_sem_init 0 RT_IPC_FLAG_FIFO, RT_EOK) /\
    (stat <$> deref k2 0%nat) = Some RT_THREAD_READY /\
    rt_sem_take_resumed (rt_sem_init 0 RT_IPC_FLAG_FIFO) 0%nat (switch_to 0%nat k2)
      = Some (switch_to 0%nat k2, rt_sem_init 0 RT_IPC_FLAG_FIFO, RT_EOK).
Proof.
  assert (Hq : wait_queue_inv low_high_kernel (sem_parent (rt_sem_init 0 RT_IPC_FLAG_FIFO))).
  { split; [reflexivity|]. split; [unfold is_u32; simpl; lia|].
    split; [apply NoDup_nil_2|]. constructor. }
  destruct (rt_sem_release_hands_over (rt_sem_init 0 RT_IPC_FLAG_FIFO) low_high_kernel Hq)
    as (_ & _ & B); [vm_compute; split; reflexivity|].
  destruct (B (-1) _ 1%nat eq_refl (or_introl eq_refl) eq_refl eq_refl)
    as (k1 & sem1 & k2 & sem2 & E1 & _ & E2 & -> & S & E3);
    [vm_compute; discriminate|lia|].
  exists k1, sem1, k2. split; [exact E1|]. split; [exact E2|]. split; [exact S|exact E3].
Defined.

Lemma rt_list_remove_snoc w l : w ∉ l -> rt_list_remove w (l ++ [w]) = l.
Proof.
  intros H. rewrite (rt_list_remove_middle w l []); [apply app_nil_r|done|].
  by intros ?%elem_of_nil.
Qed.

(** The expiry of the timer of a thread that waits in the queue [wl]. *)
Lemma rt_timer_expire_waiting thread wl k tb :
  deref k thread = Some tb -> stat tb = RT_THREAD_SUSPEND ->
  timer_activated (thread_timer tb) = true ->
  rt_timer_expire thread wl k =
    Some (set_ready (rt_thread_priority_table k ++ [thread])
            (store thread
               (set_stat RT_THREAD_READY
                  (set_error (- RT_ETIMEOUT)
                     (set_thread_timer
                        (mk_timer false (timer_init_tick (thread_timer tb))) tb))) k),
          rt_list_remove thread wl).
Proof.
  intros H Hs Ha. rewrite (rt_timer_expire_armed thread wl k tb H Ha).
  erewrite rt_thread_timeout_suspended;
    [|apply deref_store_eq; eauto|exact Hs].
  by rewrite store_store.
Qed.

(** X16.  A [rt_sem_take] that times out leaves the value of the
    semaphore one lower than it was: the call decrements the value before
    it blocks, and neither the expiry of the timer nor the return path adds
    it back.  The thread is READY again with [-RT_ETIMEOUT], the wait queue
    and its count are as before the call, no other thread object has
    changed.  On a semaphore without waiters the next [rt_sem_release] only
    brings the value back to what it was before the failed take, so a
    [rt_sem_trytake] after it still returns [-RT_ETIMEOUT]. *)
Theorem rt_sem_take_timeout_skews_value (sem : rt_semaphore) (time : Z) (k : kernel)
    (t : rt_thread) :
  wait_queue_inv k (sem_parent sem) ->
  deref k (rt_thread_self k) = Some t -> stat t = RT_THREAD_READY ->
  suspend_thread_count (sem_parent sem) < 2 ^ 32 - 1 ->
  flag (sem_parent sem) = RT_IPC_FLAG_FIFO \/ flag (sem_parent sem) = RT_IPC_FLAG_PRIO ->
  - 2 ^ 31 < sem_value sem <= 0 -> 0 < time ->
  exists k1 sem1 k2 sem2 k3 sem3,
    rt_sem_take sem time k = Some (k1, sem1, Scheduled) /\
    rt_sem_wait_timeout sem1 (rt_thread_self k) k1 = Some (k2, sem2) /\
    rt_sem_take_resumed sem2 (rt_thread_self k) k2 = Some (k3, sem3, - RT_ETIMEOUT) /\
    sem3 = mk_sem (mk_ipc (flag (sem_parent sem)) (suspend_thread (sem_parent sem))
                     (suspend_thread_count (sem_parent sem)))
             (sem_value sem - 1) /\
    (stat <$> deref k3 (rt_thread_self k)) = Some RT_THREAD_READY /\
    (forall i, i <> rt_thread_self k -> deref k3 i = deref k i) /\
    (suspend_thread (sem_parent sem) = [] ->
       rt_sem_release sem3 k3 =
         Some (k3, mk_sem (sem_parent sem3) (sem_value sem), RT_EOK) /\
       rt_sem_trytake (mk_sem (sem_parent sem3) (sem_value sem)) k3 =
         Some (k3, mk_sem (sem_parent sem3) (sem_value sem), Returned (- RT_ETIMEOUT))).
Proof.
  intros Hq H Hs Hc Hf Hv Ht.
  destruct (rt_sem_take_blocks sem time k t Hq H Hs Hc Hf Hv) as (E1 & Hq1 & D1); [lia|].
  assert (Hw : rt_thread_self k ∉ suspend_thread (sem_parent sem))
    by (by eapply wait_queue_inv_not_ready).
  set (self := rt_thread_self k) in *.
  assert (Et : (0 <? time) = true) by (apply Z.ltb_lt; lia).
  rewrite Et in E1, Hq1, D1.
  set (tb := set_thread_timer (mk_timer true time) _) in *.
  set (k1 := set_ready _ _) in *.
  pose proof (rt_timer_expire_waiting self (suspend_thread (sem_parent sem) ++ [self])
                k1 tb D1 eq_refl eq_refl) as E2.
  rewrite rt_list_remove_snoc in E2 by done.
  set (k2 := set_ready _ _) in E2.
  assert (D2 : deref k2 self =
               Some (set_stat RT_THREAD_READY
                  (set_error (- RT_ETIMEOUT)
                     (set_thread_timer
                        (mk_timer false (timer_init_tick (thread_timer tb))) tb)))).
  { unfold k2. rewrite deref_set_ready. apply deref_store_eq. eauto. }
  eexists k1, _, k2, _, k2, _. split; [exact E1|]. split.
  { unfold rt_sem_wait_timeout. cbn [sem_parent suspend_thread]. rewrite E2.
    reflexivity. }
  split.
  { unfold rt_sem_take_resumed. rewrite D2. reflexivity. }
  unfold rt_ipc_object_decrease.
  cbn [sem_parent sem_value flag suspend_thread suspend_thread_count].
  assert (Ec : wrap_u32 (suspend_thread_count (sem_parent sem) + 1 - 1)
               = suspend_thread_count (sem_parent sem)).
  { destruct Hq as (_ & Hu & _). unfold is_u32 in Hu.
    replace (suspend_thread_count (sem_parent sem) + 1 - 1)
      with (suspend_thread_count (sem_parent sem)) by lia.
    by apply wrap_u32_id. }
  rewrite Ec. split; [reflexivity|]. split; [by rewrite D2|]. split.
  { intros i Hi. unfold k2. rewrite deref_set_ready, deref_store_ne by done.
    unfold k1. by rewrite deref_set_ready, deref_store_ne. }
  intros Hl.
  assert (Hc0 : suspend_thread_count (sem_parent sem) = 0).
  { destruct Hq as (Hc' & _). by rewrite Hl in Hc'. }
  split.
  - rewrite rt_sem_release_no_waiter; cbn [sem_parent sem_value suspend_thread_count].
    + by replace (sem_value sem - 1 + 1) with (sem_value sem) by lia.
    + lia.
    + right. lia.
  - unfold rt_sem_trytake, rt_sem_take. cbn [sem_value].
    destruct (Z.ltb_spec 0 (sem_value sem)); [lia|done].
Qed.

Lemma rt_sem_take_timeout_skews_value_witness :
  exists k1 sem1 k2 sem2 k3 sem3,
    rt_sem_take (rt_sem_init 0 RT_IPC_FLAG_FIFO) 100 solo_kernel
      = Some (k1, sem1, Scheduled) /\
    rt_sem_wait_timeout sem1 0%nat k1 = Some (k2, sem2) /\
    rt_sem_take_resumed sem2 0%nat k2 = Some (k3, sem3, - RT_ETIMEOUT) /\
    sem3 = mk_sem (mk_ipc RT_IPC_FLAG_FIFO [] 0) (-1) /\
    rt_sem_release sem3 k3 = Some (k3, rt_sem_init 0 RT_IPC_FLAG_FIFO, RT_EOK) /\
    rt_sem_trytake (rt_sem_init 0 RT_IPC_FLAG_FIFO) k3 =
      Some (k3, rt_sem_init 0 RT_IPC_FLAG_FIFO, Returned (- RT_ETIMEOUT)).
Proof.
  assert (Hq : wait_queue_inv solo_kernel (sem_parent (rt_sem_init 0 RT_IPC_FLAG_FIFO))).
  { split; [reflexivity|]. split; [unfold is_u32; simpl; lia|].
    split; [apply NoDup_nil_2|]. constructor. }
  destruct (rt_sem_take_timeout_skews_value (rt_sem_init 0 RT_IPC_FLAG_FIFO) 100
              solo_kernel _ Hq eq_refl eq_refl)
    as (k1 & sem1 & k2 & sem2 & k3 & sem3 & E1 & E2 & E3 & -> & _ & _ & R);
    [simpl; lia|by left|vm_compute; split; [reflexivity|discriminate]|lia|].
  destruct (R eq_refl) as [R1 R2].
  exists k1, sem1, k2, sem2, k3, (mk_sem (mk_ipc RT_IPC_FLAG_FIFO [] 0) (-1)).
  split; [exact E1|]. split; [exact E2|].
  split; [exact E3|]. split; [reflexivity|]. split; [exact R1|exact R2].
Defined.

(** ** Mutex: hand-over and time-out *)

Lemma rt_thread_control_priority_eq pmax o p k to :
  deref k o = Some to ->
  exists k1,
    rt_thread_control pmax o RT_THREAD_CTRL_CHANGE_PRIORITY p k = Some (k1, - RT_EOK) /\
    rt_current_thread k1 = rt_current_thread k /\
    deref k1 o = Some (set_priority pmax p to) /\
    (forall i, i <> o -> deref k1 i = deref k i).
Proof.
  intros H. unfold rt_thread_control. rewrite H. cbn [mbind option_bind].
  destruct (thread_stat_eqb (stat to) RT_THREAD_READY) eqn:Es.
  - apply thread_stat_eqb_spec in Es.
    unfold rt_schedule_remove_thread, rt_schedule_insert_thread.
    rewrite H. cbn [mbind option_bind]. rewrite deref_set_ready, H.
    cbn [mbind option_bind].
    rewrite deref_store_eq by (rewrite deref_set_ready; eauto).
    cbn [mbind option_bind].
    eexists. split; [reflexivity|]. split; [reflexivity|]. split.
    + rewrite deref_set_ready, deref_store_eq by deref_is_Some.
      f_equal. rewrite <- Es, <- (set_priority_stat pmax p to).
      by destruct (set_priority pmax p to).
    + intros i Hi. by rewrite deref_set_ready, !deref_store_ne by done.
  - eexists. split; [reflexivity|]. split; [reflexivity|].
    split; [apply deref_store_eq; eauto|].
    intros i Hi. by rewrite deref_store_ne.
Qed.

Lemma set_priority_fields pmax p t :
  init_priority (set_priority pmax p t) = init_priority t /\
  current_priority (set_priority pmax p t) = p /\
  stat (set_priority pmax p t) = stat t /\
  error (set_priority pmax p t) = error t.
Proof. unfold set_priority. by destruct (32 <? pmax). Qed.

(** The conditional priority change of [rt_mutex_take] and
    [rt_mutex_release]. *)
Lemma priority_step pmax (cond : bool) o p k to :
  deref k o = Some to ->
  exists k1 to',
    (if cond
     then fst <$> rt_thread_control pmax o RT_THREAD_CTRL_CHANGE_PRIORITY p k
     else Some k) = Some k1 /\
    rt_current_thread k1 = rt_current_thread k /\
    deref k1 o = Some to' /\
    init_priority to' = init_priority to /\
    current_priority to' = (if cond then p else current_priority to) /\
    stat to' = stat to /\ error to' = error to /\
    (forall i, i <> o -> deref k1 i = deref k i).
Proof.
  intros H. destruct cond.
  - destruct (rt_thread_control_priority_eq pmax o p k to H) as (k1 & E & C & D & O).
    destruct (set_priority_fields pmax p to) as (P1 & P2 & P3 & P4).
    exists k1, (set_priority pmax p to). rewrite E. by repeat split.
  - exists k, to. by repeat split.
Qed.

Lemma rt_mutex_take_waits pmax mutex time k t o to :
  wait_queue_inv k (mutex_parent mutex) ->
  deref k (rt_thread_self k) = Some t -> stat t = RT_THREAD_READY ->
  owner mutex = Some o -> o <> rt_thread_self k -> deref k o = Some to ->
  (o ∉ suspend_thread (mutex_parent mutex)) ->
  suspend_thread_count (mutex_parent mutex) < 2 ^ 32 - 1 ->
  flag (mutex_parent mutex) = RT_IPC_FLAG_FIFO \/
    flag (mutex_parent mutex) = RT_IPC_FLAG_PRIO ->
  - 2 ^ 31 < mutex_value mutex <= 0 -> time <> 0 ->
  let tb := set_thread_timer
              (if 0 <? time then mk_timer true time else thread_timer t)
              (set_stat RT_THREAD_SUSPEND (set_error RT_EOK t)) in
  let ipc1 := mk_ipc (flag (mutex_parent mutex))
                (suspend_thread (mutex_parent mutex) ++ [rt_thread_self k])
                (suspend_thread_count (mutex_parent mutex) + 1) in
  exists k1 to',
    rt_mutex_take pmax mutex time k =
      Some (k1, mk_mutex ipc1 (mutex_value mutex - 1) (Some o)
                  (original_priority mutex) (hold mutex), Scheduled) /\
    rt_current_thread k1 = rt_thread_self k /\
    wait_queue_inv k1 ipc1 /\
    deref k1 (rt_thread_self k) = Some tb /\
    deref k1 o = Some to' /\
    init_priority to' = init_priority to /\
    current_priority to' =
      (if current_priority t <? current_priority to
       then current_priority t else current_priority to) /\
    stat to' = stat to /\
    (forall i, i <> rt_thread_self k -> i <> o -> deref k1 i = deref k i).
Proof.
  intros Hq H Hs Ho Hne Hto Hno Hc Hf Hv Ht tb ipc1.
  set (self := rt_thread_self k) in *.
  set (t1 := set_error RT_EOK t).
  set (k0 := store self t1 k).
  assert (D0 : deref k0 self = Some t1) by (apply deref_store_eq; eauto).
  assert (D0o : deref k0 o = Some to) by (unfold k0; by rewrite deref_store_ne).
  destruct (priority_step pmax (current_priority t1 <? current_priority to) o
              (current_priority t1) k0 to D0o)
    as (k' & to' & Ep & Cp & Dp & P1 & P2 & P3 & P4 & Op).
  assert (D' : deref k' self = Some t1) by (rewrite Op; done).
  assert (Hq' : wait_queue_inv k' (mutex_parent mutex)).
  { eapply wait_queue_inv_frame; [|exact Hq]. intros w Hw.
    assert (w <> self).
    { intros ->. by eapply (wait_queue_inv_not_ready k (mutex_parent mutex) self t). }
    rewrite Op by congruence. unfold k0. by rewrite deref_store_ne. }
  assert (Sf : rt_thread_self k' = self) by exact Cp.
  destruct (ipc_wait_blocks (mutex_parent mutex) time k' t1 t1 Hq')
    as (E1 & E2 & Hq1); [by rewrite Sf|done|done|done|done|].
  cbv zeta in E1, E2, Hq1. rewrite Sf in E1, E2, Hq1.
  rewrite store_same in E1 by done.
  eexists _, to'. split.
  { unfold rt_mutex_take. fold self. rewrite H. cbn [mbind option_bind].
    fold t1 k0. rewrite owner_is_false by congruence.
    destruct (Z.ltb_spec 0 (mutex_value mutex)) as [?|_]; [lia|].
    destruct (Z.eqb_spec time 0) as [?|_]; [lia|].
    rewrite D0. cbn [mbind option_bind]. rewrite Ho. cbn [mbind option_bind].
    rewrite D0o. cbn [mbind option_bind]. rewrite Ep. cbn [mbind option_bind].
    rewrite E1. cbn [mbind option_bind]. rewrite E2. cbn [mbind option_bind].
    rewrite wrap_s32_id by (unfold is_s32; lia). reflexivity. }
  split; [exact Cp|]. split; [exact Hq1|].
  split; [rewrite deref_set_ready; apply deref_store_eq; eauto|].
  split; [by rewrite deref_set_ready, deref_store_ne|].
  do 3 (split; [done|]).
  intros i Hi1 Hi2. rewrite deref_set_ready, deref_store_ne, Op by done.
  unfold k0. by rewrite deref_store_ne.
Qed.

(** The last [rt_mutex_release] of the owner, the running thread. *)
Lemma rt_mutex_release_last pmax mutex k to :
  wait_queue_inv k (mutex_parent mutex) ->
  deref k (rt_thread_self k) = Some to ->
  owner mutex = Some (rt_thread_self k) ->
  (rt_thread_self k ∉ suspend_thread (mutex_parent mutex)) ->
  hold mutex = 1 -> - 2 ^ 31 <= mutex_value mutex < 2 ^ 31 - 1 ->
  exists k1 to',
    rt_current_thread k1 = rt_current_thread k /\
    deref k1 (rt_thread_self k) = Some to' /\
    init_priority to' = init_priority to /\
    current_priority to' = init_priority to /\
    (forall i, i <> rt_thread_self k -> deref k1 i = deref k i) /\
    wait_queue_inv k1 (mutex_parent mutex) /\
    rt_mutex_release pmax mutex k =
      ('(k2, ipc) ← (if (mutex_value mutex <=? 0)
                        && (0 <? suspend_thread_count (mutex_parent mutex))
                     then rt_ipc_object_resume (mutex_parent mutex) k1
                     else Some (k1, mutex_parent mutex));
       Some (k2, mk_mutex ipc (mutex_value mutex + 1) (Some (rt_thread_self k))
                   (original_priority mutex) 0, RT_EOK)).
Proof.
  intros Hq H Ho Hno Hh Hv. set (o := rt_thread_self k) in *.
  destruct (priority_step pmax (negb (init_priority to =? current_priority to)) o
              (init_priority to) k to H)
    as (k1 & to' & Ep & Cp & Dp & P1 & P2 & P3 & P4 & Op).
  exists k1, to'. split; [done|]. split; [done|]. split; [done|]. split.
  { rewrite P2. destruct (Z.eqb_spec (init_priority to) (current_priority to));
      simpl; congruence. }
  split; [done|]. split.
  { eapply wait_queue_inv_frame; [|exact Hq]. intros w Hw. apply Op. congruence. }
  unfold rt_mutex_release. fold o. rewrite owner_is_true by done. cbn [negb].
  rewrite Hh. change (wrap_s32 (1 - 1) =? 0) with true. cbn iota.
  rewrite Ho. cbn [mbind option_bind]. rewrite H. cbn [mbind option_bind].
  rewrite Ep. cbn [mbind option_bind].
  rewrite wrap_s32_id by (unfold is_s32; lia). reflexivity.
Qed.

Lemma wait_queue_inv_switch_to c k ipc :
  wait_queue_inv k ipc -> wait_queue_inv (switch_to c k) ipc.
Proof. intros H. by eapply wait_queue_inv_frame; [|exact H]. Qed.

(** X17.  Hand-over of a mutex.  A thread that calls [rt_mutex_take] with
    a waiting time on a mutex another thread holds once, with no other
    waiter, is suspended and queued; the owner's [rt_mutex_release]
    returns [RT_EOK], puts the owner back to its initial priority and makes
    the waiter READY; the waiter's [rt_mutex_take] then returns [RT_EOK]
    and the mutex is held once by the waiter, with value 0 and an empty
    wait queue. *)
Theorem rt_mutex_hand_over pmax (mutex : rt_mutex) (time : Z) (k : kernel)
    (t : rt_thread) (o : tid) (to : rt_thread) :
  wait_queue_inv k (mutex_parent mutex) ->
  suspend_thread (mutex_parent mutex) = [] ->
  flag (mutex_parent mutex) = RT_IPC_FLAG_FIFO \/
    flag (mutex_parent mutex) = RT_IPC_FLAG_PRIO ->
  deref k (rt_thread_self k) = Some t -> stat t = RT_THREAD_READY ->
  owner mutex = Some o -> o <> rt_thread_self k -> deref k o = Some to ->
  mutex_value mutex = 0 -> hold mutex = 1 -> time <> 0 ->
  exists k1 mutex1 k2 mutex2 k3 mutex3 to2,
    rt_mutex_take pmax mutex time k = Some (k1, mutex1, Scheduled) /\
    (stat <$> deref k1 (rt_thread_self k)) = Some RT_THREAD_SUSPEND /\
    rt_mutex_release pmax mutex1 (switch_to o k1) = Some (k2, mutex2, RT_EOK) /\
    deref k2 o = Some to2 /\ current_priority to2 = init_priority to /\
    (stat <$> deref k2 (rt_thread_self k)) = Some RT_THREAD_READY /\
    rt_mutex_take_resumed mutex2 (rt_thread_self k) (switch_to (rt_thread_self k) k2)
      = Some (k3, mutex3, RT_EOK) /\
    mutex3 = mk_mutex (mk_ipc (flag (mutex_parent mutex)) [] 0) 0
               (Some (rt_thread_self k)) (original_priority mutex) 1.
Proof.
  intros Hq Hl Hf H Hs Ho Hne Hto Hv Hh Ht.
  assert (Hc : suspend_thread_count (mutex_parent mutex) = 0).
  { destruct Hq as (Hc & _). by rewrite Hl in Hc. }
  destruct (rt_mutex_take_waits pmax mutex time k t o to Hq H Hs Ho Hne Hto)
    as (k1 & to' & E1 & C1 & Hq1 & D1 & D1o & P1 & _ & _ & _);
    [rewrite Hl; by intros ?%elem_of_nil|lia|done|lia|done|].
  rewrite Hl, Hc, Hv, Hh in E1. rewrite Hl, Hc in Hq1. simpl in E1, Hq1.
  set (self := rt_thread_self k) in *.
  set (tb := set_thread_timer _ _) in *.
  set (ipc1 := mk_ipc (flag (mutex_parent mutex)) [self] 1) in *.
  set (mutex1 := mk_mutex ipc1 (-1) (Some o) (original_priority mutex) 1) in *.
  destruct (rt_mutex_release_last pmax mutex1 (switch_to o k1) to')
    as (k1' & to2 & C2 & D2o & P2 & P3 & O2 & Hq2 & E2);
    [by apply wait_queue_inv_switch_to|exact D1o|reflexivity| |reflexivity|simpl; lia|].
  { simpl. intros ->%list_elem_of_singleton. done. }
  assert (D2 : deref k1' self = Some tb).
  { rewrite O2; [exact D1|]. simpl. congruence. }
  simpl in E2. rewrite (rt_ipc_object_resume_eq ipc1 k1' self [] tb Hq2 eq_refl D2) in E2.
  cbn [mbind option_bind] in E2. simpl in E2.
  set (tr := set_stat RT_THREAD_READY _) in E2.
  set (k2 := set_ready _ _) in E2.
  assert (D3 : deref k2 self = Some tr).
  { unfold k2. rewrite deref_set_ready. apply deref_store_eq. eauto. }
  eexists k1, mutex1, k2, _, _, _, to2. split; [exact E1|].
  split; [by rewrite D1|]. split; [exact E2|]. split.
  { unfold k2. rewrite deref_set_ready, deref_store_ne by done. exact D2o. }
  split; [congruence|]. split; [by rewrite D3|]. split.
  - unfold rt_mutex_take_resumed.
    change (deref (switch_to self k2) self) with (deref k2 self). rewrite D3.
    reflexivity.
  - reflexivity.
Qed.

Lemma rt_mutex_hand_over_witness :
  exists k1 mutex1 k2 mutex2 k3 to2,
    rt_mutex_take 256 held_mutex (-1) (switch_to 1%nat low_high_kernel)
      = Some (k1, mutex1, Scheduled) /\
    rt_mutex_release 256 mutex1 (switch_to 0%nat k1) = Some (k2, mutex2, RT_EOK) /\
    deref k2 0%nat = Some to2 /\ current_priority to2 = 20 /\
    rt_mutex_take_resumed mutex2 1%nat (switch_to 1%nat k2)
      = Some (k3, mk_mutex (mk_ipc RT_IPC_FLAG_PRIO [] 0) 0 (Some 1%nat) 20 1, RT_EOK).
Proof.
  assert (Hq : wait_queue_inv (switch_to 1%nat low_high_kernel) (mutex_parent held_mutex)).
  { split; [reflexivity|]. split; [unfold is_u32; simpl; lia|].
    split; [apply NoDup_nil_2|]. constructor. }
  destruct (rt_mutex_hand_over 256 held_mutex (-1) (switch_to 1%nat low_high_kernel)
              (thread_at 5 5 RT_THREAD_READY) 0%nat (thread_at 20 20 RT_THREAD_READY) Hq eq_refl (or_intror eq_refl) eq_refl eq_refl eq_refl)
    as (k1 & mutex1 & k2 & mutex2 & k3 & mutex3 & to2 & E1 & _ & E2 & D & P & _ & E3 & ->);
    [simpl; lia|reflexivity|reflexivity|reflexivity|lia|].
  exists k1, mutex1, k2, mutex2, k3, to2. split; [exact E1|]. split; [exact E2|].
  split; [exact D|]. split; [exact P|exact E3].
Defined.

(** X18.  A [rt_mutex_take] that times out leaves the value of the mutex
    one lower than it was.  When the waiter was the only one, the mutex
    has value -1 while its owner holds it, and value 0 after the owner's
    [rt_mutex_release], which returns [RT_EOK] with hold 0: the mutex is
    released, but [rt_mutex_take] with time 0 by any thread other than the
    former owner still returns [-RT_ETIMEOUT]. *)
Theorem rt_mutex_take_timeout_skews_value pmax (mutex : rt_mutex) (time : Z)
    (k : kernel) (t : rt_thread) (o : tid) (to : rt_thread) :
  wait_queue_inv k (mutex_parent mutex) ->
  suspend_thread (mutex_parent mutex) = [] ->
  flag (mutex_parent mutex) = RT_IPC_FLAG_FIFO \/
    flag (mutex_parent mutex) = RT_IPC_FLAG_PRIO ->
  deref k (rt_thread_self k) = Some t -> stat t = RT_THREAD_READY ->
  owner mutex = Some o -> o <> rt_thread_self k -> deref k o = Some to ->
  mutex_value mutex = 0 -> hold mutex = 1 -> 0 < time ->
  exists k1 mutex1 k2 k3 mutex3 k4 mutex4,
    rt_mutex_take pmax mutex time k = Some (k1, mutex1, Scheduled) /\
    rt_timer_expire (rt_thread_self k) (suspend_thread (mutex_parent mutex1)) k1
      = Some (k2, []) /\
    rt_mutex_take_resumed
        (mk_mutex (mk_ipc (flag (mutex_parent mutex1)) []
                     (suspend_thread_count (mutex_parent mutex1)))
           (mutex_value mutex1) (owner mutex1) (original_priority mutex1) (hold mutex1))
        (rt_thread_self k) k2
      = Some (k3, mutex3, - RT_ETIMEOUT) /\
    mutex3 = mk_mutex (mk_ipc (flag (mutex_parent mutex)) [] 0) (-1) (Some o)
               (original_priority mutex) 1 /\
    rt_mutex_release pmax mutex3 (switch_to o k3) = Some (k4, mutex4, RT_EOK) /\
    mutex4 = mk_mutex (mk_ipc (flag (mutex_parent mutex)) [] 0) 0 (Some o)
               (original_priority mutex) 0 /\
    (forall c, c <> o -> is_Some (deref k c) ->
       exists k5,
         rt_mutex_take pmax mutex4 0 (switch_to c k4)
           = Some (k5, mutex4, Returned (- RT_ETIMEOUT))).
Proof.
  intros Hq Hl Hf H Hs Ho Hne Hto Hv Hh Ht.
  assert (Hc : suspend_thread_count (mutex_parent mutex) = 0).
  { destruct Hq as (Hc & _). by rewrite Hl in Hc. }
  destruct (rt_mutex_take_waits pmax mutex time k t o to Hq H Hs Ho Hne Hto)
    as (k1 & to' & E1 & C1 & Hq1 & D1 & D1o & P1 & _ & _ & O1);
    [rewrite Hl; by intros ?%elem_of_nil|lia|done|lia|lia|].
  rewrite Hl, Hc, Hv, Hh in E1. rewrite Hl, Hc in Hq1. simpl in E1, Hq1.
  assert (Et : (0 <? time) = true) by (apply Z.ltb_lt; lia).
  rewrite Et in D1.
  set (self := rt_thread_self k) in *.
  set (tb := set_thread_timer _ _) in *.
  set (ipc1 := mk_ipc (flag (mutex_parent mutex)) [self] 1) in *.
  set (mutex1 := mk_mutex ipc1 (-1) (Some o) (original_priority mutex) 1) in *.
  pose proof (rt_timer_expire_waiting self [self] k1 tb D1 eq_refl eq_refl) as E2.
  rewrite (rt_list_remove_head self []) in E2 by (by intros ?%elem_of_nil).
  set (te := set_stat RT_THREAD_READY _) in E2.
  set (k2 := set_ready _ _) in E2.
  assert (D2 : deref k2 self = Some te).
  { unfold k2. rewrite deref_set_ready. apply deref_store_eq. eauto. }
  assert (D2o : deref k2 o = Some to').
  { unfold k2. by rewrite deref_set_ready, deref_store_ne. }
  set (mutex3 := mk_mutex (mk_ipc (flag (mutex_parent mutex)) [] 0) (-1) (Some o)
                   (original_priority mutex) 1).
  assert (Hq3 : wait_queue_inv (switch_to o k2) (mutex_parent mutex3)).
  { split; [reflexivity|]. split; [unfold is_u32; simpl; lia|].
    split; [apply NoDup_nil_2|]. constructor. }
  destruct (rt_mutex_release_last pmax mutex3 (switch_to o k2) to')
    as (k4 & to2 & C4 & D4o & _ & _ & O4 & _ & E4);
    [exact Hq3|exact D2o|reflexivity| |reflexivity|simpl; lia|].
  { simpl. by intros ?%elem_of_nil. }
  simpl in E4.
  exists k1, mutex1, k2, k2, mutex3, k4,
    (mk_mutex (mk_ipc (flag (mutex_parent mutex)) [] 0) 0 (Some o)
       (original_priority mutex) 0).
  split; [exact E1|].
  split; [exact E2|]. split.
  { unfold rt_mutex_take_resumed. rewrite D2. reflexivity. }
  split; [reflexivity|]. split; [exact E4|]. split; [reflexivity|].
  intros c Hco Hd0.
  assert (Hd : is_Some (deref k4 c)).
  { rewrite O4 by (simpl; congruence).
    change (deref (switch_to o k2) c) with (deref k2 c).
    destruct (decide (c = self)) as [->|Hcs]; [by rewrite D2|].
    unfold k2. rewrite deref_set_ready, deref_store_ne by done.
    by rewrite O1. }
  destruct Hd as [tc Hd]. unfold rt_mutex_take.
  change (rt_thread_self (switch_to c k4)) with c.
  change (deref (switch_to c k4) c) with (deref k4 c). rewrite Hd.
  cbn [mbind option_bind]. rewrite owner_is_false by (simpl; congruence).
  cbn [mutex_value]. change (0 <? 0) with false. change (0 =? 0) with true.
  cbn iota. rewrite deref_store_eq by (simpl; eauto).
  cbn [mbind option_bind]. eexists. reflexivity.
Qed.

Lemma rt_mutex_take_timeout_skews_value_witness :
  exists k1 mutex1 k2 k3 k4 k5,
    rt_mutex_take 256 held_mutex 100 (switch_to 1%nat low_high_kernel)
      = Some (k1, mutex1, Scheduled) /\
    rt_timer_expire 1%nat (suspend_thread (mutex_parent mutex1)) k1 = Some (k2, []) /\
    rt_mutex_release 256 (mk_mutex (mk_ipc RT_IPC_FLAG_PRIO [] 0) (-1) (Some 0%nat) 20 1)
        (switch_to 0%nat k3)
      = Some (k4, mk_mutex (mk_ipc RT_IPC_FLAG_PRIO [] 0) 0 (Some 0%nat) 20 0, RT_EOK) /\
    rt_mutex_take 256 (mk_mutex (mk_ipc RT_IPC_FLAG_PRIO [] 0) 0 (Some 0%nat) 20 0) 0
        (switch_to 1%nat k4)
      = Some (k5, mk_mutex (mk_ipc RT_IPC_FLAG_PRIO [] 0) 0 (Some 0%nat) 20 0,
              Returned (- RT_ETIMEOUT)).
Proof.
  assert (Hq : wait_queue_inv (switch_to 1%nat low_high_kernel) (mutex_parent held_mutex)).
  { split; [reflexivity|]. split; [unfold is_u32; simpl; lia|].
    split; [apply NoDup_nil_2|]. constructor. }
  destruct (rt_mutex_take_timeout_skews_value 256 held_mutex 100
              (switch_to 1%nat low_high_kernel)
              (thread_at 5 5 RT_THREAD_READY) 0%nat (thread_at 20 20 RT_THREAD_READY) Hq eq_refl (or_intror eq_refl) eq_refl eq_refl eq_refl)
    as (k1 & mutex1 & k2 & k3 & mutex3 & k4 & mutex4 & E1 & E2 & E3 & -> & E4 & -> & T);
    [simpl; lia|reflexivity|reflexivity|reflexivity|lia|].
  destruct (T 1%nat) as (k5 & E5); [lia|by eexists|].
  exists k1, mutex1, k2, k3, k4, k5. split; [exact E1|]. split; [exact E2|].
  split; [exact E4|exact E5].
Defined.

(** ** Event: receiving *)

Lemma event_recv_status_spec option_ set_ cur :
  event_recv_status option_ set_ cur = true <-> satisfied option_ set_ cur.
Proof.
  rewrite <- event_status_spec. unfold event_recv_status, event_status.
  by rewrite (Z.land_comm cur set_).
Qed.

Lemma not_satisfied_no_mode option_ set_ cur :
  Z.land option_ RT_EVENT_FLAG_AND = 0 -> Z.land option_ RT_EVENT_FLAG_OR = 0 ->
  ~ satisfied option_ set_ cur.
Proof. unfold satisfied, and_mode, or_mode. intuition. Qed.

(** X19.  [rt_event_recv] without waiting.  A request for the empty set
    returns [-RT_ERROR] and touches nothing.  When the event set satisfies
    the request (AND: all requested events are in the set; OR without AND:
    one of them is) the call returns [RT_EOK], writes to [*recved] the
    whole event set as it was, and with CLEAR removes the requested events
    from the set; the wait queue is untouched.  When it does not and the
    timeout is 0, the call returns [-RT_ETIMEOUT], writes nothing to
    [*recved] and leaves the event object as it was.  A request whose
    option names neither AND nor OR is never satisfied. *)
Theorem rt_event_recv_immediate (event : rt_event) (set_ option_ timeout : Z)
    (k : kernel) (t : rt_thread) :
  deref k (rt_thread_self k) = Some t ->
  is_u32 (set event) ->
  (set_ = 0 ->
     rt_event_recv event set_ option_ timeout k
       = Some (k, event, Returned (- RT_ERROR), None)) /\
  (set_ <> 0 -> satisfied option_ set_ (set event) ->
     rt_event_recv event set_ option_ timeout k
       = Some (store (rt_thread_self k) (set_error RT_EOK t) k,
               mk_event (event_parent event) (cleared option_ set_ (set event)),
               Returned RT_EOK, Some (set event))) /\
  (set_ <> 0 -> ~ satisfied option_ set_ (set event) -> timeout = 0 ->
     rt_event_recv event set_ option_ timeout k
       = Some (store (rt_thread_self k) (set_error (- RT_ETIMEOUT) t) k, event,
               Returned (- RT_ETIMEOUT), None)) /\
  (Z.land option_ RT_EVENT_FLAG_AND = 0 -> Z.land option_ RT_EVENT_FLAG_OR = 0 ->
     ~ satisfied option_ set_ (set event)).
Proof.
  intros H Hu. set (self := rt_thread_self k) in *.
  assert (D0 : deref (store self (set_error RT_EOK t) k) self = Some (set_error RT_EOK t))
    by (apply deref_store_eq; eauto).
  split; [|split; [|split]].
  - intros ->. reflexivity.
  - intros Hn Hsat. unfold rt_event_recv.
    destruct (Z.eqb_spec set_ 0) as [?|_]; [done|].
    fold self. rewrite H. cbn [mbind option_bind].
    apply event_recv_status_spec in Hsat. rewrite Hsat, D0.
    cbn [mbind option_bind]. by rewrite cleared_eq.
  - intros Hn Hsat ->. unfold rt_event_recv.
    destruct (Z.eqb_spec set_ 0) as [?|_]; [done|].
    fold self. rewrite H. cbn [mbind option_bind].
    destruct (event_recv_status option_ set_ (set event)) eqn:Es.
    { by apply event_recv_status_spec in Es. }
    change (0 =? 0) with true. cbn iota. rewrite D0. cbn [mbind option_bind].
    rewrite store_store, deref_store_eq by eauto. reflexivity.
  - apply not_satisfied_no_mode.
Qed.

Lemma rt_event_recv_immediate_witness :
  rt_event_recv event_0001 0 RT_EVENT_FLAG_OR 10 solo_kernel
    = Some (solo_kernel, event_0001, Returned (- RT_ERROR), None) /\
  rt_event_recv event_0001 3 (Z.lor RT_EVENT_FLAG_OR RT_EVENT_FLAG_CLEAR) 10 solo_kernel
    = Some (solo_kernel, mk_event (event_parent event_0001) 0, Returned RT_EOK, Some 1) /\
  rt_event_recv event_0001 3 RT_EVENT_FLAG_AND 0 solo_kernel
    = Some (store 0%nat (set_error (- RT_ETIMEOUT) (thread_at 20 20 RT_THREAD_READY))
              solo_kernel, event_0001, Returned (- RT_ETIMEOUT), None).
Proof.
  assert (Hu : is_u32 (set event_0001)) by (unfold is_u32; simpl; lia).
  destruct (rt_event_recv_immediate event_0001 0 RT_EVENT_FLAG_OR 10 solo_kernel _
              eq_refl Hu) as (A & _).
  destruct (rt_event_recv_immediate event_0001 3
              (Z.lor RT_EVENT_FLAG_OR RT_EVENT_FLAG_CLEAR) 10 solo_kernel _ eq_refl Hu)
    as (_ & B & _).
  destruct (rt_event_recv_immediate event_0001 3 RT_EVENT_FLAG_AND 0 solo_kernel _
              eq_refl Hu) as (_ & _ & C & _).
  split; [by apply A|]. split.
  - apply B; [lia|]. right. split; [split|]; vm_compute; congruence.
  - apply C; [lia| |reflexivity].
    intros [[_ E]|[[E _] _]]; vm_compute in E; congruence.
Defined.

Lemma rt_event_recv_blocks event set_ option_ timeout k t :
  wait_queue_inv k (event_parent event) ->
  deref k (rt_thread_self k) = Some t -> stat t = RT_THREAD_READY ->
  suspend_thread_count (event_parent event) < 2 ^ 32 - 1 ->
  flag (event_parent event) = RT_IPC_FLAG_FIFO \/
    flag (event_parent event) = RT_IPC_FLAG_PRIO ->
  set_ <> 0 -> ~ satisfied option_ set_ (set event) -> timeout <> 0 ->
  let tb := set_thread_timer
              (if 0 <? timeout then mk_timer true timeout else thread_timer t)
              (set_stat RT_THREAD_SUSPEND (set_event set_ option_ (set_error RT_EOK t))) in
  let k1 := set_ready (rt_list_remove (rt_thread_self k) (rt_thread_priority_table k))
              (store (rt_thread_self k) tb k) in
  let ipc1 := mk_ipc (flag (event_parent event))
                (suspend_thread (event_parent event) ++ [rt_thread_self k])
                (suspend_thread_count (event_parent event) + 1) in
  rt_event_recv event set_ option_ timeout k
    = Some (k1, mk_event ipc1 (set event), Scheduled, None) /\
  wait_queue_inv k1 ipc1 /\
  deref k1 (rt_thread_self k) = Some tb.
Proof.
  intros Hq H Hs Hc Hf Hn Hsat Ht tb k1 ipc1.
  destruct (ipc_wait_blocks (event_parent event) timeout k t
              (set_event set_ option_ (set_error RT_EOK t)) Hq H Hs Hs Hc Hf)
    as (E1 & E2 & Hq1).
  cbv zeta in E1, E2, Hq1. split; [|split; [exact Hq1|]].
  - unfold rt_event_recv.
    destruct (Z.eqb_spec set_ 0) as [?|_]; [done|].
    rewrite H. cbn [mbind option_bind].
    destruct (event_recv_status option_ set_ (set event)) eqn:Es.
    { by apply event_recv_status_spec in Es. }
    destruct (Z.eqb_spec timeout 0) as [?|_]; [done|].
    rewrite deref_store_eq by eauto. cbn [mbind option_bind].
    rewrite store_store, E1. cbn [mbind option_bind]. rewrite E2. reflexivity.
  - unfold k1. rewrite deref_set_ready. apply deref_store_eq. eauto.
Qed.

Lemma land_ldiff_same a b : Z.land (Z.ldiff a b) b = 0.
Proof.
  apply Z.bits_inj'. intros n Hn.
  rewrite Z.land_spec, Z.ldiff_spec, Z.bits_0.
  by destruct (Z.testbit a n), (Z.testbit b n).
Qed.

(** X20.  A receiver that has to wait and the sender that wakes it.  A
    thread whose request the event set does not satisfy and that calls
    [rt_event_recv] with a waiting time is suspended and queued with its
    request.  A [rt_event_send] after which the set satisfies the request
    makes the thread READY and unlinks it, and with CLEAR removes the
    requested events from the set; the receiver then returns [RT_EOK] and
    the word written to [*recved] is the event set as the sender left it,
    which with CLEAR holds none of the requested events.  A
    [rt_event_send] after which the request is still not satisfied adds its
    events to the set and leaves the receiver waiting. *)
Theorem rt_event_recv_woken (event : rt_event) (set_ option_ timeout s : Z)
    (k : kernel) (t : rt_thread) (c : tid) :
  wait_queue_inv k (event_parent event) ->
  suspend_thread (event_parent event) = [] ->
  flag (event_parent event) = RT_IPC_FLAG_FIFO \/
    flag (event_parent event) = RT_IPC_FLAG_PRIO ->
  deref k (rt_thread_self k) = Some t -> stat t = RT_THREAD_READY ->
  is_u32 (set event) -> is_u32 s -> s <> 0 ->
  set_ <> 0 -> ~ satisfied option_ set_ (set event) -> timeout <> 0 ->
  exists k1 event1,
    rt_event_recv event set_ option_ timeout k = Some (k1, event1, Scheduled, None) /\
    (stat <$> deref k1 (rt_thread_self k)) = Some RT_THREAD_SUSPEND /\
    suspend_thread (event_parent event1) = [rt_thread_self k] /\
    (satisfied option_ set_ (Z.lor (set event) s) ->
       exists k2 event2,
         rt_event_send event1 s (switch_to c k1) = Some (k2, event2, RT_EOK) /\
         event2 = mk_event (mk_ipc (flag (event_parent event)) [] 0)
                    (cleared option_ set_ (Z.lor (set event) s)) /\
         (stat <$> deref k2 (rt_thread_self k)) = Some RT_THREAD_READY /\
         rt_event_recv_resumed event2 (rt_thread_self k)
             (switch_to (rt_thread_self k) k2)
           = Some (switch_to (rt_thread_self k) k2, event2, RT_EOK, Some (set event2)) /\
         (Z.land option_ RT_EVENT_FLAG_CLEAR <> 0 -> Z.land (set event2) set_ = 0)) /\
    (~ satisfied option_ set_ (Z.lor (set event) s) ->
       rt_event_send event1 s (switch_to c k1)
         = Some (switch_to c k1,
                 mk_event (event_parent event1) (Z.lor (set event) s), RT_EOK)).
Proof.
  intros Hq Hl Hf H Hs Hu Hus Hsn Hn Hsat Ht.
  assert (Hc : suspend_thread_count (event_parent event) = 0).
  { destruct Hq as (Hc & _). by rewrite Hl in Hc. }
  destruct (rt_event_recv_blocks event set_ option_ timeout k t Hq H Hs)
    as (E1 & Hq1 & D1); [lia|done|done|done|done|].
  rewrite Hl, Hc in E1, Hq1. simpl in E1, Hq1.
  set (self := rt_thread_self k) in *.
  set (tb := set_thread_timer _ _) in *. set (k1 := set_ready _ _) in *.
  set (event1 := mk_event (mk_ipc (flag (event_parent event)) [self] 1) (set event)).
  exists k1, event1. split; [exact E1|]. split; [by rewrite D1|].
  split; [reflexivity|].
  assert (Hul : is_u32 (Z.lor (set event) s)) by (by apply lor_u32).
  assert (Es : forall k', rt_event_send event1 s k' =
            '(k2, event2) ← event_send_step self
                 (k', mk_event (mk_ipc (flag (event_parent event)) [self] 1)
                        (Z.lor (set event) s));
            Some (k2, event2, RT_EOK)).
  { intros k'. unfold rt_event_send, event1.
    destruct (Z.eqb_spec s 0) as [?|_]; [done|].
    cbn [event_parent suspend_thread_count suspend_thread set event_send_loop].
    change (0 <? 1) with true. cbn iota.
    destruct (event_send_step self _) as [[k2 e2]|]; reflexivity. }
  split.
  - intros Hsat'. rewrite Es.
    rewrite (event_send_step_wake (switch_to c k1) _ [self] 1 _ self tb);
      [|exact D1|reflexivity|exact Hsat'|exact Hul|lia].
    cbn [mbind option_bind].
    rewrite rt_list_remove_head by (by intros ?%elem_of_nil).
    eexists _, _. split; [reflexivity|]. split; [reflexivity|].
    set (tr := set_stat RT_THREAD_READY _).
    assert (D2 : forall c',
              deref (switch_to c'
                (set_ready (rt_thread_priority_table (switch_to c k1) ++ [self])
                   (store self tr (switch_to c k1)))) self = Some tr).
    { intros c'. apply (deref_store_eq (switch_to c k1)). exact (mk_is_Some _ _ D1). }
    split; [exact (f_equal (fmap stat) (D2 c))|]. split.
    + unfold rt_event_recv_resumed. rewrite D2. reflexivity.
    + intros Hcl. cbn [set event_info event_set tb set_thread_timer set_stat set_event].
      unfold cleared. destruct (decide _) as [?|_]; [done|]. apply land_ldiff_same.
  - intros Hsat'. rewrite Es.
    rewrite (event_send_step_keep (switch_to c k1) _ self tb); [reflexivity|exact D1|].
    exact Hsat'.
Qed.

Lemma rt_event_recv_woken_witness :
  exists k1 event1 k2 event2,
    rt_event_recv (mk_event (mk_ipc RT_IPC_FLAG_FIFO [] 0) 1) 3
        (Z.lor RT_EVENT_FLAG_AND RT_EVENT_FLAG_CLEAR) (-1)
        (mk_kernel [thread_at 10 10 RT_THREAD_READY; thread_at 20 20 RT_THREAD_READY]
           0%nat [0%nat; 1%nat] [])
      = Some (k1, event1, Scheduled, None) /\
    rt_event_send event1 2 (switch_to 1%nat k1) = Some (k2, event2, RT_EOK) /\
    rt_event_recv_resumed event2 0%nat (switch_to 0%nat k2)
      = Some (switch_to 0%nat k2, event2, RT_EOK, Some 0).
Proof.
  set (ev := mk_event (mk_ipc RT_IPC_FLAG_FIFO [] 0) 1).
  set (k0 := mk_kernel [thread_at 10 10 RT_THREAD_READY; thread_at 20 20 RT_THREAD_READY]
               0%nat [0%nat; 1%nat] []).
  destruct (rt_event_recv_woken ev 3 (Z.lor RT_EVENT_FLAG_AND RT_EVENT_FLAG_CLEAR)
              (-1) 2 k0 (thread_at 10 10 RT_THREAD_READY) 1%nat)
    as (k1 & event1 & E1 & _ & _ & W & _).
  - split; [reflexivity|]. split; [unfold is_u32; simpl; lia|].
    split; [apply NoDup_nil_2|]. constructor.
  - reflexivity.
  - by left.
  - reflexivity.
  - reflexivity.
  - unfold is_u32. simpl. lia.
  - unfold is_u32. lia.
  - lia.
  - lia.
  - intros [[_ E]|[[E _] _]]; vm_compute in E; congruence.
  - lia.
  - destruct W as (k2 & event2 & E2 & -> & _ & E3 & _).
    { left. split; vm_compute; congruence. }
    eexists k1, event1, k2, _. split; [exact E1|]. split; [exact E2|exact E3].
Defined.

(** ** Fast event *)

Lemma fast_offset bit : 0 <= bit < 32 -> wrap_u32 (Z.shiftl 1 bit) = Z.shiftl 1 bit.
Proof.
  intros H. apply wrap_u32_id. rewrite Z.shiftl_1_l. unfold is_u32.
  split; [apply Z.pow_nonneg; lia|]. apply Z.pow_lt_mono_r; lia.
Qed.

Lemma land_bit_testbit s bit :
  0 <= bit -> c_true (Z.land s (Z.shiftl 1 bit)) = Z.testbit s bit.
Proof.
  intros H. rewrite Z.shiftl_1_l.
  destruct (Z.testbit s bit) eqn:E.
  - apply c_true_spec. intros E0.
    assert (T : Z.testbit (Z.land s (2 ^ bit)) bit = true).
    { rewrite Z.land_spec, E, Z.pow2_bits_true by lia. reflexivity. }
    rewrite E0, Z.bits_0 in T. discriminate.
  - apply c_true_false. apply Z.bits_inj'. intros n Hn.
    rewrite Z.land_spec, Z.bits_0, Z.pow2_bits_eqb by lia.
    destruct (Z.eqb_spec bit n) as [<-|?]; [by rewrite E|apply andb_false_r].
Qed.

Lemma fast_clear s bit :
  is_u32 s -> 0 <= bit < 32 ->
  Z.land s (wrap_u32 (Z.lnot (Z.shiftl 1 bit))) = Z.clearbit s bit.
Proof. intros Hs Hb. by rewrite land_lnot_u32. Qed.

Lemma fast_event_recv_head event bit option_ timeout k t :
  deref k (rt_thread_self k) = Some t -> 0 <= bit < 32 ->
  rt_fast_event_recv event bit option_ timeout k =
    if Z.testbit (fast_set event) bit then
      Some (store (rt_thread_self k) (set_error RT_EOK t) k,
            mk_fast_event (fast_flag event)
              (if c_true (Z.land option_ RT_EVENT_FLAG_CLEAR)
               then Z.land (fast_set event) (wrap_u32 (Z.lnot (Z.shiftl 1 bit)))
               else fast_set event) (thread_list event), RT_EOK)
    else
      let thread := rt_thread_self k in
      let k0 := store thread (set_error RT_EOK t) k in
      '(k3, event') ←
        (if timeout =? 0 then
           t0 ← deref k0 thread;
           Some (store thread (set_error (- RT_ETIMEOUT) t0) k0, event)
         else
           '(k1, _) ← rt_thread_suspend thread k0;
           t1 ← deref k1 thread;
           let k2 := store thread (set_event (event_set t1) option_ t1) k1 in
           wl ← thread_list event !! Z.to_nat bit;
           wl' ← (if fast_flag event =? RT_IPC_FLAG_FIFO then
                    Some (rt_list_insert_after wl thread)
                  else if fast_flag event =? RT_IPC_FLAG_PRIO then
                    t2 ← deref k2 thread;
                    n ← find_position k2 (current_priority t2) wl 0;
                    Some (rt_list_insert_before wl None thread)
                  else Some wl);
           k3 ← start_thread_timer thread timeout k2;
           Some (k3, mk_fast_event (fast_flag event) (fast_set event)
                       (<[Z.to_nat bit := wl']> (thread_list event))));
      t3 ← deref k3 thread;
      Some (k3, event', error t3).
Proof.
  intros H Hb. unfold rt_fast_event_recv.
  assert (Eb : (bit <? RT_EVENT_LENGTH) = true) by (apply Z.ltb_lt; unfold RT_EVENT_LENGTH; lia).
  rewrite Eb. cbn [negb]. rewrite H. cbn [mbind option_bind].
  rewrite fast_offset, land_bit_testbit by lia. reflexivity.
Qed.

(** X21.  [rt_fast_event_recv] for a bit 0..31.  When the bit is set the
    call returns [RT_EOK] and, with CLEAR, clears the bit and no other;
    when it is not set and the timeout is 0, the call returns
    [-RT_ETIMEOUT] and the object is unchanged.  When it is not set and
    there is a waiting time, the call suspends the running thread, records
    the option in its [event_info], links it in the list of the bit, at the
    front with the flag FIFO and at the tail with the flag PRIO, arms the
    timer for a positive timeout, and returns [RT_EOK] as well: the
    function has no [rt_schedule()] and does not read the outcome of the
    wait. *)
Theorem rt_fast_event_recv_returns (event : rt_fast_event) (bit option_ timeout : Z)
    (k : kernel) (t : rt_thread) (wl : list tid) :
  deref k (rt_thread_self k) = Some t -> stat t = RT_THREAD_READY ->
  0 <= bit < 32 -> is_u32 (fast_set event) ->
  thread_list event !! Z.to_nat bit = Some wl ->
  Forall (fun w => is_Some (deref k w)) wl ->
  (Z.testbit (fast_set event) bit = true ->
     rt_fast_event_recv event bit option_ timeout k =
       Some (store (rt_thread_self k) (set_error RT_EOK t) k,
             mk_fast_event (fast_flag event)
               (if c_true (Z.land option_ RT_EVENT_FLAG_CLEAR)
                then Z.clearbit (fast_set event) bit else fast_set event)
               (thread_list event), RT_EOK)) /\
  (Z.testbit (fast_set event) bit = false -> timeout = 0 ->
     rt_fast_event_recv event bit option_ timeout k =
       Some (store (rt_thread_self k) (set_error (- RT_ETIMEOUT) t) k, event,
             - RT_ETIMEOUT)) /\
  (Z.testbit (fast_set event) bit = false -> timeout <> 0 ->
     exists k' wl' tb,
       rt_fast_event_recv event bit option_ timeout k =
         Some (k', mk_fast_event (fast_flag event) (fast_set event)
                     (<[Z.to_nat bit := wl']> (thread_list event)), RT_EOK) /\
       deref k' (rt_thread_self k) = Some tb /\
       stat tb = RT_THREAD_SUSPEND /\ event_info tb = option_ /\
       timer_activated (thread_timer tb) = (0 <? timeout) || timer_activated (thread_timer t) /\
       (rt_thread_self k ∉ rt_thread_priority_table k') /\
       (forall i, i <> rt_thread_self k -> deref k' i = deref k i) /\
       (fast_flag event = RT_IPC_FLAG_FIFO -> wl' = rt_thread_self k :: wl) /\
       (fast_flag event = RT_IPC_FLAG_PRIO -> wl' = wl ++ [rt_thread_self k]) /\
       (fast_flag event <> RT_IPC_FLAG_FIFO -> fast_flag event <> RT_IPC_FLAG_PRIO ->
          wl' = wl)).
Proof.
  intros H Hs Hb Hu Hl Hw. set (self := rt_thread_self k) in *.
  pose proof (fast_event_recv_head event bit option_ timeout k t H Hb) as E.
  fold self in E.
  assert (D0 : deref (store self (set_error RT_EOK t) k) self = Some (set_error RT_EOK t))
    by (apply deref_store_eq; eauto).
  split; [|split].
  - intros Hx. rewrite E, Hx. by rewrite fast_clear.
  - intros Hx ->. rewrite E, Hx. cbv zeta. change (0 =? 0) with true. cbn iota.
    rewrite D0. cbn [mbind option_bind].
    rewrite store_store, deref_store_eq by eauto. reflexivity.
  - intros Hx Ht. rewrite E, Hx. cbv zeta.
    destruct (Z.eqb_spec timeout 0) as [?|_]; [done|].
    rewrite (rt_thread_suspend_ready self _ (set_error RT_EOK t) D0 Hs).
    cbn [mbind option_bind]. rewrite store_store.
    set (r := rt_list_remove self _).
    rewrite deref_set_ready, deref_store_eq by eauto. cbn [mbind option_bind].
    rewrite store_set_ready, store_store. rewrite Hl. cbn [mbind option_bind].
    set (t2 := set_event _ option_ _).
    set (k2 := set_ready r (store self t2 k)).
    assert (D2 : deref k2 self = Some t2).
    { unfold k2. rewrite deref_set_ready. apply deref_store_eq. eauto. }
    assert (Hw2 : Forall (fun w => is_Some (deref k2 w)) wl).
    { eapply Forall_impl; [exact Hw|]. intros w Hws. unfold k2.
      rewrite deref_set_ready. by apply deref_store_is_Some. }
    destruct (find_position_total k2 (current_priority t2) wl 0 Hw2) as [n En].
    set (wl' := if fast_flag event =? RT_IPC_FLAG_FIFO then self :: wl
                else if fast_flag event =? RT_IPC_FLAG_PRIO then wl ++ [self] else wl).
    assert (Ew : (if fast_flag event =? RT_IPC_FLAG_FIFO
                  then Some (rt_list_insert_after wl self)
                  else if fast_flag event =? RT_IPC_FLAG_PRIO
                       then deref k2 self ≫= λ t2,
                              find_position k2 (current_priority t2) wl 0 ≫= λ _,
                                Some (rt_list_insert_before wl None self)
                       else Some wl) = Some wl').
    { unfold wl'. destruct (fast_flag event =? RT_IPC_FLAG_FIFO); [done|].
      destruct (fast_flag event =? RT_IPC_FLAG_PRIO); [|done].
      rewrite D2. cbn [mbind option_bind]. rewrite En. reflexivity. }
    rewrite Ew. cbn [mbind option_bind].
    rewrite (start_thread_timer_eq self timeout k2 t2 D2). cbn [mbind option_bind].
    set (tb := set_thread_timer _ t2).
    rewrite deref_store_eq by eauto. cbn [mbind option_bind].
    exists (store self tb k2), wl', tb. split; [reflexivity|].
    split; [apply deref_store_eq; eauto|]. split; [reflexivity|].
    split; [reflexivity|]. split.
    { unfold tb. cbn. by destruct (0 <? timeout). }
    split; [apply rt_list_remove_not_in|]. split.
    { intros i Hi. unfold k2.
      by rewrite deref_store_ne, deref_set_ready, deref_store_ne. }
    unfold wl'. split; [|split].
    + intros ->. reflexivity.
    + intros ->. reflexivity.
    + intros Hf Hp. apply Z.eqb_neq in Hf, Hp. by rewrite Hf, Hp.
Qed.

Lemma rt_fast_event_recv_returns_witness :
  exists k' tb,
    rt_fast_event_recv (rt_fast_event_init RT_IPC_FLAG_FIFO) 3 0 (-1) solo_kernel =
      Some (k', mk_fast_event RT_IPC_FLAG_FIFO 0
                  (<[3%nat := [0%nat]]> (replicate 32 [])), RT_EOK) /\
    deref k' 0%nat = Some tb /\ stat tb = RT_THREAD_SUSPEND /\
    rt_thread_priority_table k' = [].
Proof.
  destruct (rt_fast_event_recv_returns (rt_fast_event_init RT_IPC_FLAG_FIFO) 3 0 (-1)
              solo_kernel (thread_at 20 20 RT_THREAD_READY) [])
    as (_ & _ & W); [reflexivity|reflexivity|lia|unfold is_u32; simpl; lia|
                     reflexivity|constructor|].
  destruct W as (k' & wl' & tb & E & D & S & _ & _ & _ & _ & F & _); [reflexivity|lia|].
  rewrite (F eq_refl) in E. exists k', tb. split; [exact E|]. split; [exact D|].
  split; [exact S|]. clear -E. vm_compute in E. by injection E as <-.
Defined.





(** ** Mailbox: the ring as a queue *)

Lemma mod_eq_small N a b :
  0 < N -> 0 <= b - a < N -> a mod N = b mod N -> a = b.
Proof.
  intros HN Hd E.
  pose proof (Z.div_mod a N ltac:(lia)) as Ha.
  pose proof (Z.div_mod b N ltac:(lia)) as Hb.
  rewrite E in Ha.
  assert (Hq : b - a = N * (b / N - a / N)) by lia.
  assert (b / N - a / N = 0) by nia. lia.
Qed.

Lemma mb_mails_length mb : length (mb_mails mb) = Z.to_nat (entry mb).
Proof. unfold mb_mails. by rewrite length_fmap, length_seq. Qed.

Lemma nth_insert_eq (l : list Z) i v : (i < length l)%nat -> nth i (<[i := v]> l) 0 = v.
Proof. intros H. apply nth_lookup_Some. by apply list_lookup_insert_eq. Qed.

Lemma nth_insert_ne (l : list Z) i j v : i <> j -> nth j (<[i := v]> l) 0 = nth j l 0.
Proof. intros H. by rewrite !nth_lookup, list_lookup_insert_ne. Qed.

Lemma mb_send_ring mb ipc value :
  mb_ring mb -> entry mb < size mb ->
  let mb' := mk_mb ipc (<[Z.to_nat (in_offset mb) := value]> (msg_pool mb)) (size mb)
               (entry mb + 1) ((in_offset mb + 1) mod size mb) (out_offset mb) in
  mb_ring mb' /\ mb_mails mb' = mb_mails mb ++ [value].
Proof.
  intros [(Hu & Hl & He & Hi0 & Hi & Ho0 & Ho) Hr] Hlt mb'.
  assert (HN : 0 < size mb) by lia.
  specialize (Hi HN). specialize (Ho HN).
  pose proof (Z.mod_pos_bound (in_offset mb + 1) (size mb) HN) as Hm.
  split.
  - split.
    + unfold mb_inv, mb', is_u32 in *. simpl. rewrite length_insert.
      repeat split; try done; lia.
    + unfold mb'. simpl. rewrite Hr, Zplus_mod_idemp_l. f_equal. lia.
  - unfold mb_mails, mb'. simpl.
    replace (Z.to_nat (entry mb + 1)) with (S (Z.to_nat (entry mb))) by lia.
    rewrite seq_S, fmap_app. simpl. f_equal.
    + apply list_fmap_ext. intros j i Hj. apply lookup_seq in Hj as [-> Hj].
      simpl. apply nth_insert_ne. intros E. apply Z2Nat.inj in E.
      * rewrite Hr in E. symmetry in E.
        apply mod_eq_small in E; lia.
      * lia.
      * apply Z.mod_pos_bound. lia.
    + f_equal. rewrite Z2Nat.id by lia. rewrite <- Hr.
      apply nth_insert_eq. lia.
Qed.

Lemma mb_fetch_ring mb v vs :
  mb_ring mb -> mb_mails mb = v :: vs ->
  exists mb',
    mb_fetch mb = Some (mb', v) /\ mb_ring mb' /\ mb_mails mb' = vs /\
    mb_parent mb' = mb_parent mb /\ entry mb <> 0.
Proof.
  intros [(Hu & Hl & He & Hi0 & Hi & Ho0 & Ho) Hr] Hm.
  assert (He1 : 1 <= entry mb).
  { pose proof (mb_mails_length mb) as L. rewrite Hm in L. simpl in L. lia. }
  assert (HN : 0 < size mb) by lia.
  specialize (Hi HN). specialize (Ho HN).
  pose proof (Z.mod_pos_bound (out_offset mb + 1) (size mb) HN) as Hmo.
  unfold is_u32 in Hu.
  assert (Hv : msg_pool mb !! Z.to_nat (out_offset mb) = Some v).
  { unfold mb_mails in Hm.
    replace (Z.to_nat (entry mb)) with (S (Z.to_nat (entry mb - 1))) in Hm by lia.
    simpl in Hm. injection Hm as Hv _.
    rewrite Z.add_0_r, Z.mod_small in Hv by lia.
    destruct (nth_lookup_or_length (msg_pool mb) (Z.to_nat (out_offset mb)) 0)
      as [E|E]; [by rewrite E, Hv|lia]. }
  eexists. split.
  { unfold mb_fetch, pool_read, c_umod.
    destruct (Z.leb_spec 0 (out_offset mb)); [|lia]. rewrite Hv.
    cbn [mbind option_bind].
    destruct (Z.eqb_spec (size mb) 0); [lia|]. cbn [mbind option_bind].
    rewrite !wrap_u32_id by (unfold is_u32; lia). reflexivity. }
  split; [split|].
  - unfold mb_inv, is_u32. simpl. repeat split; try done; lia.
  - simpl. rewrite Zplus_mod_idemp_l, Hr. f_equal. lia.
  - split; [|split; [reflexivity|lia]].
    unfold mb_mails in *. simpl.
    replace (Z.to_nat (entry mb)) with (S (Z.to_nat (entry mb - 1))) in Hm by lia.
    rewrite <- cons_seq in Hm. rewrite fmap_cons in Hm. injection Hm as _ <-.
    rewrite <- fmap_S_seq, <- list_fmap_compose.
    apply list_fmap_ext. intros j i Hj. simpl.
    rewrite Zplus_mod_idemp_l. do 3 f_equal. lia.
Qed.

(** X23.  The mailbox is a first-in first-out queue of at most [size]
    mails.  Under the mailbox invariant with
    [in_offset = (out_offset + entry) mod size], the mails being the
    [entry] words of the ring from [out_offset] on: [rt_mb_init] gives the
    empty queue; [rt_mb_send] on a queue that is not full returns [RT_EOK]
    and appends the mail at the end; on a full queue it returns
    [-RT_EFULL] and changes nothing; [rt_mb_recv] on a queue that is not
    empty returns [RT_EOK] with the oldest mail and removes it, whatever
    the timeout, and leaves the kernel state alone.  Every one of them
    keeps the invariant. *)
Theorem rt_mb_fifo (mb : rt_mailbox) (k : kernel) :
  mb_ring mb -> wait_queue_inv k (mb_parent mb) ->
  length (mb_mails mb) = Z.to_nat (entry mb) /\
  (forall value, is_u32 value -> entry mb < size mb ->
     exists k' mb',
       rt_mb_send mb value k = Some (k', mb', RT_EOK) /\
       mb_ring mb' /\ mb_mails mb' = mb_mails mb ++ [value]) /\
  (forall value, entry mb = size mb ->
     rt_mb_send mb value k = Some (k, mb, - RT_EFULL)) /\
  (forall timeout v vs, mb_mails mb = v :: vs ->
     exists mb',
       rt_mb_recv mb timeout k = Some (k, mb', Returned RT_EOK, Some v) /\
       mb_ring mb' /\ mb_mails mb' = vs /\ mb_parent mb' = mb_parent mb) /\
  (forall pool sz fl, is_u32 sz -> length pool = Z.to_nat sz ->
     mb_ring (rt_mb_init pool sz fl) /\ mb_mails (rt_mb_init pool sz fl) = []).
Proof.
  intros Hr Hq. split; [apply mb_mails_length|]. split; [|split; [|split]].
  - intros value Hv Hlt.
    destruct (rt_mb_send_stores mb value k (proj1 Hr) Hv Hq) as (k' & ipc' & E & _);
      [lia|].
    destruct (mb_send_ring mb ipc' value Hr Hlt) as [R M].
    eexists k', _. split; [exact E|]. split; [exact R|exact M].
  - intros value He. unfold rt_mb_send. by rewrite He, Z.eqb_refl.
  - intros timeout v vs Hm.
    destruct (mb_fetch_ring mb v vs Hr Hm) as (mb' & E & R & M & P & He).
    exists mb'. split; [|done]. unfold rt_mb_recv.
    destruct (Z.eqb_spec (entry mb) 0); [done|]. by rewrite E.
  - intros pool sz fl Hu Hl. rewrite <- (wrap_u32_id sz Hu) in Hl.
    unfold is_u32 in Hu. split; [|reflexivity]. split.
    + unfold mb_inv, rt_mb_init. simpl. rewrite wrap_u32_id by done.
      pose proof (wrap_u32_range sz). unfold is_u32 in *.
      rewrite wrap_u32_id in Hl by done. repeat split; try done; lia.
    + simpl. rewrite Z.add_0_l. symmetry. apply Zmod_0_l.
Qed.

Lemma rt_mb_fifo_witness :
  exists k1 mb1 k2 mb2 mb3,
    rt_mb_send (rt_mb_init [0; 0] 2 RT_IPC_FLAG_FIFO) 7 solo_kernel
      = Some (k1, mb1, RT_EOK) /\
    rt_mb_send mb1 8 k1 = Some (k2, mb2, RT_EOK) /\
    mb_mails mb2 = [7; 8] /\
    rt_mb_send mb2 9 k2 = Some (k2, mb2, - RT_EFULL) /\
    rt_mb_recv mb2 0 k2 = Some (k2, mb3, Returned RT_EOK, Some 7) /\
    mb_mails mb3 = [8].
Proof.
  assert (Hq : forall k mb, suspend_thread (mb_parent mb) = [] ->
                 suspend_thread_count (mb_parent mb) = 0 ->
                 wait_queue_inv k (mb_parent mb)).
  { intros k mb Hl Hc. unfold wait_queue_inv, is_u32. rewrite Hl, Hc.
    split; [reflexivity|]. split; [lia|]. split; [apply NoDup_nil_2|constructor]. }
  assert (U : forall v, 0 <= v < 10 -> is_u32 v) by (unfold is_u32; lia).
  set (mb0 := rt_mb_init [0; 0] 2 RT_IPC_FLAG_FIFO).
  destruct (rt_mb_fifo mb0 solo_kernel) as (_ & _ & _ & _ & I).
  { split; [|reflexivity]. unfold mb_inv, is_u32. simpl.
    change (wrap_u32 2) with 2. repeat split; lia. }
  { by apply Hq. }
  destruct (I [0; 0] 2 RT_IPC_FLAG_FIFO) as [R0 M0]; [by apply U|reflexivity|].
  destruct (rt_mb_fifo mb0 solo_kernel R0 (Hq solo_kernel mb0 eq_refl eq_refl))
    as (_ & S0 & _).
  destruct (S0 7) as (k1 & mb1 & E1 & R1 & M1); [by apply U|reflexivity|].
  assert (P1 : k1 = solo_kernel /\ mb_parent mb1 = mk_ipc RT_IPC_FLAG_FIFO [] 0
               /\ entry mb1 = 1 /\ size mb1 = 2).
  { clear -E1. vm_compute in E1. by injection E1 as <- <-. }
  destruct P1 as (-> & P1 & Pe1 & Ps1).
  destruct (rt_mb_fifo mb1 solo_kernel R1) as (_ & S1 & _).
  { apply Hq; by rewrite P1. }
  destruct (S1 8) as (k2 & mb2 & E2 & R2 & M2); [by apply U|lia|].
  assert (P2 : k2 = solo_kernel /\ mb_parent mb2 = mk_ipc RT_IPC_FLAG_FIFO [] 0
               /\ entry mb2 = 2 /\ size mb2 = 2).
  { clear -E1 E2. vm_compute in E1. injection E1 as <-.
    vm_compute in E2. by injection E2 as <- <-. }
  destruct P2 as (-> & P2 & Pe2 & Ps2).
  destruct (rt_mb_fifo mb2 solo_kernel R2) as (_ & _ & F2 & V2 & _).
  { apply Hq; by rewrite P2. }
  change (mb_mails mb0 = []) in M0. rewrite M1, M0 in M2. simpl in M2.
  destruct (V2 0 7 [8] M2) as (mb3 & E3 & _ & M3 & _).
  exists solo_kernel, mb1, solo_kernel, mb2, mb3.
  split; [exact E1|]. split; [exact E2|]. split; [exact M2|].
  split; [apply F2; lia|]. split; [exact E3|exact M3].
Defined.

(** A wake-up leaves the error field of every thread object alone. *)
Lemma rt_thread_resume_error thread wl k k' wl' e i t :
  rt_thread_resume thread wl k = Some (k', wl', e) -> deref k i = Some t ->
  exists t', deref k' i = Some t' /\ error t' = error t.
Proof.
  unfold rt_thread_resume. intros H Hi.
  destruct (deref k thread) as [tt|] eqn:E; simpl in H; [|done].
  destruct (thread_stat_eqb (stat tt) RT_THREAD_SUSPEND); simpl in H.
  - unfold rt_schedule_insert_thread in H.
    rewrite deref_store_eq in H by eauto. simpl in H. injection H as <- _ _.
    rewrite deref_set_ready. destruct (decide (i = thread)) as [->|Hne].
    + rewrite deref_store_eq by deref_is_Some. eexists. split; [done|].
      simpl. congruence.
    + rewrite !deref_store_ne by done. eauto.
  - injection H as <- _ _. eauto.
Qed.

Lemma rt_ipc_object_resume_error ipc k k' ipc' i t :
  rt_ipc_object_resume ipc k = Some (k', ipc') -> deref k i = Some t ->
  exists t', deref k' i = Some t' /\ error t' = error t.
Proof.
  unfold rt_ipc_object_resume. intros H Hi.
  destruct (suspend_thread ipc) as [|w ws]; [done|].
  destruct (rt_thread_resume w (w :: ws) k) as [[[k1 wl] e]|] eqn:E; simpl in H; [|done].
  injection H as <- _. by eapply rt_thread_resume_error.
Qed.

Lemma rt_mb_send_error mb value k k' mb' e i t :
  rt_mb_send mb value k = Some (k', mb', e) -> deref k i = Some t ->
  exists t', deref k' i = Some t' /\ error t' = error t.
Proof.
  unfold rt_mb_send. intros H Hi.
  destruct (entry mb =? size mb); [injection H as <- _ _; eauto|].
  destruct (pool_write _ _ _); simpl in H; [|done].
  destruct (c_umod _ _); simpl in H; [|done].
  destruct (0 <? suspend_thread_count (mb_parent mb)).
  - destruct (rt_ipc_object_resume (mb_parent mb) k) as [[k1 ipc]|] eqn:E;
      simpl in H; [|done].
    injection H as <- _ _. by eapply rt_ipc_object_resume_error.
  - simpl in H. injection H as <- _ _. eauto.
Qed.

Lemma mb_mails_empty mb : entry mb = 0 -> mb_mails mb = [].
Proof. intros H. unfold mb_mails. by rewrite H. Qed.

(** X24.  [rt_mb_recv] on an empty mailbox.  With timeout 0 it returns
    [-RT_ETIMEOUT], delivers no mail and leaves the mailbox as it was.
    With a waiting time the running thread is suspended and queued; the
    next [rt_mb_send] stores its mail and makes the thread READY, and the
    receiver then returns [RT_EOK] with exactly that mail, leaving the
    mailbox empty again with an empty wait queue and its invariant
    intact. *)
Theorem rt_mb_recv_waits (mb : rt_mailbox) (timeout value : Z) (k : kernel)
    (t : rt_thread) (c : tid) :
  mb_ring mb -> wait_queue_inv k (mb_parent mb) ->
  suspend_thread (mb_parent mb) = [] ->
  flag (mb_parent mb) = RT_IPC_FLAG_FIFO \/ flag (mb_parent mb) = RT_IPC_FLAG_PRIO ->
  deref k (rt_thread_self k) = Some t -> stat t = RT_THREAD_READY ->
  entry mb = 0 -> 0 < size mb -> is_u32 value ->
  (timeout = 0 ->
     rt_mb_recv mb timeout k =
       Some (store (rt_thread_self k) (set_error (- RT_ETIMEOUT) t) k, mb,
             Returned (- RT_ETIMEOUT), None)) /\
  (timeout <> 0 ->
     exists k1 mb1 k2 mb2 mb3,
       rt_mb_recv mb timeout k = Some (k1, mb1, Scheduled, None) /\
       (stat <$> deref k1 (rt_thread_self k)) = Some RT_THREAD_SUSPEND /\
       rt_mb_send mb1 value (switch_to c k1) = Some (k2, mb2, RT_EOK) /\
       (stat <$> deref k2 (rt_thread_self k)) = Some RT_THREAD_READY /\
       rt_mb_recv_resumed mb2 (rt_thread_self k) (switch_to (rt_thread_self k) k2)
         = Some (switch_to (rt_thread_self k) k2, mb3, RT_EOK, Some value) /\
       mb_ring mb3 /\ mb_mails mb3 = [] /\
       mb_parent mb3 = mk_ipc (flag (mb_parent mb)) [] 0).
Proof.
  intros Hr Hq Hl Hf H Hs He Hsz Hv. set (self := rt_thread_self k) in *.
  assert (D0 : deref (store self (set_error RT_EOK t) k) self = Some (set_error RT_EOK t))
    by (apply deref_store_eq; eauto).
  assert (Hc : suspend_thread_count (mb_parent mb) = 0).
  { destruct Hq as (Hc & _). by rewrite Hl in Hc. }
  split.
  - intros ->. unfold rt_mb_recv. destruct (Z.eqb_spec (entry mb) 0) as [_|?]; [|done].
    change (0 =? 0) with true. cbn iota. fold self. rewrite H. cbn [mbind option_bind]. rewrite D0.
    cbn [mbind option_bind]. by rewrite store_store.
  - intros Ht.
    destruct (ipc_wait_blocks (mb_parent mb) timeout k t (set_error RT_EOK t)
                Hq H Hs Hs) as (E1 & E2 & Hq1); [lia|done|].
    cbv zeta in E1, E2, Hq1. fold self in E1, E2, Hq1.
    rewrite Hl, Hc in E1, Hq1. simpl in E1, Hq1.
    set (tb := set_thread_timer _ _) in *. set (k1 := set_ready _ (store self tb k)) in *.
    set (ipc1 := mk_ipc (flag (mb_parent mb)) [self] 1) in *.
    set (mb1 := mk_mb ipc1 (msg_pool mb) (size mb) (entry mb) (in_offset mb)
                  (out_offset mb)).
    assert (R1 : rt_mb_recv mb timeout k = Some (k1, mb1, Scheduled, None)).
    { unfold rt_mb_recv. destruct (Z.eqb_spec (entry mb) 0) as [_|?]; [|done].
      fold self. rewrite H. cbn [mbind option_bind].
      destruct (Z.eqb_spec timeout 0) as [?|_]; [done|].
      rewrite E1. cbn [mbind option_bind]. rewrite E2. reflexivity. }
    assert (D1 : deref k1 self = Some tb).
    { unfold k1. rewrite deref_set_ready. apply deref_store_eq. eauto. }
    assert (Hr1 : mb_ring mb1) by exact Hr.
    destruct (rt_mb_send_stores mb1 value (switch_to c k1) (proj1 Hr1) Hv)
      as (k2 & ipc2 & E3 & _ & W); [by apply wait_queue_inv_switch_to|simpl; lia|].
    destruct (W self [] eq_refl) as (-> & St & _).
    destruct (rt_mb_send_error _ _ _ _ _ _ self tb E3 D1) as (t2 & D2 & Er).
    destruct (mb_send_ring mb1 (mk_ipc (flag (mb_parent mb)) [] (1 - 1)) value Hr1)
      as [R2 M2]; [simpl; lia|].
    cbv zeta in R2, M2. rewrite (mb_mails_empty mb1 He) in M2. simpl in M2.
    set (mb2 := mk_mb (mk_ipc (flag (mb_parent mb)) [] (1 - 1))
                  (<[Z.to_nat (in_offset mb1) := value]> (msg_pool mb1)) (size mb1)
                  (entry mb1 + 1) ((in_offset mb1 + 1) mod size mb1) (out_offset mb1))
      in *.
    destruct (mb_fetch_ring mb2 value [] R2 M2) as (mb3 & E4 & R3 & M3 & P3 & _).
    exists k1, mb1, k2, mb2, mb3. split; [exact R1|]. split; [by rewrite D1|].
    split; [exact E3|]. split; [exact St|]. split.
    + unfold rt_mb_recv_resumed.
      change (deref (switch_to self k2) self) with (deref k2 self). rewrite D2.
      cbn [mbind option_bind]. rewrite Er. simpl. by rewrite E4.
    + split; [exact R3|]. split; [exact M3|]. by rewrite P3.
Qed.

Lemma rt_mb_recv_waits_witness :
  exists k1 mb1 k2 mb2 mb3,
    rt_mb_recv (rt_mb_init [0; 0] 2 RT_IPC_FLAG_FIFO) (-1) low_high_kernel
      = Some (k1, mb1, Scheduled, None) /\
    rt_mb_send mb1 42 (switch_to 1%nat k1) = Some (k2, mb2, RT_EOK) /\
    rt_mb_recv_resumed mb2 0%nat (switch_to 0%nat k2)
      = Some (switch_to 0%nat k2, mb3, RT_EOK, Some 42) /\
    mb_mails mb3 = [].
Proof.
  destruct (rt_mb_recv_waits (rt_mb_init [0; 0] 2 RT_IPC_FLAG_FIFO) (-1) 42
              low_high_kernel (thread_at 20 20 RT_THREAD_READY) 1%nat)
    as (_ & W).
  - split; [|reflexivity]. unfold mb_inv, is_u32. simpl.
    change (wrap_u32 2) with 2. repeat split; lia.
  - split; [reflexivity|]. split; [unfold is_u32; simpl; lia|].
    split; [apply NoDup_nil_2|constructor].
  - reflexivity.
  - by left.
  - reflexivity.
  - reflexivity.
  - reflexivity.
  - reflexivity.
  - unfold is_u32. lia.
  - destruct W as (k1 & mb1 & k2 & mb2 & mb3 & E1 & _ & E2 & _ & E3 & _ & M & _); [lia|].
    exists k1, mb1, k2, mb2, mb3. split; [exact E1|]. split; [exact E2|].
    split; [exact E3|exact M].
Defined.

(** ** Message queue: the linked cells as a queue of messages *)

Lemma set_next_payload p a pool pool' c :
  set_next p a pool = Some pool' ->
  (payload <$> pool' !! c) = (payload <$> pool !! c).
Proof.
  intros H. apply set_next_inv in H as (m & Hm & ->).
  destruct (decide (c = a)) as [->|Hne].
  - rewrite lookup_insert_same by eauto. by rewrite Hm.
  - by rewrite list_lookup_insert_ne.
Qed.

Lemma mq_payloads_frame pool pool' q :
  (forall c, c ∈ q -> (payload <$> pool' !! c) = (payload <$> pool !! c)) ->
  mq_payloads pool' q = mq_payloads pool q.
Proof.
  intros H. unfold mq_payloads. apply Forall_fmap_ext_1, Forall_forall.
  intros c Hc. specialize (H c Hc).
  destruct (pool' !! c), (pool !! c); simpl in H; congruence.
Qed.

Lemma mq_payloads_snoc pool q c m :
  pool !! c = Some m -> mq_payloads pool (q ++ [c]) = mq_payloads pool q ++ [payload m].
Proof. intros H. unfold mq_payloads. rewrite fmap_app. simpl. by rewrite H. Qed.

Lemma mq_payloads_length pool q sz :
  Forall (fun m => Z.of_nat (length (payload m)) = sz) pool ->
  Forall (fun c => is_Some (pool !! c)) q ->
  Forall (fun d => Z.of_nat (length d) = sz) (mq_payloads pool q).
Proof.
  intros Hp Hq. unfold mq_payloads. apply Forall_fmap, Forall_forall.
  intros c Hc. rewrite Forall_forall in Hq. destruct (Hq c Hc) as [m Hm].
  simpl. rewrite Hm. by eapply (Forall_lookup_1 _ _ _ _ Hp).
Qed.

Lemma lseg_all_lookup pool p l r :
  lseg pool p l r -> Forall (fun c => is_Some (pool !! c)) l.
Proof.
  intros H. apply Forall_forall. intros c Hc. by eapply lseg_lookup.
Qed.

(** The cell taken from the free list, linked behind the tail. *)
Lemma mq_lists_append mq ipc msg m data pool2 pool3 fl' q e :
  mq_lists mq (msg :: fl') q ->
  NoDup ((msg :: fl') ++ q) ->
  mq_pool mq !! msg = Some m ->
  match msg_queue_tail mq with
  | Some tail => set_next (Some msg) tail (<[msg := mk_msg (next m) data]> (mq_pool mq))
  | None => Some (<[msg := mk_msg (next m) data]> (mq_pool mq))
  end = Some pool2 ->
  set_next None msg pool2 = Some pool3 ->
  mq_lists (mk_mq ipc pool3 (msg_size mq) (max_msgs mq)
              (match msg_queue_head mq with None => Some msg | Some h => Some h end)
              (Some msg) (next m) e) fl' (q ++ [msg]).
Proof.
  intros (Hfl & Hq & Htail) Hnd Hm H2 H3.
  destruct Hfl as (Ef & m' & Hm' & Hfl').
  rewrite Hm in Hm'. injection Hm' as <-.
  simpl in Hnd. apply NoDup_cons in Hnd as [Hmsg Hnd].
  apply not_elem_of_app in Hmsg as [Hmsg_fl Hmsg_q].
  apply NoDup_app in Hnd as (Hnd_fl & Hdisj & Hnd_q).
  set (pool1 := <[msg := mk_msg (next m) data]> (mq_pool mq)) in *.
  apply set_next_inv in H3 as (m2 & Hm2 & ->).
  unfold mq_lists. simpl.
  destruct (msg_queue_tail mq) as [t|] eqn:Et.
  - symmetry in Htail. apply last_is_snoc in Htail as (q0 & ->).
    apply set_next_inv in H2 as (mt & Hmt & ->).
    assert (Ht_fl : t ∉ fl').
    { intros Hin. apply (Hdisj t Hin). apply elem_of_app. right.
      by apply list_elem_of_singleton. }
    assert (Hne : msg <> t).
    { intros ->. apply Hmsg_q. apply elem_of_app. right. by apply list_elem_of_singleton. }
    apply NoDup_app in Hnd_q as (_ & Hq0 & _).
    assert (Ht_q0 : t ∉ q0).
    { intros Hin. apply (Hq0 t Hin). by apply list_elem_of_singleton. }
    assert (Hmsg_q0 : msg ∉ q0).
    { intros Hin. apply Hmsg_q. apply elem_of_app. by left. }
    apply linked_snoc_inv in Hq as (Hseg & mt0 & Hmt0 & Hnext).
    split; [|split].
    + unfold linked. do 3 (apply lseg_frame; [done|]). exact Hfl'.
    + destruct q0 as [|h q0'].
      * simpl in Hseg. rewrite Hseg. simpl. split; [done|].
        eexists. split.
        { rewrite list_lookup_insert_ne by done. apply lookup_insert_same.
          unfold pool1. rewrite list_lookup_insert_ne by done. eauto. }
        simpl. split; [done|]. exists (mk_msg None (payload m2)). split; [|done].
        apply lookup_insert_same. eauto.
      * destruct Hseg as (Hh & Hrest). rewrite Hh.
        unfold linked. rewrite <- app_assoc. apply lseg_app. exists (Some t).
        split.
        { do 3 (apply lseg_frame; [done|]). split; [done|]. exact Hrest. }
        simpl. split; [done|]. eexists. split.
        { rewrite list_lookup_insert_ne by done. apply lookup_insert_same.
          unfold pool1. rewrite list_lookup_insert_ne by done. eauto. }
        simpl. split; [done|]. exists (mk_msg None (payload m2)). split; [|done].
        apply lookup_insert_same. eauto.
    + by rewrite last_snoc.
  - symmetry in Htail. apply last_None_nil in Htail as ->.
    apply linked_nil_inv in Hq. rewrite Hq. injection H2 as <-.
    split; [|split].
    + unfold linked. do 2 (apply lseg_frame; [done|]). exact Hfl'.
    + simpl. split; [done|]. exists (mk_msg None (payload m2)). split; [|done].
      apply lookup_insert_same. eauto.
    + done.
Qed.

(** The cell taken from the free list, linked in front of the head. *)
Lemma mq_lists_prepend mq ipc msg m data fl' q e :
  mq_lists mq (msg :: fl') q ->
  NoDup ((msg :: fl') ++ q) ->
  mq_pool mq !! msg = Some m ->
  mq_lists (mk_mq ipc (<[msg := mk_msg (msg_queue_head mq) data]> (mq_pool mq))
              (msg_size mq) (max_msgs mq) (Some msg)
              (match msg_queue_tail mq with None => Some msg | Some t => Some t end)
              (next m) e) fl' (msg :: q).
Proof.
  intros (Hfl & Hq & Htail) Hnd Hm.
  destruct Hfl as (Ef & m' & Hm' & Hfl').
  rewrite Hm in Hm'. injection Hm' as <-.
  simpl in Hnd. apply NoDup_cons in Hnd as [Hmsg Hnd].
  apply not_elem_of_app in Hmsg as [Hmsg_fl Hmsg_q].
  unfold mq_lists. simpl. split; [|split].
  - unfold linked. by apply lseg_frame.
  - split; [done|]. exists (mk_msg (msg_queue_head mq) data).
    split; [apply lookup_insert_same; eauto|].
    simpl. by apply lseg_frame.
  - rewrite Htail. destruct q as [|x q] using rev_ind; [done|].
    rewrite last_snoc. change (msg :: q ++ [x]) with ((msg :: q) ++ [x]).
    by rewrite last_snoc.
Qed.

(** The head of the FIFO, taken to the free list. *)
Lemma mq_lists_fetch mq msg m fl q' e :
  mq_lists mq fl (msg :: q') ->
  NoDup (fl ++ msg :: q') ->
  mq_pool mq !! msg = Some m ->
  mq_lists (mk_mq (mq_parent mq) (<[msg := mk_msg (msg_queue_free mq) (payload m)]> (mq_pool mq))
              (msg_size mq) (max_msgs mq) (next m)
              (if ptr_eqb (msg_queue_tail mq) (Some msg) then None else msg_queue_tail mq)
              (Some msg) e) (msg :: fl) q'.
Proof.
  intros (Hfl & Hq & Htail) Hnd Hm.
  destruct Hq as (Eh & m' & Hm' & Hq').
  rewrite Hm in Hm'. injection Hm' as <-.
  apply NoDup_app in Hnd as (Hnd_fl & Hdisj & Hnd_q).
  apply NoDup_cons in Hnd_q as [Hmsg_q Hnd_q].
  assert (Hmsg_fl : msg ∉ fl).
  { intros Hin. apply (Hdisj msg Hin). apply elem_of_cons. by left. }
  unfold mq_lists. simpl. split; [|split].
  - split; [done|]. exists (mk_msg (msg_queue_free mq) (payload m)).
    split; [apply lookup_insert_same; eauto|]. simpl. by apply lseg_frame.
  - unfold linked. by apply lseg_frame.
  - rewrite Htail. destruct q' as [|x q'] using rev_ind.
    + simpl. by rewrite Nat.eqb_refl.
    + change (msg :: q' ++ [x]) with ((msg :: q') ++ [x]).
      rewrite !last_snoc. simpl.
      destruct (Nat.eqb_spec x msg) as [->|]; [|done].
      destruct Hmsg_q. apply elem_of_app. right. by apply list_elem_of_singleton.
Qed.

Lemma mq_fifo_inv mq ms : mq_fifo mq ms -> mq_inv mq.
Proof. intros (fl & q & H1 & H2 & H3 & H4 & H5 & _). by exists fl, q. Qed.

Lemma rt_memcpy_eq dst src n :
  0 <= n <= Z.of_nat (length src) -> n <= Z.of_nat (length dst) ->
  rt_memcpy dst src n = Some (take (Z.to_nat n) src ++ drop (Z.to_nat n) dst).
Proof.
  intros [H1 H2] H3. unfold rt_memcpy.
  destruct (Z.leb_spec 0 n); [|lia].
  destruct (Z.leb_spec n (Z.of_nat (length src))); [|lia].
  destruct (Z.leb_spec n (Z.of_nat (length dst))); [|lia]. reflexivity.
Qed.

Lemma mq_fifo_send mq ms k buffer size :
  mq_fifo mq ms -> wait_queue_ok k (mq_parent mq) ->
  0 <= size <= Z.of_nat (length buffer) -> size <= msg_size mq ->
  mq_entry mq < max_msgs mq ->
  exists msg m,
    msg_queue_free mq = Some msg /\ mq_pool mq !! msg = Some m /\
    Z.of_nat (length (payload m)) = msg_size mq /\
    (exists k' mq',
       rt_mq_send mq buffer size k = Some (k', mq', RT_EOK) /\
       mq_fifo mq' (ms ++ [take (Z.to_nat size) buffer ++ drop (Z.to_nat size) (payload m)])) /\
    (exists k' mq',
       rt_mq_urgent mq buffer size k = Some (k', mq', RT_EOK) /\
       mq_fifo mq' ((take (Z.to_nat size) buffer ++ drop (Z.to_nat size) (payload m)) :: ms)).
Proof.
  intros Hf Hw Hsz Hle Hlt. pose proof (mq_fifo_inv mq ms Hf) as Hinv.
  destruct Hf as (fl & q & Hl & Hperm & Hentry & Hmax & Hpay & ->).
  pose proof (mq_cells_length _ _ _ Hperm) as Hlen.
  unfold is_u32 in Hmax.
  destruct fl as [|msg fl']; [simpl in Hlen; lia|].
  pose proof Hl as ((Ef & m & Hm & Hfl') & Hq & Htail).
  pose proof (perm_NoDup_seq _ _ Hperm) as Hnd.
  assert (Hmsg_q : msg ∉ q).
  { simpl in Hnd. apply NoDup_cons in Hnd as [Hmsg _].
    by apply not_elem_of_app in Hmsg as [_ ?]. }
  assert (Hsize : Z.of_nat (length (payload m)) = msg_size mq).
  { by eapply (Forall_lookup_1 _ _ _ _ Hpay). }
  set (data := take (Z.to_nat size) buffer ++ drop (Z.to_nat size) (payload m)).
  assert (Ed : rt_memcpy (payload m) buffer size = Some data).
  { apply rt_memcpy_eq; lia. }
  assert (Hentry' : wrap_u32 (mq_entry mq + 1) = Z.of_nat (length q + 1)).
  { rewrite wrap_u32_id; [lia|]. unfold is_u32. lia. }
  exists msg, m. do 3 (split; [done|]). split.
  - destruct (rt_mq_send_total mq buffer size k Hinv Hw Hsz) as [[[k' mq'] err] H].
    pose proof (rt_mq_send_inv _ _ _ _ _ _ _ Hinv H) as Hinv'.
    pose proof H as H0. unfold rt_mq_send in H.
    destruct (Z.ltb_spec (msg_size mq) size); [lia|].
    rewrite Ef, Hm in H. cbn [mbind option_bind] in H. rewrite Ed in H.
    cbn [mbind option_bind] in H. bind_inv H. injection H as <- <- <-.
    eexists _, _. split; [exact H0|].
    match goal with
    | H2 : _ = Some ?p2, H3 : set_next None msg ?p2 = Some ?p3 |- _ =>
        pose proof (mq_lists_append mq r msg m data p2 p3 fl' q
                      (wrap_u32 (mq_entry mq + 1)) Hl Hnd Hm H2 H3) as Hl';
        assert (P3 : forall c, (payload <$> p3 !! c)
                               = (payload <$> <[msg := mk_msg (next m) data]> (mq_pool mq) !! c));
        [intros c; rewrite (set_next_payload _ _ _ _ c H3);
         destruct (msg_queue_tail mq);
         [by rewrite (set_next_payload _ _ _ _ c H2)|by injection H2 as <-]|]
    end.
    exists fl', (q ++ [msg]). split; [exact Hl'|]. split.
    { rewrite app_assoc, <- Permutation_cons_append. exact Hperm. }
    split; [simpl; by rewrite length_app|]. split; [done|]. split.
    { destruct Hinv' as (? & ? & _ & _ & _ & _ & Hp). exact Hp. }
    simpl.
    assert (P3m := P3 msg). rewrite lookup_insert_same in P3m by eauto.
    destruct (l0 !! msg) as [m3|] eqn:E3; [|done]. simpl in P3m.
    injection P3m as P3m.
    rewrite (mq_payloads_snoc _ _ _ _ E3), P3m. f_equal.
    symmetry. apply mq_payloads_frame. intros c Hc. rewrite P3.
    rewrite list_lookup_insert_ne; [done|]. congruence.
  - destruct (rt_mq_urgent_total mq buffer size k Hinv Hw Hsz) as [[[k' mq'] err] H].
    pose proof (rt_mq_urgent_inv _ _ _ _ _ _ _ Hinv H) as Hinv'.
    pose proof H as H0. unfold rt_mq_urgent in H.
    destruct (Z.ltb_spec (msg_size mq) size); [lia|].
    rewrite Ef, Hm in H. cbn [mbind option_bind] in H. rewrite Ed in H.
    cbn [mbind option_bind] in H. bind_inv H. injection H as <- <- <-.
    eexists _, _. split; [exact H0|].
    exists fl', (msg :: q). split.
    { by apply mq_lists_prepend. }
    split; [rewrite <- Permutation_middle; exact Hperm|].
    split; [simpl; rewrite Hentry'; lia|]. split; [done|]. split.
    { destruct Hinv' as (? & ? & _ & _ & _ & _ & Hp). exact Hp. }
    simpl. rewrite lookup_insert_same by eauto. simpl. f_equal.
    symmetry. apply mq_payloads_frame. intros c Hc.
    rewrite list_lookup_insert_ne; [done|]. congruence.
Qed.

Lemma mq_fifo_recv mq m ms' k buffer size timeout :
  mq_fifo mq (m :: ms') ->
  0 <= size <= Z.of_nat (length buffer) ->
  exists mq',
    rt_mq_recv mq buffer size timeout k =
      Some (k, mq', Returned RT_EOK,
            take (Z.to_nat (Z.min size (msg_size mq))) m ++
            drop (Z.to_nat (Z.min size (msg_size mq))) buffer) /\
    mq_fifo mq' ms' /\ mq_parent mq' = mq_parent mq.
Proof.
  intros Hf Hsz.
  destruct Hf as (fl & q & Hl & Hperm & Hentry & Hmax & Hpay & Hms).
  pose proof (mq_cells_length _ _ _ Hperm) as Hlen. unfold is_u32 in Hmax.
  destruct q as [|msg q']; [done|].
  pose proof Hl as (Hfl & (Eh & pm & Hm & Hq') & Htail).
  pose proof (perm_NoDup_seq _ _ Hperm) as Hnd.
  assert (Hmsg_q : msg ∉ q').
  { apply NoDup_app in Hnd as (_ & _ & Hq). by apply NoDup_cons in Hq as [? _]. }
  simpl in Hms. rewrite Hm in Hms. injection Hms as -> ->.
  assert (Hsize : Z.of_nat (length (payload pm)) = msg_size mq).
  { by eapply (Forall_lookup_1 _ _ _ _ Hpay). }
  set (n := Z.min size (msg_size mq)).
  assert (En : (if msg_size mq <? size then msg_size mq else size) = n).
  { unfold n. destruct (Z.ltb_spec (msg_size mq) size); lia. }
  simpl length in Hentry, Hlen.
  eexists. split; [|split].
  - unfold rt_mq_recv. destruct (Z.eqb_spec (mq_entry mq) 0) as [?|_]; [lia|].
    unfold mq_fetch. rewrite Eh. cbn [mbind option_bind]. rewrite Hm.
    cbn [mbind option_bind]. rewrite En.
    rewrite (rt_memcpy_eq buffer (payload pm) n) by (unfold n; lia).
    cbn [mbind option_bind]. unfold set_next. rewrite Hm. reflexivity.
  - exists (msg :: fl), q'. split.
    { by apply mq_lists_fetch. }
    split; [simpl; rewrite Permutation_middle; exact Hperm|].
    split.
    { simpl. rewrite wrap_u32_id; [lia|]. unfold is_u32. lia. }
    split; [done|]. split.
    { simpl. apply Forall_insert; [done|]. simpl. done. }
    simpl. symmetry. apply mq_payloads_frame. intros c Hc.
    rewrite list_lookup_insert_ne; [done|]. congruence.
  - reflexivity.
Qed.

(** X25.  The message queue is a first-in first-out queue of at most
    [max_msgs] messages of [msg_size] bytes; [mq_fifo mq ms] says that the
    queue satisfies its invariant and that the cells linked from
    [msg_queue_head] hold the messages [ms].  A size above [msg_size] is
    refused with [-RT_ERROR] and a full queue with [-RT_EFULL], nothing
    being changed.  Otherwise [rt_mq_send] returns [RT_EOK] and appends the
    message at the end and [rt_mq_urgent] puts it at the front; the message
    is the [size] bytes of the buffer followed by the bytes the cell at the
    head of the free list held behind them.  [rt_mq_recv] on a queue that is not empty returns
    [RT_EOK], copies the first [min(size, msg_size)] bytes of the oldest
    message over the buffer and removes the message, whatever the timeout,
    and leaves the kernel state alone. *)
Theorem rt_mq_fifo (mq : rt_messagequeue) (ms : list (list Z)) (k : kernel) :
  mq_fifo mq ms -> wait_queue_ok k (mq_parent mq) ->
  mq_entry mq = Z.of_nat (length ms) /\
  Forall (fun d => Z.of_nat (length d) = msg_size mq) ms /\
  (forall buffer size, msg_size mq < size ->
     rt_mq_send mq buffer size k = Some (k, mq, - RT_ERROR) /\
     rt_mq_urgent mq buffer size k = Some (k, mq, - RT_ERROR)) /\
  (forall buffer size, size <= msg_size mq -> mq_entry mq = max_msgs mq ->
     rt_mq_send mq buffer size k = Some (k, mq, - RT_EFULL) /\
     rt_mq_urgent mq buffer size k = Some (k, mq, - RT_EFULL)) /\
  (forall buffer size,
     0 <= size <= Z.of_nat (length buffer) -> size <= msg_size mq ->
     mq_entry mq < max_msgs mq ->
     exists msg m,
       msg_queue_free mq = Some msg /\ mq_pool mq !! msg = Some m /\
       Z.of_nat (length (payload m)) = msg_size mq /\
       (exists k' mq',
          rt_mq_send mq buffer size k = Some (k', mq', RT_EOK) /\
          mq_fifo mq'
            (ms ++ [take (Z.to_nat size) buffer ++ drop (Z.to_nat size) (payload m)])) /\
       (exists k' mq',
          rt_mq_urgent mq buffer size k = Some (k', mq', RT_EOK) /\
          mq_fifo mq'
            ((take (Z.to_nat size) buffer ++ drop (Z.to_nat size) (payload m)) :: ms))) /\
  (forall buffer size timeout m ms',
     ms = m :: ms' -> 0 <= size <= Z.of_nat (length buffer) ->
     exists mq',
       rt_mq_recv mq buffer size timeout k =
         Some (k, mq', Returned RT_EOK,
               take (Z.to_nat (Z.min size (msg_size mq))) m ++
               drop (Z.to_nat (Z.min size (msg_size mq))) buffer) /\
       mq_fifo mq' ms' /\ mq_parent mq' = mq_parent mq).
Proof.
  intros Hf Hw. pose proof Hf as (fl & q & Hl & Hperm & Hentry & Hmax & Hpay & Hms).
  split; [|split; [|split; [|split; [|split]]]].
  - rewrite Hms. unfold mq_payloads. by rewrite length_fmap.
  - rewrite Hms. apply mq_payloads_length; [done|].
    destruct Hl as (_ & Hq & _). by eapply lseg_all_lookup.
  - intros buffer size Hgt. unfold rt_mq_send, rt_mq_urgent.
    by destruct (Z.ltb_spec (msg_size mq) size); [|lia].
  - intros buffer size Hle Hfull.
    assert (Ef : msg_queue_free mq = None).
    { pose proof (mq_cells_length _ _ _ Hperm) as Hlen. unfold is_u32 in Hmax.
      destruct fl as [|x fl]; [by destruct Hl as (E & _)|]. simpl in Hlen. lia. }
    unfold rt_mq_send, rt_mq_urgent.
    destruct (Z.ltb_spec (msg_size mq) size); [lia|]. by rewrite Ef.
  - intros buffer size Hsz Hle Hlt.
    by apply mq_fifo_send.
  - intros buffer size timeout m ms' -> Hsz. by apply mq_fifo_recv.
Qed.

Lemma mq_one_live_fifo : mq_fifo mq_one_live [[1; 2; 3; 4]].
Proof.
  exists [0%nat], [1%nat]. split.
  { split; [|split]; [| |reflexivity]; (split; [reflexivity|]); eexists;
      (split; [reflexivity|reflexivity]). }
  split; [reflexivity|]. split; [reflexivity|].
  split; [unfold is_u32; simpl; lia|]. split; [by repeat constructor|reflexivity].
Qed.

Lemma rt_mq_fifo_witness :
  exists k1 mq1 k2 mq2 mq3,
    rt_mq_send mq_one_live [5; 6; 7] 3 solo_kernel = Some (k1, mq1, RT_EOK) /\
    mq_fifo mq1 [[1; 2; 3; 4]; [5; 6; 7; 0]] /\
    rt_mq_urgent mq_one_live [9; 9] 2 solo_kernel = Some (k2, mq2, RT_EOK) /\
    mq_fifo mq2 [[9; 9; 0; 0]; [1; 2; 3; 4]] /\
    rt_mq_recv mq_one_live [0; 0] 2 0 solo_kernel
      = Some (solo_kernel, mq3, Returned RT_EOK, [1; 2]) /\
    mq_fifo mq3 [].
Proof.
  assert (Hw : wait_queue_ok solo_kernel (mq_parent mq_one_live)).
  { split; [constructor|]. simpl. lia. }
  destruct (rt_mq_fifo mq_one_live _ solo_kernel mq_one_live_fifo Hw)
    as (_ & _ & _ & _ & S & R).
  destruct (S [5; 6; 7] 3) as (msg & m & Ef & Em & _ & (k1 & mq1 & E1 & F1) & _);
    [simpl; lia|simpl; lia|simpl; lia|].
  injection Ef as <-. injection Em as <-.
  destruct (S [9; 9] 2) as (msg & m & Ef & Em & _ & _ & (k2 & mq2 & E2 & F2));
    [simpl; lia|simpl; lia|simpl; lia|].
  injection Ef as <-. injection Em as <-.
  destruct (R [0; 0] 2 0 _ _ eq_refl) as (mq3 & E3 & F3 & _); [simpl; lia|].
  exists k1, mq1, k2, mq2, mq3. split; [exact E1|]. split; [exact F1|].
  split; [exact E2|]. split; [exact F2|]. split; [exact E3|exact F3].
Defined.

Lemma rt_mq_send_wake mq buffer size k k' mq' :
  rt_mq_send mq buffer size k = Some (k', mq', RT_EOK) ->
  mq_wake (mq_parent mq) k = Some (k', mq_parent mq').
Proof.
  unfold rt_mq_send. intros H.
  destruct (msg_size mq <? size); [by injection H|].
  destruct (msg_queue_free mq) as [msg|]; [|by injection H].
  bind_inv H. injection H as <- <-. by destruct r.
Qed.

Lemma mq_fifo_fetch mq m ms' buffer size :
  mq_fifo mq (m :: ms') ->
  0 <= size <= Z.of_nat (length buffer) ->
  exists mq',
    mq_fetch mq buffer size =
      Some (mq', take (Z.to_nat (Z.min size (msg_size mq))) m ++
                 drop (Z.to_nat (Z.min size (msg_size mq))) buffer) /\
    mq_fifo mq' ms' /\ mq_parent mq' = mq_parent mq.
Proof.
  intros Hf Hsz.
  destruct (mq_fifo_recv mq m ms' (mk_kernel [] 0%nat [] []) buffer size 0 Hf Hsz)
    as (mq' & E & F & P).
  exists mq'. split; [|done]. unfold rt_mq_recv in E.
  destruct Hf as (fl & q & _ & _ & He & _ & _ & Hms).
  destruct q as [|c q]; [done|]. simpl in He.
  destruct (Z.eqb_spec (mq_entry mq) 0) as [?|_]; [lia|].
  destruct (mq_fetch mq buffer size) as [[mq1 b1]|]; [|done].
  simpl in E. by injection E as <- <-.
Qed.

(** X26.  [rt_mq_recv] on an empty message queue.  With timeout 0 it
    returns [-RT_ETIMEOUT] and leaves queue and buffer as they were.  With
    a waiting time the running thread is suspended and queued; the next
    [rt_mq_send] links its message (the first cell of the free list,
    overwritten with [size] bytes) and makes the thread READY, and the
    receiver, when no other receive comes in between, returns [RT_EOK]
    with the first [min(size, msg_size)] bytes of that message in its
    buffer, leaving the queue empty again with an empty wait queue. *)
Theorem rt_mq_recv_waits (mq : rt_messagequeue) (timeout : Z) (k : kernel)
    (t : rt_thread) (c : tid) (buffer rbuf : list Z) (size rsize : Z) :
  mq_fifo mq [] -> wait_queue_inv k (mq_parent mq) ->
  suspend_thread (mq_parent mq) = [] ->
  flag (mq_parent mq) = RT_IPC_FLAG_FIFO \/ flag (mq_parent mq) = RT_IPC_FLAG_PRIO ->
  deref k (rt_thread_self k) = Some t -> stat t = RT_THREAD_READY ->
  0 < max_msgs mq ->
  0 <= size <= Z.of_nat (length buffer) -> size <= msg_size mq ->
  0 <= rsize <= Z.of_nat (length rbuf) ->
  exists msg m,
    msg_queue_free mq = Some msg /\ mq_pool mq !! msg = Some m /\
    (timeout = 0 ->
       rt_mq_recv mq rbuf rsize timeout k =
         Some (store (rt_thread_self k) (set_error (- RT_ETIMEOUT) t) k, mq,
               Returned (- RT_ETIMEOUT), rbuf)) /\
    (timeout <> 0 ->
       exists k1 mq1 k2 mq2 mq3,
         rt_mq_recv mq rbuf rsize timeout k = Some (k1, mq1, Scheduled, rbuf) /\
         (stat <$> deref k1 (rt_thread_self k)) = Some RT_THREAD_SUSPEND /\
         rt_mq_send mq1 buffer size (switch_to c k1) = Some (k2, mq2, RT_EOK) /\
         (stat <$> deref k2 (rt_thread_self k)) = Some RT_THREAD_READY /\
         mq_fifo mq2 [take (Z.to_nat size) buffer ++ drop (Z.to_nat size) (payload m)] /\
         rt_mq_recv_resumed mq2 rbuf rsize (rt_thread_self k)
             (switch_to (rt_thread_self k) k2)
           = Some (switch_to (rt_thread_self k) k2, mq3, RT_EOK,
                   take (Z.to_nat (Z.min rsize (msg_size mq)))
                     (take (Z.to_nat size) buffer ++ drop (Z.to_nat size) (payload m)) ++
                   drop (Z.to_nat (Z.min rsize (msg_size mq))) rbuf) /\
         mq_fifo mq3 [] /\
         mq_parent mq3 = mk_ipc (flag (mq_parent mq)) [] 0).
Proof.
  intros Hf Hq Hl Hfl H Hs Hmx Hsz Hle Hrs. set (self := rt_thread_self k) in *.
  assert (D0 : deref (store self (set_error RT_EOK t) k) self = Some (set_error RT_EOK t))
    by (apply deref_store_eq; eauto).
  assert (Hc : suspend_thread_count (mq_parent mq) = 0).
  { destruct Hq as (Hc & _). by rewrite Hl in Hc. }
  assert (He : mq_entry mq = 0).
  { destruct Hf as (fl & q & _ & _ & He & _ & _ & Hms). by destruct q. }
  destruct (ipc_wait_blocks (mq_parent mq) timeout k t (set_error RT_EOK t)
              Hq H Hs Hs) as (E1 & E2 & Hq1); [lia|done|].
  cbv zeta in E1, E2, Hq1. fold self in E1, E2, Hq1.
  rewrite Hl, Hc in E1, Hq1. simpl in E1, Hq1.
  set (tb := set_thread_timer _ _) in *. set (k1 := set_ready _ (store self tb k)) in *.
  set (ipc1 := mk_ipc (flag (mq_parent mq)) [self] 1) in *.
  set (mq1 := mk_mq ipc1 (mq_pool mq) (msg_size mq) (max_msgs mq) (msg_queue_head mq)
                (msg_queue_tail mq) (msg_queue_free mq) (mq_entry mq)).
  assert (D1 : deref k1 self = Some tb).
  { unfold k1. rewrite deref_set_ready. apply deref_store_eq. eauto. }
  assert (Hf1 : mq_fifo mq1 []) by exact Hf.
  assert (Hq1' : wait_queue_inv (switch_to c k1) (mq_parent mq1))
    by (by apply wait_queue_inv_switch_to).
  assert (Hw1 : wait_queue_ok (switch_to c k1) (mq_parent mq1)).
  { split; [by apply wait_queue_inv_valid|]. simpl. done. }
  destruct (mq_fifo_send mq1 [] (switch_to c k1) buffer size Hf1 Hw1 Hsz Hle)
    as (msg & m & Ef & Hm & Hlen & (k2 & mq2 & E3 & F2) & _); [simpl; lia|].
  simpl in F2. exists msg, m. split; [exact Ef|]. split; [exact Hm|].
  set (d := take (Z.to_nat size) buffer ++ drop (Z.to_nat size) (payload m)) in *.
  split.
  - intros ->. unfold rt_mq_recv. destruct (Z.eqb_spec (mq_entry mq) 0) as [_|?]; [|done].
    change (0 =? 0) with true. cbn iota. fold self. rewrite H.
    cbn [mbind option_bind]. rewrite D0. cbn [mbind option_bind].
    by rewrite store_store.
  - intros Ht.
    assert (R1 : rt_mq_recv mq rbuf rsize timeout k = Some (k1, mq1, Scheduled, rbuf)).
    { unfold rt_mq_recv. destruct (Z.eqb_spec (mq_entry mq) 0) as [_|?]; [|done].
      fold self. rewrite H. cbn [mbind option_bind].
      destruct (Z.eqb_spec timeout 0) as [?|_]; [done|].
      rewrite E1. cbn [mbind option_bind]. rewrite E2. reflexivity. }
    pose proof (rt_mq_send_wake _ _ _ _ _ _ E3) as Wk.
    unfold mq_wake in Wk. simpl in Wk.
    rewrite (rt_ipc_object_resume_eq ipc1 (switch_to c k1) self [] tb Hq1' eq_refl D1)
      in Wk.
    injection Wk as Ek2 Ep2.
    set (tr := set_stat RT_THREAD_READY _) in Ek2.
    assert (D2 : deref k2 self = Some tr).
    { rewrite <- Ek2. rewrite deref_set_ready.
      apply (deref_store_eq (switch_to c k1)). exact (mk_is_Some _ _ D1). }
    assert (Hsz2 : msg_size mq2 = msg_size mq).
    { clear -E3. unfold rt_mq_send in E3.
      destruct (msg_size mq1 <? size); [by injection E3|].
      destruct (msg_queue_free mq1); [|by injection E3].
      bind_inv E3. by injection E3 as _ <-. }
    destruct (mq_fifo_fetch mq2 d [] rbuf rsize F2 Hrs) as (mq3 & E4 & F3 & P3).
    rewrite Hsz2 in E4.
    exists k1, mq1, k2, mq2, mq3. split; [exact R1|]. split; [by rewrite D1|].
    split; [exact E3|]. split; [by rewrite D2|]. split; [exact F2|].
    split.
    { unfold rt_mq_recv_resumed.
      change (deref (switch_to self k2) self) with (deref k2 self). rewrite D2.
      cbn [mbind option_bind]. change (error tr) with RT_EOK.
      change (negb (RT_EOK =? RT_EOK)) with false. cbn iota. by rewrite E4. }
    split; [exact F3|]. by rewrite P3, <- Ep2.
Qed.

Lemma mq_init_two_fifo mq0 :
  rt_mq_init two_cells 4 16 RT_IPC_FLAG_FIFO = Some mq0 -> mq_fifo mq0 [].
Proof.
  intros E0. vm_compute in E0. injection E0 as <-.
  exists [1%nat; 0%nat], []. split.
  { split; [|split]; [| reflexivity | reflexivity].
    split; [reflexivity|]. eexists. split; [reflexivity|].
    split; [reflexivity|]. eexists. split; reflexivity. }
  split; [apply Permutation_swap|]. split; [reflexivity|].
  split; [unfold is_u32; simpl; lia|]. split; [by repeat constructor|reflexivity].
Qed.

Lemma rt_mq_recv_waits_witness :
  exists mq0 k1 mq1 k2 mq2 mq3,
    rt_mq_init two_cells 4 16 RT_IPC_FLAG_FIFO = Some mq0 /\
    rt_mq_recv mq0 four_bytes 4 (-1) low_high_kernel = Some (k1, mq1, Scheduled, four_bytes) /\
    rt_mq_send mq1 [7; 8] 2 (switch_to 1%nat k1) = Some (k2, mq2, RT_EOK) /\
    rt_mq_recv_resumed mq2 four_bytes 4 0%nat (switch_to 0%nat k2)
      = Some (switch_to 0%nat k2, mq3, RT_EOK, [7; 8; 0; 0]) /\
    mq_fifo mq3 [].
Proof.
  destruct (rt_mq_init two_cells 4 16 RT_IPC_FLAG_FIFO) as [mq0|] eqn:E0; [|done].
  pose proof (mq_init_two_fifo mq0 E0) as F0.
  vm_compute in E0. injection E0 as <-.
  destruct (rt_mq_recv_waits _ (-1) low_high_kernel (thread_at 20 20 RT_THREAD_READY)
              1%nat [7; 8] four_bytes 2 4 F0) as (msg & m & Ef & Em & _ & W).
  - split; [reflexivity|]. split; [unfold is_u32; simpl; lia|].
    split; [apply NoDup_nil_2|constructor].
  - reflexivity.
  - by left.
  - reflexivity.
  - reflexivity.
  - simpl. lia.
  - simpl. lia.
  - simpl. lia.
  - simpl. lia.
  - injection Ef as <-. injection Em as <-.
    destruct W as (k1 & mq1 & k2 & mq2 & mq3 & E1 & _ & E2 & _ & _ & E3 & F3 & _);
      [lia|].
    eexists _, k1, mq1, k2, mq2, mq3. split; [reflexivity|]. split; [exact E1|].
    split; [exact E2|]. split; [exact E3|exact F3].
Defined.

(** *** The ready table under the IPC operations *)

Lemma rt_ipc_object_suspend_ready_inv ipc thread k k' ipc' :
  rt_ipc_object_suspend ipc thread k = Some (k', ipc') -> ready_inv k -> ready_inv k'.
Proof.
  unfold rt_ipc_object_suspend. intros H Hk.
  destruct (rt_thread_suspend thread k) as [[k1 e]|] eqn:E; simpl in H; [|done].
  apply rt_thread_suspend_ready_inv in E; [|done].
  destruct (flag ipc =? RT_IPC_FLAG_FIFO); [by injection H as <- _|].
  destruct (flag ipc =? RT_IPC_FLAG_PRIO); [|by injection H as <- _].
  bind_inv H. by injection H as <- _.
Qed.

Lemma rt_ipc_object_resume_ready_inv ipc k k' ipc' :
  rt_ipc_object_resume ipc k = Some (k', ipc') -> ready_inv k -> ready_inv k'.
Proof.
  unfold rt_ipc_object_resume. intros H Hk.
  destruct (suspend_thread ipc) as [|thread wl]; [done|].
  destruct (rt_thread_resume thread (thread :: wl) k) as [[[k1 wl1] e]|] eqn:E;
    simpl in H; [|done].
  injection H as <- _. by eapply rt_thread_resume_ready_inv.
Qed.

Lemma rt_ipc_object_resume_all_ready_inv fuel ipc k k' ipc' :
  rt_ipc_object_resume_all fuel ipc k = Some (k', ipc') -> ready_inv k -> ready_inv k'.
Proof.
  revert ipc k. induction fuel as [|fuel IH]; intros ipc k H Hk; simpl in H.
  - destruct (suspend_thread ipc); [by injection H as <- _|done].
  - destruct (suspend_thread ipc) as [|thread wl]; [by injection H as <- _|].
    destruct (deref k thread) as [t|] eqn:D; simpl in H; [|done].
    destruct (rt_thread_resume thread (thread :: wl) _) as [[[k1 wl1] e]|] eqn:E;
      simpl in H; [|done].
    eapply IH; [exact H|]. eapply rt_thread_resume_ready_inv; [exact E|].
    by eapply ready_inv_store.
Qed.

Lemma ipc_wait_ready_inv ipc thread time k t t' k2 ipc' k3 :
  deref k thread = Some t -> stat t' = stat t ->
  rt_ipc_object_suspend ipc thread (store thread t' k) = Some (k2, ipc') ->
  start_thread_timer thread time k2 = Some k3 ->
  ready_inv k -> ready_inv k3.
Proof.
  intros D Hs E1 E2 Hk. eapply start_thread_timer_ready_inv; [exact E2|].
  eapply rt_ipc_object_suspend_ready_inv; [exact E1|]. by eapply ready_inv_store.
Qed.

Ltac wait_ready_inv :=
  eapply ipc_wait_ready_inv; [| |eassumption|eassumption|eassumption];
  [eassumption|reflexivity].

Lemma rt_sem_take_ready_inv sem time k k' sem' st :
  rt_sem_take sem time k = Some (k', sem', st) -> ready_inv k -> ready_inv k'.
Proof.
  unfold rt_sem_take. intros H Hk.
  destruct (0 <? sem_value sem); [by injection H as <- _ _|].
  destruct (time =? 0); [by injection H as <- _ _|].
  bind_inv H. injection H as <- _ _. wait_ready_inv.
Qed.

Lemma rt_sem_release_ready_inv sem k k' sem' e :
  rt_sem_release sem k = Some (k', sem', e) -> ready_inv k -> ready_inv k'.
Proof.
  unfold rt_sem_release. intros H Hk.
  destruct (_ && _); [|by injection H as <- _ _].
  bind_inv H. injection H as <- _ _. by eapply rt_ipc_object_resume_ready_inv.
Qed.

Lemma priority_step_ready_inv pmax (b : bool) o p k k1 :
  (if b then fst <$> rt_thread_control pmax o RT_THREAD_CTRL_CHANGE_PRIORITY p k
   else Some k) = Some k1 ->
  ready_inv k -> ready_inv k1.
Proof.
  intros H Hk. destruct b; [|by injection H as <-].
  destruct (rt_thread_control pmax o RT_THREAD_CTRL_CHANGE_PRIORITY p k)
    as [[k0 e]|] eqn:E; simpl in H; [|done].
  injection H as <-. by eapply rt_thread_control_ready_inv.
Qed.

Lemma rt_mutex_take_ready_inv pmax mutex time k k' mutex' st :
  rt_mutex_take pmax mutex time k = Some (k', mutex', st) -> ready_inv k -> ready_inv k'.
Proof.
  unfold rt_mutex_take. intros H Hk.
  destruct (deref k (rt_thread_self k)) as [t|] eqn:D; simpl in H; [|done].
  assert (Hk0 : ready_inv (store (rt_thread_self k) (set_error RT_EOK t) k))
    by (by eapply ready_inv_store).
  destruct (owner_is mutex (rt_thread_self k)); [by injection H as <- _ _|].
  destruct (0 <? mutex_value mutex).
  { bind_inv H. by injection H as <- _ _. }
  destruct (time =? 0).
  { bind_inv H. injection H as <- _ _. by eapply ready_inv_store. }
  bind_inv H. injection H as <- _ _.
  eapply start_thread_timer_ready_inv; [eassumption|].
  eapply rt_ipc_object_suspend_ready_inv; [eassumption|].
  by eapply priority_step_ready_inv.
Qed.

Lemma rt_mutex_release_ready_inv pmax mutex k k' mutex' e :
  rt_mutex_release pmax mutex k = Some (k', mutex', e) -> ready_inv k -> ready_inv k'.
Proof.
  unfold rt_mutex_release. intros H Hk.
  destruct (negb (owner_is mutex (rt_thread_self k))).
  { bind_inv H. injection H as <- _ _. by eapply ready_inv_store. }
  destruct (wrap_s32 (hold mutex - 1) =? 0); [|by injection H as <- _ _].
  bind_inv H. injection H as <- _ _.
  match goal with X : (if ?b then fst <$> _ else _) = Some ?k1 |- _ =>
    assert (Hk1 : ready_inv k1) by (by eapply priority_step_ready_inv) end.
  match goal with X : (if ?b then rt_ipc_object_resume _ _ else _) = Some _ |- _ =>
    destruct b; [by eapply rt_ipc_object_resume_ready_inv|by injection X as <- _] end.
Qed.

Lemma event_send_step_ready_inv thread k event k' event' :
  event_send_step thread (k, event) = Some (k', event') -> ready_inv k -> ready_inv k'.
Proof.
  unfold event_send_step. intros H Hk.
  destruct (deref k thread) as [t|] eqn:D; simpl in H; [|done].
  destruct (event_status _ _ _); [|by injection H as <- _].
  bind_inv H. injection H as <- _. by eapply rt_thread_resume_ready_inv.
Qed.

Lemma event_send_loop_ready_inv ns k event k' event' :
  event_send_loop ns (k, event) = Some (k', event') -> ready_inv k -> ready_inv k'.
Proof.
  revert k event. induction ns as [|n ns IH]; intros k event H Hk;
    cbn [event_send_loop] in H.
  - by injection H as <- _.
  - destruct (event_send_step n (k, event)) as [[k1 event1]|] eqn:E;
      cbn [mbind option_bind] in H; [|done].
    eapply IH; [exact H|]. by eapply event_send_step_ready_inv.
Qed.

Lemma rt_event_send_ready_inv event set_ k k' event' e :
  rt_event_send event set_ k = Some (k', event', e) -> ready_inv k -> ready_inv k'.
Proof.
  unfold rt_event_send. intros H Hk.
  destruct (set_ =? 0); [by injection H as <- _ _|].
  bind_inv H. injection H as <- _ _.
  match goal with X : (if ?b then _ else _) = Some _ |- _ =>
    destruct b; [by eapply event_send_loop_ready_inv|by injection X as <- _] end.
Qed.

Lemma rt_event_recv_ready_inv event set_ option_ timeout k k' event' st r :
  rt_event_recv event set_ option_ timeout k = Some (k', event', st, r) ->
  ready_inv k -> ready_inv k'.
Proof.
  unfold rt_event_recv. intros H Hk.
  destruct (set_ =? 0); [by injection H as <- _ _ _|].
  destruct (deref k (rt_thread_self k)) as [t|] eqn:D; simpl in H; [|done].
  assert (Hk0 : ready_inv (store (rt_thread_self k) (set_error RT_EOK t) k))
    by (by eapply ready_inv_store).
  destruct (event_recv_status _ _ _).
  { bind_inv H. by injection H as <- _ _ _. }
  destruct (timeout =? 0).
  { bind_inv H. injection H as <- _ _ _. by eapply ready_inv_store. }
  bind_inv H. injection H as <- _ _ _. wait_ready_inv.
Qed.

Lemma mq_wake_ready_inv ipc k k' ipc' :
  mq_wake ipc k = Some (k', ipc') -> ready_inv k -> ready_inv k'.
Proof.
  unfold mq_wake. intros H Hk. destruct (0 <? _).
  - by eapply rt_ipc_object_resume_ready_inv.
  - by injection H as <- _.
Qed.

Lemma rt_mb_send_ready_inv mb value k k' mb' e :
  rt_mb_send mb value k = Some (k', mb', e) -> ready_inv k -> ready_inv k'.
Proof.
  unfold rt_mb_send. intros H Hk.
  destruct (entry mb =? size mb); [by injection H as <- _ _|].
  bind_inv H. injection H as <- _ _. by eapply (mq_wake_ready_inv (mb_parent mb)).
Qed.

Lemma rt_mb_recv_ready_inv mb timeout k k' mb' st r :
  rt_mb_recv mb timeout k = Some (k', mb', st, r) -> ready_inv k -> ready_inv k'.
Proof.
  unfold rt_mb_recv. intros H Hk. destruct (entry mb =? 0).
  - destruct (deref k (rt_thread_self k)) as [t|] eqn:D; simpl in H; [|done].
    assert (Hk0 : ready_inv (store (rt_thread_self k) (set_error RT_EOK t) k))
      by (by eapply ready_inv_store).
    destruct (timeout =? 0).
    + bind_inv H. injection H as <- _ _ _. by eapply ready_inv_store.
    + bind_inv H. injection H as <- _ _ _. wait_ready_inv.
  - bind_inv H. by injection H as <- _ _ _.
Qed.

Lemma rt_mq_send_ready_inv mq buffer size k k' mq' e :
  rt_mq_send mq buffer size k = Some (k', mq', e) -> ready_inv k -> ready_inv k'.
Proof.
  unfold rt_mq_send. intros H Hk.
  destruct (msg_size mq <? size); [by injection H as <- _ _|].
  destruct (msg_queue_free mq); [|by injection H as <- _ _].
  bind_inv H. injection H as <- _ _. by eapply mq_wake_ready_inv.
Qed.

Lemma rt_mq_urgent_ready_inv mq buffer size k k' mq' e :
  rt_mq_urgent mq buffer size k = Some (k', mq', e) -> ready_inv k -> ready_inv k'.
Proof.
  unfold rt_mq_urgent. intros H Hk.
  destruct (msg_size mq <? size); [by injection H as <- _ _|].
  destruct (msg_queue_free mq); [|by injection H as <- _ _].
  bind_inv H. injection H as <- _ _. by eapply mq_wake_ready_inv.
Qed.

Lemma rt_mq_recv_ready_inv mq buffer size timeout k k' mq' st b :
  rt_mq_recv mq buffer size timeout k = Some (k', mq', st, b) ->
  ready_inv k -> ready_inv k'.
Proof.
  unfold rt_mq_recv. intros H Hk. destruct (mq_entry mq =? 0).
  - destruct (deref k (rt_thread_self k)) as [t|] eqn:D; simpl in H; [|done].
    assert (Hk0 : ready_inv (store (rt_thread_self k) (set_error RT_EOK t) k))
      by (by eapply ready_inv_store).
    destruct (timeout =? 0).
    + bind_inv H. injection H as <- _ _ _. by eapply ready_inv_store.
    + bind_inv H. injection H as <- _ _ _. wait_ready_inv.
  - bind_inv H. by injection H as <- _ _ _.
Qed.

Lemma fast_event_send_loop_ready_inv bit offset ns k event k' event' :
  fast_event_send_loop bit offset ns (k, event) = Some (k', event') ->
  ready_inv k -> ready_inv k'.
Proof.
  revert k event. induction ns as [|n ns IH]; intros k event H Hk;
    cbn [fast_event_send_loop] in H.
  - by injection H as <- _.
  - destruct (fast_event_send_step bit offset n (k, event)) as [[k1 event1]|] eqn:E;
      cbn [mbind option_bind] in H; [|done].
    eapply IH; [exact H|]. unfold fast_event_send_step in E.
    bind_inv E. injection E as <- _. by eapply rt_thread_resume_ready_inv.
Qed.

Lemma rt_fast_event_send_ready_inv event bit k k' event' e :
  rt_fast_event_send event bit k = Some (k', event', e) -> ready_inv k -> ready_inv k'.
Proof.
  unfold rt_fast_event_send. intros H Hk.
  destruct (negb (bit <? RT_EVENT_LENGTH)); [done|].
  bind_inv H. injection H as <- _ _. by eapply fast_event_send_loop_ready_inv.
Qed.

Lemma rt_fast_event_recv_ready_inv event bit option_ timeout k k' event' e :
  rt_fast_event_recv event bit option_ timeout k = Some (k', event', e) ->
  ready_inv k -> ready_inv k'.
Proof.
  unfold rt_fast_event_recv. intros H Hk.
  destruct (negb (bit <? RT_EVENT_LENGTH)); [done|].
  destruct (deref k (rt_thread_self k)) as [t|] eqn:D; simpl in H; [|done].
  assert (Hk0 : ready_inv (store (rt_thread_self k) (set_error RT_EOK t) k))
    by (by eapply ready_inv_store).
  destruct (c_true _); [by injection H as <- _ _|].
  bind_inv H. injection H as <- _ _.
  destruct (timeout =? 0).
  - match goal with X : (_ ≫= _) = Some _ |- _ => rename X into W end.
    bind_inv W. injection W as <- _. by eapply ready_inv_store.
  - match goal with X : (_ ≫= _) = Some _ |- _ => rename X into W end.
    bind_inv W. injection W as <- _.
    eapply start_thread_timer_ready_inv; [eassumption|].
    eapply ready_inv_store; [eassumption|reflexivity|].
    by eapply rt_thread_suspend_ready_inv.
Qed.

(** X27.  The invariant of the ready table, a thread is READY exactly when
    its node is linked in the ready table, and linked once, is kept by
    every defined outcome of the IPC operations: the wait-queue primitives
    [rt_ipc_object_suspend], [rt_ipc_object_resume] and
    [rt_ipc_object_resume_all], take and release of semaphores and mutexes
    (with the priority changes of the mutex), send and receive of events,
    fast events, mailboxes and message queues, up to their
    [rt_schedule()]. *)
Theorem ipc_ops_keep_ready_inv pmax (k : kernel) :
  ready_inv k ->
  (forall ipc thread k' ipc',
     rt_ipc_object_suspend ipc thread k = Some (k', ipc') -> ready_inv k') /\
  (forall ipc k' ipc', rt_ipc_object_resume ipc k = Some (k', ipc') -> ready_inv k') /\
  (forall fuel ipc k' ipc',
     rt_ipc_object_resume_all fuel ipc k = Some (k', ipc') -> ready_inv k') /\
  (forall sem time k' sem' st,
     rt_sem_take sem time k = Some (k', sem', st) -> ready_inv k') /\
  (forall sem k' sem' e, rt_sem_release sem k = Some (k', sem', e) -> ready_inv k') /\
  (forall mutex time k' mutex' st,
     rt_mutex_take pmax mutex time k = Some (k', mutex', st) -> ready_inv k') /\
  (forall mutex k' mutex' e,
     rt_mutex_release pmax mutex k = Some (k', mutex', e) -> ready_inv k') /\
  (forall event set_ k' event' e,
     rt_event_send event set_ k = Some (k', event', e) -> ready_inv k') /\
  (forall event set_ option_ timeout k' event' st r,
     rt_event_recv event set_ option_ timeout k = Some (k', event', st, r) ->
     ready_inv k') /\
  (forall event bit k' event' e,
     rt_fast_event_send event bit k = Some (k', event', e) -> ready_inv k') /\
  (forall event bit option_ timeout k' event' e,
     rt_fast_event_recv event bit option_ timeout k = Some (k', event', e) ->
     ready_inv k') /\
  (forall mb value k' mb' e, rt_mb_send mb value k = Some (k', mb', e) -> ready_inv k') /\
  (forall mb timeout k' mb' st r,
     rt_mb_recv mb timeout k = Some (k', mb', st, r) -> ready_inv k') /\
  (forall mq buffer size k' mq' e,
     rt_mq_send mq buffer size k = Some (k', mq', e) -> ready_inv k') /\
  (forall mq buffer size k' mq' e,
     rt_mq_urgent mq buffer size k = Some (k', mq', e) -> ready_inv k') /\
  (forall mq buffer size timeout k' mq' st b,
     rt_mq_recv mq buffer size timeout k = Some (k', mq', st, b) -> ready_inv k').
Proof.
  intros Hk. split_and!; intros.
  - by eapply rt_ipc_object_suspend_ready_inv.
  - by eapply rt_ipc_object_resume_ready_inv.
  - by eapply rt_ipc_object_resume_all_ready_inv.
  - by eapply rt_sem_take_ready_inv.
  - by eapply rt_sem_release_ready_inv.
  - by eapply rt_mutex_take_ready_inv.
  - by eapply rt_mutex_release_ready_inv.
  - by eapply rt_event_send_ready_inv.
  - by eapply rt_event_recv_ready_inv.
  - by eapply rt_fast_event_send_ready_inv.
  - by eapply rt_fast_event_recv_ready_inv.
  - by eapply rt_mb_send_ready_inv.
  - by eapply rt_mb_recv_ready_inv.
  - by eapply rt_mq_send_ready_inv.
  - by eapply rt_mq_urgent_ready_inv.
  - by eapply rt_mq_recv_ready_inv.
Qed.

Lemma ipc_ops_keep_ready_inv_witness :
  ready_inv low_high_kernel /\
  exists k1 sem1,
    rt_sem_take (rt_sem_init 0 RT_IPC_FLAG_FIFO) (-1) low_high_kernel
      = Some (k1, sem1, Scheduled) /\
    rt_thread_priority_table k1 = [1%nat] /\ ready_inv k1.
Proof.
  assert (Hk : ready_inv low_high_kernel) by (apply ready_check_spec; reflexivity).
  split; [exact Hk|].
  destruct (rt_sem_take (rt_sem_init 0 RT_IPC_FLAG_FIFO) (-1) low_high_kernel)
    as [[[k1 sem1] st]|] eqn:E1; [|done].
  destruct (ipc_ops_keep_ready_inv 256 low_high_kernel Hk)
    as (_ & _ & _ & T & _).
  pose proof (T _ _ _ _ _ E1) as Hk1.
  vm_compute in E1. injection E1 as <- <- <-.
  eexists _, _. split; [reflexivity|]. split; [reflexivity|exact Hk1].
Defined.
